(** * askjson: schema inference, statistics, path addressing, visibility
      filtering and jq syntax repair of [gui.py], embedded in Rocq.

    Python values are embedded as they are at run time: [json.loads] produces
    [None], [bool], [int], [float], [str], [list] and [dict] objects, and the
    schema built by [JsonSchemaAnalyzer] is again made of such objects, so one
    type [pyobj] serves for documents, schemas and statistics.  A [dict] is an
    association list in insertion order (Python dictionaries iterate in
    insertion order, and [Counter.most_common] breaks ties by it). *)

From Stdlib Require Import List String Ascii ZArith QArith Qabs Lqa Bool Lia Permutation Sorted.
From stdpp Require Import gmap strings.
Import ListNotations.

Open Scope string_scope.
Open Scope Z_scope.
Open Scope list_scope.

(** ** Python objects *)

(** A Python [float].  Finite floats are represented by the rational number
    they denote; the result of [math.sqrt] on a rational that is not a perfect
    square is kept symbolically ([FSqrt q] is the float nearest to the square
    root of [q]).  Rounding to binary64 is not modelled; overflow of the float
    range is (see [float_of_Q]). *)
Inductive pyfloat : Type :=
| FRat (q : Q)
| FSqrt (q : Q).

Unset Elimination Schemes.
Inductive pyobj : Type :=
| PNone
| PBool (b : bool)
| PInt (z : Z)
| PFloat (f : pyfloat)
| PStr (s : string)
| PList (l : list pyobj)
| PTuple (l : list pyobj)
| PDict (d : list (string * pyobj)).
Set Elimination Schemes.

Abbreviation dict := (list (string * pyobj)).

(** Structural induction through the nested lists. *)
Definition pyobj_ind (P : pyobj -> Prop)
  (HNone : P PNone)
  (HBool : forall b, P (PBool b))
  (HInt : forall z, P (PInt z))
  (HFloat : forall f, P (PFloat f))
  (HStr : forall s, P (PStr s))
  (HList : forall l, Forall P l -> P (PList l))
  (HTuple : forall l, Forall P l -> P (PTuple l))
  (HDict : forall d, Forall (fun kv => P (snd kv)) d -> P (PDict d)) :
  forall o, P o :=
  fix F (o : pyobj) : P o :=
    match o with
    | PNone => HNone
    | PBool b => HBool b
    | PInt z => HInt z
    | PFloat f => HFloat f
    | PStr s => HStr s
    | PList l =>
        HList l ((fix G (l : list pyobj) : Forall P l :=
                    match l with
                    | [] => @List.Forall_nil _ _
                    | x :: l' => @List.Forall_cons _ P x l' (F x) (G l')
                    end) l)
    | PTuple l =>
        HTuple l ((fix G (l : list pyobj) : Forall P l :=
                     match l with
                     | [] => @List.Forall_nil _ _
                     | x :: l' => @List.Forall_cons _ P x l' (F x) (G l')
                     end) l)
    | PDict d =>
        HDict d ((fix G (d : dict) : Forall (fun kv => P (snd kv)) d :=
                    match d with
                    | [] => @List.Forall_nil _ _
                    | kv :: d' => @List.Forall_cons _ (fun kv => P (snd kv)) kv d' (F (snd kv)) (G d')
                    end) d)
    end.

(** ** Dictionaries *)

(** [key in d] *)
Fixpoint dict_has (d : dict) (k : string) : bool :=
  match d with
  | [] => false
  | (k', _) :: d' => if String.eqb k' k then true else dict_has d' k
  end.

(** [d.get(key)]: [None] when the key is absent *)
Fixpoint dict_get (d : dict) (k : string) : option pyobj :=
  match d with
  | [] => None
  | (k', v) :: d' => if String.eqb k' k then Some v else dict_get d' k
  end.

(** [d[key] = v]: an existing key keeps its position, a new one is appended *)
Fixpoint dict_set (d : dict) (k : string) (v : pyobj) : dict :=
  match d with
  | [] => [(k, v)]
  | (k', v') :: d' =>
      if String.eqb k' k then (k', v) :: d' else (k', v') :: dict_set d' k v
  end.

Definition dict_keys (d : dict) : list string := map fst d.

(** ** Python built-ins used by the analyzer *)

Inductive pytype : Type :=
| TNoneType | TBool | TInt | TFloat | TStr | TList | TTuple | TDict.

(** [type(o)] *)
Definition type_of (o : pyobj) : pytype :=
  match o with
  | PNone => TNoneType
  | PBool _ => TBool
  | PInt _ => TInt
  | PFloat _ => TFloat
  | PStr _ => TStr
  | PList _ => TList
  | PTuple _ => TTuple
  | PDict _ => TDict
  end.

(** [T.__name__] *)
Definition type_name (t : pytype) : string :=
  match t with
  | TNoneType => "NoneType"
  | TBool => "bool"
  | TInt => "int"
  | TFloat => "float"
  | TStr => "str"
  | TList => "list"
  | TTuple => "tuple"
  | TDict => "dict"
  end.

Definition pytype_eqb (a b : pytype) : bool :=
  match a, b with
  | TNoneType, TNoneType | TBool, TBool | TInt, TInt | TFloat, TFloat
  | TStr, TStr | TList, TList | TTuple, TTuple | TDict, TDict => true
  | _, _ => false
  end.

(** [isinstance(o, t)]: [bool] is a subclass of [int]. *)
Definition isinstance (o : pyobj) (t : pytype) : bool :=
  pytype_eqb (type_of o) t ||
  (pytype_eqb (type_of o) TBool && pytype_eqb t TInt).

(** [isinstance(o, (int, float))] *)
Definition isinstance_int_float (o : pyobj) : bool :=
  isinstance o TInt || isinstance o TFloat.

(** Truth value of an object ([if o:] / [not o]). *)
Definition truthy (o : pyobj) : bool :=
  match o with
  | PNone => false
  | PBool b => b
  | PInt z => negb (z =? 0)
  | PFloat (FRat q) => negb (Qeq_bool q 0)
  | PFloat (FSqrt q) => negb (Qeq_bool q 0)
  | PStr s => negb (String.eqb s "")
  | PList l | PTuple l => match l with [] => false | _ => true end
  | PDict d => match d with [] => false | _ => true end
  end.

(** [len(arr)] as a Python [int] *)
Definition py_len {A} (l : list A) : Z := Z.of_nat (length l).

(** [arr[i]] for [0 <= i < len(arr)], and [arr[-1]] *)
Definition py_index (arr : list pyobj) (i : Z) : pyobj := nth (Z.to_nat i) arr PNone.
Definition py_last (arr : list pyobj) : pyobj := List.last arr PNone.

(** The number an [int], [bool] or [float] object denotes (the floats of a
    document are all of the form [FRat q]). *)
Definition num_val (o : pyobj) : Q :=
  match o with
  | PBool true => 1%Q
  | PInt z => inject_Z z
  | PFloat (FRat q) => q
  | _ => 0%Q
  end.

(** [a < b] on numbers *)
Definition num_lt (a b : pyobj) : bool := negb (Qle_bool (num_val b) (num_val a)).

(** [min(arr)] and [max(arr)]: the first smallest, respectively first
    largest, element (the built-ins keep the earlier element on ties). *)
Definition py_min (arr : list pyobj) : pyobj :=
  match arr with
  | [] => PNone
  | x :: rest => fold_left (fun best item => if num_lt item best then item else best) rest x
  end.

Definition py_max (arr : list pyobj) : pyobj :=
  match arr with
  | [] => PNone
  | x :: rest => fold_left (fun best item => if num_lt best item then item else best) rest x
  end.

(** [sorted(data)] on numbers: stable, ascending. *)
Fixpoint sorted_insert (x : pyobj) (l : list pyobj) : list pyobj :=
  match l with
  | [] => [x]
  | y :: l' => if num_lt y x then y :: sorted_insert x l' else x :: y :: l'
  end.

Definition py_sorted (data : list pyobj) : list pyobj :=
  fold_right sorted_insert [] data.

(** *** Floats *)

(** A rational of magnitude [2^1024 - 2^970] or more rounds outside the
    binary64 range: converting it to [float] (true division of two [int]s,
    [float(Fraction)]) raises [OverflowError]. *)
Definition float_overflow_bound : Z := 2 ^ 1024 - 2 ^ 970.

(** [float(q)] for an exact rational [q]; [None] is [OverflowError].  The
    float is given by the rational it is the correctly rounded image of:
    rounding to binary64 is not modelled, overflow is.  What is stated of a
    recorded float is stated of that rational. *)
Definition float_of_Q (q : Q) : option pyobj :=
  if Qle_bool (inject_Z float_overflow_bound) (Qabs q) then None
  else Some (PFloat (FRat (Qred q))).

(** [math.sqrt(q)] for [q >= 0]: exact on squares of rationals. *)
Definition py_sqrt (q : Q) : pyfloat :=
  let q := Qred q in
  let n := Z.sqrt (Qnum q) in
  let d := Z.sqrt (Zpos (Qden q)) in
  if (n * n =? Qnum q) && (d * d =? Zpos (Qden q))
  then FRat (Qred (Qmake n (Z.to_pos d)))
  else FSqrt q.

(** *** The [statistics] module (on the uniform numeric lists it is given) *)

Definition is_int_like (o : pyobj) : bool := isinstance o TInt.

Definition Qsum (l : list Q) : Q := fold_right Qplus 0%Q l.

(** Exact arithmetic mean, as [statistics] computes it with [Fraction]s. *)
Definition exact_mean (data : list pyobj) : Q :=
  (Qsum (map num_val data) / inject_Z (py_len data))%Q.

(** [statistics._convert(q, T)]: an integral result over [int] data stays an
    [int], anything else becomes a [float]. *)
Definition stat_convert (int_data : bool) (q : Q) : option pyobj :=
  let q := Qred q in
  if int_data && (Zpos (Qden q) =? 1) then Some (PInt (Qnum q))
  else float_of_Q q.

(** [statistics.mean(data)]; [None] when it raises. *)
Definition statistics_mean (data : list pyobj) : option pyobj :=
  match data with
  | [] => None
  | _ => stat_convert (forallb is_int_like data) (exact_mean data)
  end.

(** [(a + b) / 2] as [statistics.median] evaluates it. *)
Definition py_midpoint (a b : pyobj) : option pyobj :=
  let q := ((num_val a + num_val b) / 2)%Q in
  if is_int_like a && is_int_like b then float_of_Q q
  else Some (PFloat (FRat (Qred q))).

(** [statistics.median(data)]; [None] when it raises. *)
Definition statistics_median (data : list pyobj) : option pyobj :=
  let data := py_sorted data in
  let n := length data in
  match n with
  | O => None
  | _ =>
      if Nat.odd n then Some (nth (n / 2) data PNone)
      else py_midpoint (nth (n / 2 - 1) data PNone) (nth (n / 2) data PNone)
  end%nat.

(** Sample variance: sum of squared deviations from the mean over [n - 1]. *)
Definition exact_variance (data : list pyobj) : Q :=
  let m := exact_mean data in
  (Qsum (map (fun x => (num_val x - m) * (num_val x - m)) data)
   / inject_Z (py_len data - 1))%Q.

(** [statistics.stdev(data)], that is [math.sqrt(variance(data))]; [None]
    when it raises ([StatisticsError] below two data points, [OverflowError]
    when the variance does not fit a float). *)
Definition statistics_stdev (data : list pyobj) : option pyobj :=
  if (length data <? 2)%nat then None
  else match float_of_Q (exact_variance data) with
       | None => None
       | Some _ => Some (PFloat (py_sqrt (exact_variance data)))
       end.

(** *** [collections.Counter] on strings *)

Abbreviation counter := (list (string * nat)).

Fixpoint counter_incr (c : counter) (s : string) : counter :=
  match c with
  | [] => [(s, 1%nat)]
  | (s', n) :: c' =>
      if String.eqb s' s then (s', S n) :: c' else (s', n) :: counter_incr c' s
  end.

(** [Counter(arr)]: one entry per distinct string, in first-encounter order. *)
Definition Counter (arr : list string) : counter := fold_left counter_incr arr [].

(** [sorted(items, key=itemgetter(1), reverse=True)]: stable, descending. *)
Fixpoint count_insert (x : string * nat) (l : counter) : counter :=
  match l with
  | [] => [x]
  | y :: l' => if (snd y <=? snd x)%nat then x :: y :: l' else y :: count_insert x l'
  end.

Definition sorted_by_count_desc (c : counter) : counter :=
  fold_right count_insert [] c.

(** [counter.most_common()] and [counter.most_common(n)]
    ([heapq.nlargest(n, ...)] is [sorted(..., reverse=True)[:n]]). *)
Definition most_common_all (c : counter) : counter := sorted_by_count_desc c.
Definition most_common (n : nat) (c : counter) : counter := firstn n (sorted_by_count_desc c).

(** The slice [l[:-6:-1]]: the last five elements, last first. *)
Definition slice_last5_reversed {A} (l : list A) : list A := firstn 5 (rev l).

(** ** Schema inference and statistics: [JsonSchemaAnalyzer] *)

(** The string a [str] object holds (only applied to [str] objects). *)
Definition str_val (o : pyobj) : string :=
  match o with PStr s => s | _ => "" end.

(** [range(lo, hi)] *)
Definition py_range (lo hi : Z) : list Z :=
  map (fun i => lo + Z.of_nat i) (seq 0 (Z.to_nat (hi - lo))).

(** The branch of the [if]/[elif] chain of [_compute_value_stats] that a
    value takes; the tests are tried in the order of the source. *)
Inductive value_branch : Type :=
| BranchIntFloat | BranchStr | BranchBool | BranchNone | BranchOther.

Definition value_stats_branch (value : pyobj) : value_branch :=
  if isinstance_int_float value then BranchIntFloat
  else if isinstance value TStr then BranchStr
  else if isinstance value TBool then BranchBool
  else if pytype_eqb (type_of value) TNoneType then BranchNone
  else BranchOther.

Definition _compute_value_stats (key : string) (value : pyobj) (parent_obj : pyobj) : dict :=
  let value_type := type_name (type_of value) in
  let stats := [("type", PStr value_type)] in
  match value_stats_branch value with
  | BranchIntFloat =>
      let stats := dict_set stats "value" value in
      match parent_obj with
      | PDict parent =>
          if truthy parent_obj && dict_has parent key then
            match dict_get parent key with
            | Some v =>
                let values := [v] in
                let stats := dict_set stats "min" (py_min values) in
                dict_set stats "max" (py_max values)
            | None => stats
            end
          else stats
      | _ => stats
      end
  | BranchStr =>
      let s := str_val value in
      let stats := dict_set stats "length" (PInt (Z.of_nat (String.length s))) in
      if (50 <? String.length s)%nat
      then dict_set stats "preview" (PStr (String.append (substring 0 50 s) "..."))
      else dict_set stats "preview" value
  | BranchBool => dict_set stats "value" value
  | BranchNone => dict_set stats "value" (PStr "null")
  | BranchOther => stats
  end.

Definition _get_examples (value : pyobj) : pyobj :=
  match value with
  | PStr _ | PInt _ | PFloat _ | PBool _ | PNone => PList [value]
  | PList l =>
      if (length l <=? 3)%nat then value
      else PList [py_index l 0; py_index l (py_len l / 2); py_last l]
  | PDict d =>
      let item kv := PTuple [PStr (fst kv); snd kv] in
      if (length d <=? 3)%nat then PList (map item d)
      else PList (map item (firstn 3 d))
  | PTuple _ => PList []
  end.

Section Analyzer.
(** [random.sample(population, k)] draws from the interpreter's global
    generator.  Its outcome is an input of the model: a run of the
    analyzer is given the function that answers its calls. *)
Variable random_sample : list Z -> Z -> list Z.

(** The body of the [try] of the numeric branch.  An exception raised by
    [statistics.mean] or [statistics.median] leaves the [try] with the keys
    assigned so far; one raised by [statistics.stdev] is swallowed by the
    inner [try] and the block goes on. *)
Definition numeric_stats (arr : list pyobj) (stats : dict) : dict :=
  let stats := dict_set stats "min" (py_min arr) in
  let stats := dict_set stats "max" (py_max arr) in
  match statistics_mean arr with
  | None => stats
  | Some mean =>
      let stats := dict_set stats "mean" mean in
      let after_median :=
        if 1 <? py_len arr then
          match statistics_median arr with
          | None => None
          | Some median =>
              let stats := dict_set stats "median" median in
              match statistics_stdev arr with
              | Some stdev => Some (dict_set stats "stdev" stdev)
              | None => Some stats
              end
          end
        else Some stats in
      match after_median with
      | None => stats
      | Some stats =>
          if 5 <? py_len arr then
            let examples := [py_index arr 0; py_last arr] in
            let mid_idx := py_len arr / 2 in
            if (0 <? mid_idx) && (mid_idx <? py_len arr)
            then dict_set stats "examples" (PList (examples ++ [py_index arr mid_idx]))
            else dict_set stats "examples" (PList examples)
          else stats
      end
  end.

(** One entry of [most_common] / [least_common]. *)
Definition count_entry (vc : string * nat) : pyobj :=
  PDict [("value", PStr (fst vc)); ("count", PInt (Z.of_nat (snd vc)))].

(** The string branch.  [avg_length] is the quotient of two lengths, far
    inside the float range. *)
Definition string_stats (arr : list pyobj) (stats : dict) : dict :=
  let lengths := map (fun s => PInt (Z.of_nat (String.length (str_val s)))) arr in
  let stats := dict_set stats "min_length" (py_min lengths) in
  let stats := dict_set stats "max_length" (py_max lengths) in
  let stats := dict_set stats "avg_length"
                 (PFloat (FRat (Qred (Qsum (map num_val lengths)
                                      / inject_Z (py_len lengths))))) in
  let stats :=
    if py_len arr <? 1000 then
      let counter := Counter (map str_val arr) in
      let most := most_common 5 counter in
      let stats :=
        match most with
        | [] => stats
        | _ => dict_set stats "most_common" (PList (map count_entry most))
        end in
      if (5 <? length counter)%nat then
        let least_common := slice_last5_reversed (most_common_all counter) in
        dict_set stats "least_common" (PList (map count_entry least_common))
      else stats
    else stats in
  if 5 <? py_len arr then
    let sample_indices := [0; py_len arr - 1] in
    let sample_indices :=
      if 3 <? py_len arr then
        sample_indices ++ random_sample (py_range 1 (py_len arr - 1))
                                        (Z.min 3 (py_len arr - 2))
      else sample_indices in
    dict_set stats "examples" (PList (map (py_index arr) sample_indices))
  else stats.

Definition _compute_array_stats (arr : list pyobj) : dict :=
  let stats := [("count", PInt (py_len arr))] in
  match arr with
  | [] => stats
  | first :: _ =>
      let first_type := type_of first in
      let all_same_type := forallb (fun item => isinstance item first_type) arr in
      let stats := dict_set stats "uniform_type" (PBool all_same_type) in
      if all_same_type && forallb isinstance_int_float arr then numeric_stats arr stats
      else if all_same_type && forallb (fun item => isinstance item TStr) arr
           then string_stats arr stats
           else stats
  end.

(** The loop of [_analyze_object], given the function that builds the
    entry of one key. *)
Definition analyze_items (entry : dict -> string -> pyobj -> pyobj) (obj : dict) : dict :=
  fold_left (fun schema kv => dict_set schema (fst kv) (entry obj (fst kv) (snd kv))) obj [].

(** The body of the loop of [_analyze_object]: the schema entry of [key],
    whose value in [obj] is [value]. *)
Fixpoint analyze_entry (obj : dict) (key : string) (value : pyobj) {struct value} : pyobj :=
  match value with
  | PDict d =>
      PDict [("type", PStr "object");
             ("properties", PDict (analyze_items analyze_entry d))]
  | PList l =>
      let array_type := "array" in
      let element_type :=
        match l with
        | first :: _ =>
            if forallb (fun item => isinstance item (type_of first)) l
            then type_name (type_of first) else "mixed"
        | [] => "mixed"
        end in
      let array_stats := _compute_array_stats l in
      let node := [("type", PStr array_type);
                   ("element_type", PStr element_type);
                   ("stats", PDict array_stats)] in
      match l with
      | PDict d0 :: _ =>
          let sample_schema := analyze_items analyze_entry d0 in
          PDict (dict_set node "properties" (PDict sample_schema))
      | _ => PDict node
      end
  | _ =>
      let value_type := type_name (type_of value) in
      let stats := _compute_value_stats key value (PDict obj) in
      PDict [("type", PStr value_type);
             ("value", value);
             ("stats", PDict stats);
             ("examples", _get_examples value)]
  end.

Definition _analyze_object (obj : dict) : dict := analyze_items analyze_entry obj.

(** The loop over [json_data[:10]] of [analyze_json]. *)
Definition combine_schemas (items : list pyobj) : dict :=
  fold_left
    (fun combined_schema item =>
       match item with
       | PDict d =>
           let item_schema := _analyze_object d in
           fold_left
             (fun combined kv =>
                if dict_has combined (fst kv) then combined
                else dict_set combined (fst kv) (snd kv))
             item_schema combined_schema
       | _ => combined_schema
       end)
    items [].

Definition analyze_json (json_data : pyobj) : dict :=
  match json_data with
  | PDict d => _analyze_object d
  | PList ((_ :: _) as l) =>
      let combined_schema := combine_schemas (firstn 10 l) in
      let array_stats := _compute_array_stats l in
      dict_set combined_schema "__array_stats" (PDict array_stats)
  | _ => []
  end.
End Analyzer.

(** ** Visibility filter: [JsonViewerWindow.filter_json_by_visibility] *)

(** A path is the tuple of real key segments from the document root. *)
Abbreviation path := (list string).

Section Filter.
(** [self.hidden_paths] *)
Variable hidden_paths : gset path.

Fixpoint _filter_recursive (data : pyobj) (current_path : path) {struct data} : pyobj :=
  match data with
  | PDict d =>
      PDict (fold_left
               (fun result kv =>
                  let key_path := current_path ++ [fst kv] in
                  if decide (key_path ∈ hidden_paths) then result
                  else dict_set result (fst kv) (_filter_recursive (snd kv) key_path))
               d [])
  | PList l => PList (map (fun item => _filter_recursive item current_path) l)
  | _ => data
  end.

Definition filter_json_by_visibility (json_data : pyobj) : pyobj :=
  if decide (hidden_paths = ∅) then json_data
  else _filter_recursive json_data [].
End Filter.

(** ** Schema browser: [JsonSchemaViewer] and [JsonSchemaTreeWidget] *)

(** A [QTreeWidgetItem]: the text of column 0, the object shown in column 1,
    and its child items.  [item_schema] is not part of the widget: it records
    the schema node the item was created for by [_add_schema_item] (the
    labels "[Root]", "Count" and "elements" stand for no node). *)
Unset Elimination Schemes.
Inductive tree_item : Type :=
| TreeItem (text0 : string) (text1 : pyobj) (item_schema : option pyobj)
           (children : list tree_item).
Set Elimination Schemes.

(** [o == s] for a string literal [s] *)
Definition py_eq_str (o : pyobj) (s : string) : bool :=
  match o with PStr s' => String.eqb s' s | _ => false end.

(** [o.items()] of the dictionaries found under ['properties'] *)
Definition py_items (o : pyobj) : dict :=
  match o with PDict d => d | _ => [] end.

(** [d[k]] for a key that is present *)
Definition dict_at (d : dict) (k : string) : pyobj :=
  match dict_get d k with Some v => v | None => PNone end.

(** Nesting depth of an object: bounds the recursion of [_add_schema_item]. *)
Fixpoint pyobj_depth (o : pyobj) : nat :=
  match o with
  | PList l | PTuple l => S (fold_right (fun x n => Nat.max (pyobj_depth x) n) O l)
  | PDict d => S (fold_right (fun kv n => Nat.max (pyobj_depth (snd kv)) n) O d)
  | _ => O
  end.

Fixpoint add_schema_item_rec (fuel : nat) (key : string) (schema : pyobj) : tree_item :=
  let simple := TreeItem key (PStr (type_name (type_of schema))) (Some schema) [] in
  match fuel, schema with
  | S fuel, PDict d =>
      if dict_has d "type" then
        let item_type := dict_at d "type" in
        let sub_items props :=
          map (fun kv => add_schema_item_rec fuel (fst kv) (snd kv)) (py_items props) in
        let children :=
          if py_eq_str item_type "object" && dict_has d "properties" then
            sub_items (dict_at d "properties")
          else if py_eq_str item_type "array" && dict_has d "element_type" then
            [TreeItem "elements" (dict_at d "element_type") None
               (if dict_has d "properties" then sub_items (dict_at d "properties")
                else [])]
          else [] in
        TreeItem key item_type (Some schema) children
      else simple
  | _, _ => simple
  end.

Definition _add_schema_item (key : string) (schema : pyobj) : tree_item :=
  add_schema_item_rec (pyobj_depth schema) key schema.

(** [update_schema_tree]: the tree built from [self.schema_info]; [None] is
    the cleared, empty tree. *)
Definition update_schema_tree (schema_info : dict) : option tree_item :=
  match schema_info with
  | [] => None
  | _ =>
      if dict_has schema_info "__array_stats" then
        let stats := dict_at schema_info "__array_stats" in
        let count := match dict_get (py_items stats) "count" with
                     | Some c => c
                     | None => PInt 0
                     end in
        let count_item := TreeItem "Count" count None [] in
        Some (TreeItem "[Root]" (PStr "array") None
                (count_item ::
                 map (fun kv => _add_schema_item (fst kv) (snd kv))
                     (List.filter (fun kv => negb (String.eqb (fst kv) "__array_stats"))
                             schema_info)))
      else
        Some (TreeItem "[Root]" (PStr "object") None
                (map (fun kv => _add_schema_item (fst kv) (snd kv)) schema_info))
  end.

(** An item of the tree is addressed by the column-0 texts on the way from
    the top-level item down to it.  [tree_items] lists every item that way,
    with the schema node it stands for. *)
Fixpoint tree_items (ancestors : list string) (item : tree_item)
  : list (list string * option pyobj) :=
  match item with
  | TreeItem text0 _ schema children =>
      let chain := ancestors ++ [text0] in
      (chain, schema) :: flat_map (tree_items chain) children
  end.

(** [_get_item_path]: walk from the item up through [parent()], putting each
    text that is not a structural label in front of the path. *)
Definition _get_item_path (chain : list string) : path :=
  fold_left
    (fun path text =>
       if negb (String.eqb text "[Root]") && negb (String.eqb text "elements")
       then text :: path else path)
    (rev chain) [].

(** [s.startswith(p)] *)
Fixpoint starts_with (p s : string) : bool :=
  match p, s with
  | EmptyString, _ => true
  | String a p', String b s' => Ascii.eqb a b && starts_with p' s'
  | String _ _, EmptyString => false
  end.

(** [x in s] for strings *)
Fixpoint is_substring (x s : string) : bool :=
  if starts_with x s then true
  else match s with
       | EmptyString => false
       | String _ s' => is_substring x s'
       end.

(** [x in c]; [None] is the [TypeError] of a container that is not iterable. *)
Definition py_in (x : string) (c : pyobj) : option bool :=
  match c with
  | PDict d => Some (dict_has d x)
  | PStr s => Some (is_substring x s)
  | PList l | PTuple l => Some (existsb (fun o => py_eq_str o x) l)
  | _ => None
  end.

(** [c[k]] for a string key; [None] is the exception raised when [c] is not a
    dictionary holding [k]. *)
Definition py_getitem (c : pyobj) (k : string) : option pyobj :=
  match c with PDict d => dict_get d k | _ => None end.

(** The loop of [_get_schema_at_path]; [i] is the index [enumerate] gives.
    [Some PNone] is [return None], [None] is a raised exception. *)
Fixpoint get_schema_loop (schema : pyobj) (i : nat) (path : path) : option pyobj :=
  match path with
  | [] => Some schema
  | segment :: rest =>
      in_stats ← py_in "__array_stats" schema;
      if in_stats && (i =? 0)%nat then get_schema_loop schema (S i) rest
      else match schema with
           | PDict d =>
               if dict_has d segment then get_schema_loop (dict_at d segment) (S i) rest
               else
                 in_props ← (if dict_has d "properties"
                             then py_in segment (dict_at d "properties")
                             else Some false);
                 if (in_props : bool) then
                   next ← py_getitem (dict_at d "properties") segment;
                   get_schema_loop next (S i) rest
                 else if dict_has d "type" && py_eq_str (dict_at d "type") "array"
                         && dict_has d "properties" then
                   in_props' ← py_in segment (dict_at d "properties");
                   if (in_props' : bool) then
                     next ← py_getitem (dict_at d "properties") segment;
                     get_schema_loop next (S i) rest
                   else Some PNone
                 else Some PNone
           | _ => Some PNone
           end
  end.

Definition _get_schema_at_path (schema_info : pyobj) (path : path) : option pyobj :=
  match path with
  | [] => Some schema_info
  | _ => get_schema_loop schema_info 0 path
  end.

(** ** Query repair: [ChatWidget._fix_jq_syntax] *)

(** Strings are ASCII texts; the character classes of [re] are taken on
    ASCII. *)
Definition ascii_between (lo hi : nat) (c : ascii) : bool :=
  let n := nat_of_ascii c in ((lo <=? n) && (n <=? hi))%nat.

(** The class "\w", on ASCII characters *)
Definition is_word (c : ascii) : bool :=
  ascii_between 97 122 c || ascii_between 65 90 c || ascii_between 48 57 c
  || Ascii.eqb c "_".

(** The class "\s", on ASCII characters *)
Definition is_space (c : ascii) : bool :=
  Ascii.eqb c " " || ascii_between 9 13 c || ascii_between 28 31 c.

(** The class "[\.\w+]": a dot, a word character or a plus sign *)
Definition is_field_char (c : ascii) : bool :=
  Ascii.eqb c "." || is_word c || Ascii.eqb c "+".

(** The elements the patterns of [_fix_jq_syntax] are made of. *)
Inductive regex_atom : Type :=
| RLit (text : string)            (* literal text *)
| RPlus (cls : ascii -> bool)     (* one or more characters of a class *)
| RStar (cls : ascii -> bool)     (* any number of characters of a class *)
| RBoundary.                      (* word boundary *)

(** A pattern: the elements before the capturing group, then the group
    (empty when the pattern has none); the groups of the four patterns all
    end their pattern. *)
Record regex : Type := { re_before : list regex_atom; re_group : list regex_atom }.

(** The longest prefix of [s] made of characters of [cls], and the rest. *)
Fixpoint span (cls : ascii -> bool) (s : string) : string * string :=
  match s with
  | String c s' =>
      if cls c then let '(m, r) := span cls s' in (String c m, r)
      else (EmptyString, s)
  | EmptyString => (EmptyString, EmptyString)
  end.

Fixpoint string_drop (n : nat) (s : string) : string :=
  match n, s with
  | S n', String _ s' => string_drop n' s'
  | _, _ => s
  end.

Fixpoint string_last (prev : option ascii) (s : string) : option ascii :=
  match s with
  | EmptyString => prev
  | String c s' => string_last (Some c) s'
  end.

Definition is_word_opt (c : option ascii) : bool :=
  match c with Some c => is_word c | None => false end.

Definition string_head (s : string) : option ascii :=
  match s with String c _ => Some c | EmptyString => None end.

(** Match the elements in sequence at the start of [s]; [prev] is the
    character before [s].  Gives the matched text and what follows it.
    Repetitions are greedy; in the patterns below a repetition is never
    followed by something that could start with a character of its class, so
    the regex engine never gives back what a repetition took. *)
Fixpoint match_atoms (atoms : list regex_atom) (prev : option ascii) (s : string)
  : option (string * string) :=
  match atoms with
  | [] => Some (EmptyString, s)
  | a :: atoms' =>
      let continue (m r : string) :=
        match match_atoms atoms' (string_last prev m) r with
        | Some (m', r') => Some (String.append m m', r')
        | None => None
        end in
      match a with
      | RLit text =>
          if starts_with text s
          then continue text (string_drop (String.length text) s) else None
      | RPlus cls =>
          let '(m, r) := span cls s in
          match m with EmptyString => None | _ => continue m r end
      | RStar cls => let '(m, r) := span cls s in continue m r
      | RBoundary =>
          if xorb (is_word_opt prev) (is_word_opt (string_head s))
          then continue EmptyString s else None
      end
  end.

(** A match of the whole pattern at the start of [s]: the text of group 1. *)
Definition match_here (re : regex) (prev : option ascii) (s : string) : option string :=
  match match_atoms (re_before re) prev s with
  | Some (m, r) =>
      match match_atoms (re_group re) (string_last prev m) r with
      | Some (g, _) => Some g
      | None => None
      end
  | None => None
  end.

(** [re.search(pattern, s)]: the leftmost match; gives [match.group(1)]. *)
Fixpoint search_from (re : regex) (prev : option ascii) (s : string) : option string :=
  match match_here re prev s with
  | Some g => Some g
  | None =>
      match s with
      | String c s' => search_from re (Some c) s'
      | EmptyString => None
      end
  end.

Definition re_search (re : regex) (s : string) : option string := search_from re None s.

(** [s.replace(old, new)] for a non-empty [old]: every occurrence, left to
    right, without overlap.  [skip] counts the characters of an occurrence
    still to be dropped. *)
Fixpoint replace_from (old new : string) (skip : nat) (s : string) : string :=
  match s with
  | EmptyString => EmptyString
  | String c s' =>
      match skip with
      | S k => replace_from old new k s'
      | O =>
          if starts_with old s
          then String.append new (replace_from old new (String.length old - 1) s')
          else String c (replace_from old new 0 s')
      end
  end.

Definition py_replace (s old new : string) : string := replace_from old new 0 s.

(** The capturing group FIELD of the patterns: "\.\w+[\.\w+]*" *)
Definition field_group : list regex_atom := [RLit "."; RPlus is_word; RStar is_field_char].

(** The pattern "sort\s+-r\s+--key=FIELD" *)
Definition re_sort_r_key : regex :=
  {| re_before := [RLit "sort"; RPlus is_space; RLit "-r"; RPlus is_space; RLit "--key="];
     re_group := field_group |}.

(** The pattern "sort\s+--key=FIELD" *)
Definition re_sort_key : regex :=
  {| re_before := [RLit "sort"; RPlus is_space; RLit "--key="];
     re_group := field_group |}.

(** The pattern "sort\s+-r\b" *)
Definition re_sort_r : regex :=
  {| re_before := [RLit "sort"; RPlus is_space; RLit "-r"; RBoundary];
     re_group := [] |}.

(** The pattern "sort\s+-r\s+FIELD" *)
Definition re_sort_r_field : regex :=
  {| re_before := [RLit "sort"; RPlus is_space; RLit "-r"; RPlus is_space];
     re_group := field_group |}.

Definition is_some {A} (o : option A) : bool :=
  match o with Some _ => true | None => false end.

Definition _fix_jq_syntax (query : string) : string :=
  let query :=
    if is_substring "--key=" query then
      match re_search re_sort_r_key query with
      | Some field =>
          py_replace query (String.append "sort -r --key=" field)
                     (String.append "sort_by(" (String.append field ") | reverse"))
      | None =>
          match re_search re_sort_key query with
          | Some field =>
              py_replace query (String.append "sort --key=" field)
                         (String.append "sort_by(" (String.append field ")"))
          | None => query
          end
      end
    else query in
  if is_some (re_search re_sort_r query) then
    match re_search re_sort_r_field query with
    | Some field =>
        py_replace query (String.append "sort -r " field)
                   (String.append "sort_by(" (String.append field ") | reverse"))
    | None => py_replace query "sort -r" "sort | reverse"
    end
  else query.

(** ** The window: [JsonViewerWindow] *)

(** What the JSON view shows: a document (printed by [json.dumps]) or text. *)
Inductive shown : Type :=
| ShownJson (v : pyobj)
| ShownText (s : string).

Record window : Type := {
  current_json_file : option string;
  json_content : option string;
  parsed_json : option pyobj;
  hidden_paths : gset path;
  json_viewer : option shown;          (* text of the JSON view *)
  schema_data : option pyobj           (* [schema_viewer.json_data] *)
}.

(** [JsonViewerWindow.__init__] *)
Definition initial_window : window :=
  {| current_json_file := None; json_content := None; parsed_json := None;
     hidden_paths := ∅; json_viewer := None; schema_data := None |}.

(** What the [jq] subprocess does with a query. *)
Inductive jq_result : Type :=
| JqRaised                                  (* [subprocess.run] raised *)
| JqExit (returncode : Z) (stdout stderr : string).

(** [s.strip()], on ASCII text *)
Fixpoint lstrip (s : string) : string :=
  match s with
  | String c s' => if is_space c then lstrip s' else s
  | EmptyString => EmptyString
  end.

Fixpoint string_rev (acc s : string) : string :=
  match s with
  | String c s' => string_rev (String c acc) s'
  | EmptyString => acc
  end.

Definition py_strip (s : string) : string :=
  string_rev EmptyString (lstrip (string_rev EmptyString (lstrip s))).

(** What the user and the signals of the widgets make the window do. *)
Inductive event : Type :=
| ToggleVisibility (p : path) (is_visible : bool)
      (* [toggle_attribute_visibility], from the eye icon of an attribute *)
| LoadFile (file_path : string) (content : option string)
      (* [load_json_file]; [content] is what reading the file gives, [None]
         when opening or reading it raises *)
| RunQuery (query_text : string) (jq : jq_result).
      (* [run_jq_query] with the text of the query field *)

Section Window.
(** [json.loads]; [None] is [JSONDecodeError]. *)
Variable json_loads : string -> option pyobj.

Definition toggle_attribute_visibility (w : window) (p : path) (is_visible : bool) : window :=
  let hidden := if is_visible then hidden_paths w ∖ {[p]} else hidden_paths w ∪ {[p]} in
  let viewer :=
    match parsed_json w with
    | Some v => if truthy v then Some (ShownJson (filter_json_by_visibility hidden v))
                else json_viewer w
    | None => json_viewer w
    end in
  {| current_json_file := current_json_file w; json_content := json_content w;
     parsed_json := parsed_json w; hidden_paths := hidden;
     json_viewer := viewer; schema_data := schema_data w |}.

Definition load_json_file (w : window) (file_path : string) (content : option string) : window :=
  match content with
  | Some text =>
      match json_loads text with
      | Some v =>
          {| current_json_file := Some file_path; json_content := Some text;
             parsed_json := Some v; hidden_paths := ∅;
             json_viewer := Some (ShownJson v); schema_data := Some v |}
      | None =>
          {| current_json_file := None; json_content := None;
             parsed_json := None; hidden_paths := ∅;
             json_viewer := Some (ShownText (String.append "Invalid JSON" text));
             schema_data := schema_data w |}
      end
  | None =>
      {| current_json_file := None; json_content := None;
         parsed_json := None; hidden_paths := hidden_paths w;
         json_viewer := Some (ShownText "Error opening file");
         schema_data := schema_data w |}
  end.

Definition reset_to_original_json (w : window) : window :=
  match json_content w with
  | Some text =>
      if negb (String.eqb text "") then
        match json_loads text with
        | Some v =>
            {| current_json_file := current_json_file w; json_content := json_content w;
               parsed_json := Some v; hidden_paths := hidden_paths w;
               json_viewer := Some (ShownJson (filter_json_by_visibility (hidden_paths w) v));
               schema_data := schema_data w |}
        | None =>
            {| current_json_file := current_json_file w; json_content := json_content w;
               parsed_json := parsed_json w; hidden_paths := hidden_paths w;
               json_viewer := Some (ShownText text); schema_data := schema_data w |}
        end
      else w
  | None => w
  end.

Definition run_jq_query (w : window) (query_text : string) (jq : jq_result) : window :=
  match current_json_file w with
  | None => w
  | Some file =>
      if String.eqb file "" then w
      else
        let query := py_strip query_text in
        if String.eqb query "" then reset_to_original_json w
        else
          let show (s : shown) (data : option pyobj) :=
            {| current_json_file := current_json_file w; json_content := json_content w;
               parsed_json := parsed_json w; hidden_paths := hidden_paths w;
               json_viewer := Some s; schema_data := data |} in
          match jq with
          | JqRaised => w
          | JqExit returncode stdout stderr =>
              if returncode =? 0 then
                match json_loads stdout with
                | Some output_json =>
                    show (ShownJson (filter_json_by_visibility (hidden_paths w) output_json))
                         (Some output_json)
                | None => show (ShownText stdout) (schema_data w)
                end
              else show (ShownText (String.append "jq error: " stderr)) (schema_data w)
          end
  end.

Definition handle (w : window) (e : event) : window :=
  match e with
  | ToggleVisibility p is_visible => toggle_attribute_visibility w p is_visible
  | LoadFile file_path content => load_json_file w file_path content
  | RunQuery query_text jq => run_jq_query w query_text jq
  end.

(** The window after a sequence of events. *)
Definition run (w : window) (events : list event) : window := fold_left handle events w.
End Window.

(** ** Notions the statements below are phrased with *)

(** Two outcomes [random.sample] can have: the first [k] members of the
    population, and the last [k] in reverse order. *)
Definition sample_first (population : list Z) (k : Z) : list Z :=
  firstn (Z.to_nat k) population.
Definition sample_last (population : list Z) (k : Z) : list Z :=
  firstn (Z.to_nat k) (rev population).

(** [out] is a possible result of [random.sample(population, k)]: [k]
    distinct members of the population. *)
Definition valid_sample (population : list Z) (k : Z) (out : list Z) : Prop :=
  Z.of_nat (length out) = k /\ NoDup out /\ forall i, In i out -> In i population.

(** [None], [bool], [int], [float] and [str] objects. *)
Definition is_scalar (v : pyobj) : bool :=
  match v with
  | PNone | PBool _ | PInt _ | PFloat _ | PStr _ => true
  | _ => false
  end.

Section SchemaNotions.
Variable random_sample : list Z -> Z -> list Z.

(** The child schema that the first element of [sample] defining [k]
    gives for [k]; elements that are not objects define nothing. *)
Fixpoint first_defining (sample : list pyobj) (k : string) : option pyobj :=
  match sample with
  | [] => None
  | PDict d :: rest =>
      if dict_has d k then dict_get (_analyze_object random_sample d) k
      else first_defining rest k
  | _ :: rest => first_defining rest k
  end.

(** [props] is the union of the keys of the sampled elements, each key with
    the schema of the first element that defines it. *)
Definition first_wins_union (sample : list pyobj) (props : dict) : Prop :=
  forall k, dict_get props k = first_defining sample k.
End SchemaNotions.

(** The ['properties'] of a schema node. *)
Definition node_properties (node : pyobj) : dict :=
  py_items (dict_at (py_items node) "properties").

(** An array of more than five strings: the one case in which
    [_compute_array_stats] calls [random.sample]. *)
Definition draws_sample (l : list pyobj) : bool :=
  (5 <? py_len l) && forallb (fun o => isinstance o TStr) l.

(** No array anywhere inside [v] makes the analyzer draw a sample. *)
Fixpoint sample_free (v : pyobj) : bool :=
  match v with
  | PList l => negb (draws_sample l) && forallb sample_free l
  | PTuple l => forallb sample_free l
  | PDict d => forallb (fun kv => sample_free (snd kv)) d
  | _ => true
  end.

(** What an event does to the hidden-path set [H]: a toggle hides or shows
    one path, reading a file (even one that then fails to parse) empties the
    set, everything else leaves it as it is. *)
Definition hidden_after (H : gset path) (e : event) : gset path :=
  match e with
  | ToggleVisibility p is_visible => if is_visible then H ∖ {[p]} else H ∪ {[p]}
  | LoadFile _ (Some _) => ∅
  | LoadFile _ None => H
  | RunQuery _ _ => H
  end.

(** A stand-in for [json.loads] that knows the two texts of the example
    session below. *)
Definition json_loads_example (text : string) : option pyobj :=
  if String.eqb text "[1, 2]" then Some (PList [PInt 1; PInt 2])
  else if String.eqb text "1" then Some (PInt 1)
  else None.

(** Every character of [s] is in the class [cls]. *)
Fixpoint string_forall (cls : ascii -> bool) (s : string) : bool :=
  match s with
  | EmptyString => true
  | String c s' => cls c && string_forall cls s'
  end.

(** The texts FIELD can stand for: a dot, a word character, then word
    characters, dots and plus signs. *)
Definition is_field (s : string) : bool :=
  match s with
  | String "." (String c rest) => is_word c && string_forall is_field_char rest
  | _ => false
  end.

(** [s] starts with "sort" and a whitespace character, as every match of one
    of the four patterns does; [sort_space_in]: some suffix of [s] does. *)
Definition sort_space_at (s : string) : bool :=
  starts_with "sort" s &&
  match string_drop 4 s with
  | String c _ => is_space c
  | EmptyString => false
  end.

Fixpoint sort_space_in (s : string) : bool :=
  sort_space_at s ||
  match s with
  | String _ s' => sort_space_in s'
  | EmptyString => false
  end.

(** The condition under which [_compute_array_stats] takes its numeric
    branch: the array is not empty, every element is an instance of the type
    of the first, and every element is an [int] or a [float]. *)
Definition uniform_numeric (arr : list pyobj) : bool :=
  match arr with
  | [] => false
  | first :: _ =>
      forallb (fun item => isinstance item (type_of first)) arr
      && forallb isinstance_int_float arr
  end.

(** Numbers of magnitude at most [2^500]: sums, means and variances of such
    numbers stay inside the float range. *)
Definition stat_bound : Z := 2 ^ 500.

Definition bounded_num (x : pyobj) : bool :=
  Qle_bool (Qabs (num_val x)) (inject_Z stat_bound).





(** [p] leads somewhere in [v]: a key is followed into an object, and an
    array is entered through any of its elements (the filter gives the
    elements of an array the path of the array itself). *)
Fixpoint has_path (v : pyobj) (p : path) {struct v} : bool :=
  match p with
  | [] => true
  | k :: p' =>
      match v with
      | PDict d => existsb (fun kv => String.eqb (fst kv) k && has_path (snd kv) p') d
      | PList l => existsb (fun x => has_path x p) l
      | _ => false
      end
  end.

(** The names that [_get_item_path] and [_get_schema_at_path] treat
    specially: the two structural labels of the tree, the marker of a root
    array, and the fields of object and array schema nodes. *)
Definition reserved_names : list string :=
  ["[Root]"; "elements"; "__array_stats"; "type"; "properties"; "element_type"; "stats"].

Definition plain_key (k : string) : bool :=
  negb (existsb (String.eqb k) reserved_names).

(** No string occurs twice in [l]. *)
Fixpoint distinct (l : list string) : bool :=
  match l with
  | [] => true
  | k :: l' => negb (existsb (String.eqb k) l') && distinct l'
  end.

(** Every object inside [v] has distinct keys (as the objects [json.loads]
    builds do), none of them a reserved name. *)
Fixpoint plain_keys (v : pyobj) : bool :=
  match v with
  | PDict d =>
      distinct (dict_keys d)
      && forallb (fun kv => plain_key (fst kv) && plain_keys (snd kv)) d
  | PList l | PTuple l => forallb plain_keys l
  | _ => true
  end.

(** ** The query field: [JqQueryInput] *)

(** The attributes of the line edit that [keyPressEvent] reads and writes;
    [text] is the text of the field. *)
Record JqQueryInput : Type := {
  history : list string;
  history_index : Z;
  current_input : string;
  text : string
}.

(** [JqQueryInput.__init__] *)
Definition new_JqQueryInput : JqQueryInput :=
  {| history := []; history_index := -1; current_input := ""; text := "" |}.

(** [l[i]] with Python's negative indices; [None] is [IndexError]. *)
Definition list_index {A : Type} (l : list A) (i : Z) : option A :=
  let n := Z.of_nat (length l) in
  if 0 <=? i then nth_error l (Z.to_nat i)
  else if - n <=? i then nth_error l (Z.to_nat (n + i))
  else None.

Definition add_to_history (w : JqQueryInput) (query : string) : JqQueryInput :=
  if negb (String.eqb query "")
     && match history w with
        | [] => true
        | _ => negb (String.eqb query (List.last (history w) ""))
        end
  then
    let h := history w ++ [query] in
    let h := if (50 <? length h)%nat then skipn (length h - 50) h else h in
    {| history := h; history_index := history_index w;
       current_input := current_input w; text := text w |}
  else w.

Definition navigate_history (w : JqQueryInput) (direction : Z) : option JqQueryInput :=
  match history w with
  | [] => Some w
  | _ =>
      let current_input := if history_index w =? -1 then text w else current_input w in
      let new_index := history_index w + direction in
      let len := Z.of_nat (length (history w)) in
      let new_index :=
        if len <=? new_index then len - 1
        else if new_index <? -1 then -1
        else new_index in
      if new_index =? -1 then
        Some {| history := history w; history_index := new_index;
                current_input := current_input; text := current_input |}
      else
        shown_text ← list_index (history w) (len - 1 - new_index);
        Some {| history := history w; history_index := new_index;
                current_input := current_input; text := shown_text |}
  end.

(** The keys [keyPressEvent] tells apart.  Any other key goes to
    [QLineEdit.keyPressEvent], which edits the text; [new_text] is the text
    of the field afterwards. *)
Inductive key : Type :=
| Key_Up
| Key_Down
| Key_Escape
| Key_Return
| Key_Enter
| Key_Other (new_text : string).

(** [keyPressEvent], as far as the field itself is concerned; [None] is a
    raised exception. *)
Definition keyPressEvent (w : JqQueryInput) (k : key) : option JqQueryInput :=
  let set_text t :=
    {| history := history w; history_index := history_index w;
       current_input := current_input w; text := t |} in
  match k with
  | Key_Up => navigate_history w 1
  | Key_Down => navigate_history w (-1)
  | Key_Escape => Some (set_text "")
  | Key_Return | Key_Enter =>
      let query := py_strip (text w) in
      let w' :=
        if match history w with
           | [] => negb (String.eqb query "")
           | _ => negb (String.eqb query (List.last (history w) ""))
           end
        then add_to_history w query else w in
      Some {| history := history w'; history_index := -1;
              current_input := current_input w'; text := text w' |}
  | Key_Other new_text => Some (set_text new_text)
  end.

(** A sequence of key presses. *)
Fixpoint press_keys (w : JqQueryInput) (keys : list key) : option JqQueryInput :=
  match keys with
  | [] => Some w
  | k :: keys' => w' ← keyPressEvent w k; press_keys w' keys'
  end.

(** No two neighbours of [l] are equal. *)
Fixpoint no_repeat (l : list string) : bool :=
  match l with
  | a :: (b :: _) as l' => negb (String.eqb a b) && no_repeat l'
  | _ => true
  end.

(** What every key press keeps true of the field. *)
Definition history_ok (w : JqQueryInput) : Prop :=
  (length (history w) <= 50)%nat /\
  Forall (fun q => q <> "") (history w) /\
  no_repeat (history w) = true /\
  -1 <= history_index w < Z.of_nat (length (history w)).

(** The text that leaving the history brings back. *)
Definition saved_input (w : JqQueryInput) : string :=
  if history_index w =? -1 then text w else current_input w.

(** The type a schema node records for a value: [object] for a dictionary,
    [array] for a list, the name of the Python type otherwise. *)
Definition node_type (value : pyobj) : string :=
  match value with
  | PDict _ => "object"
  | PList _ => "array"
  | _ => type_name (type_of value)
  end.

(** The two columns of a tree item. *)
Definition item_text0 (item : tree_item) : string :=
  match item with TreeItem text0 _ _ _ => text0 end.
Definition item_text1 (item : tree_item) : pyobj :=
  match item with TreeItem _ text1 _ _ => text1 end.

(** ** The command line tool: [askjson.py] *)

(** The line feed character. *)
Definition LF : ascii := "010"%char.

(** [s.split(sep)] for a separator of one character. *)
Fixpoint py_split (sep : ascii) (s : string) : list string :=
  match s with
  | EmptyString => [EmptyString]
  | String c s' =>
      if Ascii.eqb c sep then EmptyString :: py_split sep s'
      else match py_split sep s' with
           | line :: lines => String c line :: lines
           | [] => [String c EmptyString]
           end
  end.

(** [sep.join(l)] *)
Fixpoint py_join (sep : string) (l : list string) : string :=
  match l with
  | [] => EmptyString
  | [x] => x
  | x :: l' => String.append x (String.append sep (py_join sep l'))
  end.

(** The preview of the document that [ask_ollama] puts into the prompt. *)
Definition json_content_limited (json_content : string) : string :=
  let lines := py_split LF json_content in
  let limited := py_join (String LF EmptyString) (firstn 50 lines) in
  if (50 <? length lines)%nat
  then String.append limited (String LF "... (truncated for brevity)")
  else limited.

(** The filter [ask_ollama] returns for the text the model printed. *)
Definition clean_result (stdout : string) : string :=
  let raw_result := py_strip stdout in
  py_strip (py_replace (py_replace (py_replace raw_result "`" "") "```" "") "jq" "").

(** [l] without its leading elements of the class [cls]. *)
Fixpoint drop_while {A : Type} (cls : A -> bool) (l : list A) : list A :=
  match l with
  | x :: l' => if cls x then drop_while cls l' else l
  | [] => []
  end.

(** ** The chat: the query found in the answer of the model *)





(** Every object inside [v] has distinct keys, as the objects that
    [json.loads] builds do. *)
Fixpoint unique_keys (v : pyobj) : bool :=
  match v with
  | PDict d => distinct (dict_keys d) && forallb (fun kv => unique_keys (snd kv)) d
  | PList l | PTuple l => forallb unique_keys l
  | _ => true
  end.

(** ASCII text.  The classes [is_word] and [is_space] are Python's "\w" and
    "\s", and [py_strip] is [str.strip], on ASCII characters; on other
    characters Python's classes are those of Unicode.  Statements that
    depend on the classes are made for ASCII text. *)
Definition is_ascii (c : ascii) : bool := (nat_of_ascii c <? 128)%nat.
Definition ascii_text (s : string) : bool := string_forall is_ascii s.

(** The text after a FIELD does not go on with a character of the group. *)
Definition field_ends (post : string) : bool :=
  match post with
  | String c _ => negb (is_field_char c)
  | EmptyString => true
  end.

(** What follows a "sort -r" that stands without a field: no word character
    directly after it and, after white space, neither a dot nor "--key=". *)
Definition bare_follow (post : string) : bool :=
  negb (is_word_opt (string_head post))
  && negb (starts_with "." (lstrip post))
  && negb (starts_with "--key=" (lstrip post)).

(** * Proofs *)

(** ** Dictionaries *)

Lemma dict_set_fresh (d : dict) k v :
  k ∉ dict_keys d -> dict_set d k v = d ++ [(k, v)].
Proof.
  induction d as [|[k' v'] d IH]; simpl; intros Hk; [reflexivity|].
  destruct (String.eqb_spec k' k) as [->|Hne].
  - exfalso. apply Hk. left.
  - rewrite IH; [reflexivity|]. intros Hin. apply Hk. now right.
Qed.

Lemma dict_set_keys (d : dict) k v :
  dict_keys (dict_set d k v) =
  if dict_has d k then dict_keys d else dict_keys d ++ [k].
Proof.
  induction d as [|[k' v'] d IH]; simpl; [reflexivity|].
  destruct (String.eqb_spec k' k) as [->|Hne]; simpl; [reflexivity|].
  rewrite IH. now destruct (dict_has d k).
Qed.

Lemma dict_has_In (d : dict) k : dict_has d k = true <-> k ∈ dict_keys d.
Proof.
  induction d as [|[k' v'] d IH]; simpl.
  - split; [discriminate|]. intros Hin. inversion Hin.
  - rewrite elem_of_cons.
    destruct (String.eqb_spec k' k) as [->|Hne]; [intuition|].
    rewrite IH. intuition congruence.
Qed.

Lemma dict_set_NoDup (d : dict) k v :
  NoDup (dict_keys d) -> NoDup (dict_keys (dict_set d k v)).
Proof.
  intros Hnd. rewrite dict_set_keys.
  destruct (dict_has d k) eqn:Hh; [assumption|].
  apply NoDup_app; repeat split; try assumption.
  - intros x Hx Hx'. apply list_elem_of_singleton in Hx'. subst x.
    apply dict_has_In in Hx. congruence.
  - apply NoDup_singleton.
Qed.

Lemma dict_set_Forall (P : string * pyobj -> Prop) (d : dict) k v :
  Forall P d -> P (k, v) -> Forall P (dict_set d k v).
Proof.
  induction 1 as [|[k' v'] d Hx Hd IH]; simpl; intros Hkv.
  - now constructor.
  - destruct (String.eqb_spec k' k) as [->|Hne]; constructor; auto.
Qed.

(** ** Visibility filter *)

Section FilterFacts.
Variable H : gset path.

(** One iteration of the loop over [data.items()]. *)
Let step (p : path) (result : dict) (kv : string * pyobj) : dict :=
  if decide (p ++ [fst kv] ∈ H) then result
  else dict_set result (fst kv) (_filter_recursive H (snd kv) (p ++ [fst kv])).

(** What every entry of a filtered dictionary satisfies. *)
Let kept (p : path) (kv : string * pyobj) : Prop :=
  (p ++ [fst kv] ∉ H) /\
  _filter_recursive H (snd kv) (p ++ [fst kv]) = snd kv.

Lemma filter_loop_inv p (d acc : dict) :
  Forall (fun kv => forall q, _filter_recursive H (_filter_recursive H (snd kv) q) q
                              = _filter_recursive H (snd kv) q) d ->
  NoDup (dict_keys acc) -> Forall (kept p) acc ->
  NoDup (dict_keys (fold_left (step p) d acc)) /\
  Forall (kept p) (fold_left (step p) d acc).
Proof.
  intros Hd. revert acc.
  induction Hd as [|[k v] d Hkv Hd IH]; simpl; intros acc Hnd Hacc; [now split|].
  apply IH; unfold step; simpl; destruct (decide (p ++ [k] ∈ H)); auto.
  - now apply dict_set_NoDup.
  - apply dict_set_Forall; [assumption|]. split; simpl; [assumption|apply Hkv].
Qed.

Lemma filter_loop_fixed p (r acc : dict) :
  NoDup (dict_keys (acc ++ r)) -> Forall (kept p) r ->
  fold_left (step p) r acc = acc ++ r.
Proof.
  revert acc. induction r as [|[k v] r IH]; simpl; intros acc Hnd Hr.
  - now rewrite app_nil_r.
  - inversion Hr as [|? ? [Hk Hv] Hr']; subst. simpl in Hk, Hv.
    unfold step at 2. simpl. destruct (decide (p ++ [k] ∈ H)); [contradiction|].
    rewrite Hv. rewrite dict_set_fresh.
    + rewrite IH; [now rewrite <- app_assoc| |assumption].
      now rewrite <- app_assoc.
    + unfold dict_keys in *. rewrite map_app in Hnd. simpl in Hnd.
      apply NoDup_app in Hnd as (_ & Hdis & _).
      intros Hin. apply (Hdis k); [assumption|]. left.
  Qed.

Lemma _filter_recursive_idem (v : pyobj) :
  forall p, _filter_recursive H (_filter_recursive H v p) p = _filter_recursive H v p.
Proof.
  induction v as [| | | | |l IH|l IH|d IH] using pyobj_ind;
    intros p; simpl; try reflexivity.
  - f_equal. rewrite map_map.
    induction IH as [|x l Hx _ IHl]; simpl; [reflexivity|].
    now rewrite Hx, IHl.
  - f_equal.
    destruct (filter_loop_inv p d [] IH) as [Hnd Hk]; [constructor|constructor|].
    fold (step p). apply (filter_loop_fixed p _ []); assumption.
Qed.
End FilterFacts.

(** C4. Visibility filtering is idempotent: filtering an already filtered
    document with the same hidden-path set changes nothing. *)
Theorem filter_json_by_visibility_idempotent (H : gset path) (v : pyobj) :
  filter_json_by_visibility H (filter_json_by_visibility H v)
  = filter_json_by_visibility H v.
Proof.
  unfold filter_json_by_visibility.
  destruct (decide (H = ∅)); [reflexivity|].
  apply _filter_recursive_idem.
Qed.

(** ** More on dictionaries *)

Lemma dict_get_set (d : dict) k v k' :
  dict_get (dict_set d k v) k' = if String.eqb k k' then Some v else dict_get d k'.
Proof.
  induction d as [|[k0 v0] d IH]; simpl.
  - reflexivity.
  - destruct (String.eqb_spec k0 k) as [->|Hne]; simpl.
    + now destruct (String.eqb k k').
    + rewrite IH. destruct (String.eqb_spec k0 k') as [->|Hne'].
      * destruct (String.eqb_spec k k'); [congruence|reflexivity].
      * reflexivity.
Qed.

Lemma dict_has_get (d : dict) k : dict_has d k = is_some (dict_get d k).
Proof.
  induction d as [|[k0 v0] d IH]; simpl; [reflexivity|].
  now destruct (String.eqb k0 k).
Qed.

Lemma dict_has_set (d : dict) k v k' :
  dict_has (dict_set d k v) k' = String.eqb k k' || dict_has d k'.
Proof.
  rewrite !dict_has_get, dict_get_set. now destruct (String.eqb k k').
Qed.

(** ** Schema inference *)

Section AnalyzerFacts.
Variable rs : list Z -> Z -> list Z.

(** The keys of an object schema are the keys of the object. *)
Lemma analyze_items_has entry (obj d acc : dict) k :
  dict_has (fold_left (fun schema kv => dict_set schema (fst kv) (entry obj (fst kv) (snd kv)))
                      d acc) k
  = dict_has acc k || dict_has d k.
Proof.
  revert acc. induction d as [|[k0 v0] d IH]; simpl; intros acc.
  - now rewrite orb_false_r.
  - rewrite IH, dict_has_set. destruct (String.eqb k0 k), (dict_has acc k); reflexivity.
Qed.

Lemma _analyze_object_has (d : dict) k :
  dict_has (_analyze_object rs d) k = dict_has d k.
Proof. unfold _analyze_object, analyze_items. now rewrite analyze_items_has. Qed.

(** Merging the schema of one element into [combined_schema]. *)
Lemma merge_item_get (item_schema combined : dict) k :
  dict_get (fold_left (fun combined kv =>
                         if dict_has combined (fst kv) then combined
                         else dict_set combined (fst kv) (snd kv))
                      item_schema combined) k
  = match dict_get combined k with
    | Some v => Some v
    | None => dict_get item_schema k
    end.
Proof.
  revert combined. induction item_schema as [|[k0 v0] d IH]; simpl; intros combined.
  - now destruct (dict_get combined k).
  - rewrite IH. destruct (dict_has combined k0) eqn:Hh.
    + destruct (dict_get combined k) eqn:Hg; [reflexivity|].
      destruct (String.eqb_spec k0 k) as [->|Hne]; [|reflexivity].
      rewrite dict_has_get, Hg in Hh. discriminate.
    + rewrite dict_get_set. destruct (String.eqb_spec k0 k) as [->|Hne].
      * rewrite dict_has_get in Hh. now destruct (dict_get combined k).
      * reflexivity.
Qed.

Lemma combine_schemas_get (items : list pyobj) (acc : dict) k :
  dict_get (fold_left
              (fun combined_schema item =>
                 match item with
                 | PDict d =>
                     fold_left (fun combined kv =>
                                  if dict_has combined (fst kv) then combined
                                  else dict_set combined (fst kv) (snd kv))
                               (_analyze_object rs d) combined_schema
                 | _ => combined_schema
                 end) items acc) k
  = match dict_get acc k with
    | Some v => Some v
    | None => first_defining rs items k
    end.
Proof.
  revert acc. induction items as [|item items IH]; simpl; intros acc.
  - now destruct (dict_get acc k).
  - rewrite IH. destruct item; try reflexivity.
    rewrite merge_item_get. destruct (dict_get acc k); [reflexivity|].
    rewrite <- (_analyze_object_has d k), dict_has_get.
    now destruct (dict_get (_analyze_object rs d) k).
Qed.
End AnalyzerFacts.

(** C1 (as the code has it).  For a non-empty array at the root of the
    document, the schema holds, under every key other than the reserved
    [__array_stats], the child schema given by the first of the first ten
    elements that is an object defining that key (and no entry when none
    does); [__array_stats] holds the statistics of the whole array.  For an
    array that is the value of a key, the node's [properties] are the schema
    of its first element alone, present when that element is an object. *)
Theorem array_schema_first_wins (rs : list Z -> Z -> list Z) :
  (forall (x : pyobj) (l : list pyobj) (k : string),
      dict_get (analyze_json rs (PList (x :: l))) k
      = if String.eqb "__array_stats" k
        then Some (PDict (_compute_array_stats rs (x :: l)))
        else first_defining rs (firstn 10 (x :: l)) k)
  /\
  (forall (obj : dict) (key : string) (l : list pyobj),
      dict_get (py_items (analyze_entry rs obj key (PList l))) "properties"
      = match l with
        | PDict d0 :: _ => Some (PDict (_analyze_object rs d0))
        | _ => None
        end).
Proof.
  split.
  - intros x l k. unfold analyze_json, combine_schemas.
    rewrite dict_get_set. destruct (String.eqb "__array_stats" k); [reflexivity|].
    now rewrite combine_schemas_get.
  - intros obj key l. destruct l as [|[] l]; reflexivity.
Qed.

(** C1, counterexample.  In the document [{"k": [{"x": 1}, {"y": 2}]}] both
    sampled elements of the array are objects, yet the [properties] of the
    node of [k] are not the first-wins union of their keys: [y] is missing. *)
Lemma nested_array_schema_not_union :
  let sample := [PDict [("x", PInt 1)]; PDict [("y", PInt 2)]] in
  ~ first_wins_union sample_first sample
      (node_properties (dict_at (analyze_json sample_first (PDict [("k", PList sample)])) "k")).
Proof.
  intros sample Hu. specialize (Hu "y"). vm_compute in Hu. discriminate.
Qed.

Lemma analyze_items_get entry (obj d acc : dict) k :
  NoDup (dict_keys d) ->
  dict_get (fold_left (fun schema kv => dict_set schema (fst kv) (entry obj (fst kv) (snd kv)))
                      d acc) k
  = match dict_get d k with
    | Some v => Some (entry obj k v)
    | None => dict_get acc k
    end.
Proof.
  revert acc. induction d as [|[k0 v0] d IH]; simpl; intros acc Hnd; [reflexivity|].
  apply NoDup_cons in Hnd as [Hk0 Hnd]. rewrite IH by assumption.
  destruct (String.eqb_spec k0 k) as [->|Hne].
  - destruct (dict_get d k) eqn:Hg.
    + exfalso. apply Hk0. apply dict_has_In. now rewrite dict_has_get, Hg.
    + rewrite dict_get_set. now rewrite String.eqb_refl.
  - destruct (dict_get d k); [reflexivity|]. rewrite dict_get_set.
    destruct (String.eqb_spec k0 k); [congruence|reflexivity].
Qed.

(** C8 (as the code has it).  A scalar handed to [analyze_json] itself
    yields the empty schema.  The leaf schema is what the analysis of an
    object records for a key whose value is a scalar: the type name, the
    literal value, its statistics and the one-element example list. *)
Theorem scalar_schema (rs : list Z -> Z -> list Z) (v : pyobj) (obj : dict) (key : string) :
  is_scalar v = true ->
  NoDup (dict_keys obj) ->
  dict_get obj key = Some v ->
  analyze_json rs v = [] /\
  dict_get (analyze_json rs (PDict obj)) key
  = Some (PDict [("type", PStr (type_name (type_of v)));
                 ("value", v);
                 ("stats", PDict (_compute_value_stats key v (PDict obj)));
                 ("examples", PList [v])]).
Proof.
  intros Hs Hnd Hget. split.
  - destruct v; try discriminate; reflexivity.
  - unfold analyze_json, _analyze_object, analyze_items.
    rewrite analyze_items_get by assumption. rewrite Hget.
    destruct v; try discriminate; reflexivity.
Qed.

Lemma scalar_schema_witness :
  analyze_json sample_first (PInt 5) = [] /\
  dict_get (analyze_json sample_first (PDict [("n", PInt 5)])) "n"
  = Some (PDict [("type", PStr "int");
                 ("value", PInt 5);
                 ("stats", PDict (_compute_value_stats "n" (PInt 5) (PDict [("n", PInt 5)])));
                 ("examples", PList [PInt 5])]).
Proof.
  apply (scalar_schema sample_first (PInt 5) [("n", PInt 5)] "n").
  - reflexivity.
  - apply NoDup_singleton.
  - reflexivity.
Defined.

(** C8, counterexample.  [analyze_json] on the number 5 returns the empty
    schema, not a leaf schema carrying the value. *)
Lemma scalar_root_schema_is_empty :
  analyze_json sample_first (PInt 5) = [] /\
  dict_get (analyze_json sample_first (PInt 5)) "value" = None.
Proof. split; reflexivity. Qed.

(** ** Determinism *)

Section Determinism.
Variables rs1 rs2 : list Z -> Z -> list Z.

Lemma _compute_array_stats_det (l : list pyobj) :
  draws_sample l = false ->
  _compute_array_stats rs1 l = _compute_array_stats rs2 l.
Proof.
  unfold draws_sample, _compute_array_stats. intros Hd.
  destruct l as [|x l]; [reflexivity|].
  remember (x :: l) as arr eqn:Harr. cbv beta iota zeta.
  destruct (forallb (fun item => isinstance item (type_of x)) arr);
    cbn [andb]; [|reflexivity].
  destruct (forallb isinstance_int_float arr); [reflexivity|].
  destruct (forallb (fun item => isinstance item TStr) arr); [|reflexivity].
  rewrite andb_true_r in Hd. unfold string_stats. now rewrite Hd.
Qed.

Lemma analyze_items_det (d obj acc : dict) :
  Forall (fun kv => forall obj key,
              analyze_entry rs1 obj key (snd kv) = analyze_entry rs2 obj key (snd kv)) d ->
  fold_left (fun schema kv => dict_set schema (fst kv) (analyze_entry rs1 obj (fst kv) (snd kv)))
            d acc
  = fold_left (fun schema kv => dict_set schema (fst kv) (analyze_entry rs2 obj (fst kv) (snd kv)))
              d acc.
Proof.
  intros Hd. revert acc. induction Hd as [|kv d Hkv _ IH]; simpl; intros acc; [reflexivity|].
  now rewrite Hkv, IH.
Qed.

Lemma analyze_entry_det (v : pyobj) :
  sample_free v = true ->
  forall obj key, analyze_entry rs1 obj key v = analyze_entry rs2 obj key v.
Proof.
  induction v as [| | | | |l IH|l IH|d IH] using pyobj_ind;
    intros Hf obj key; try reflexivity.
  - (* list *)
    simpl in Hf. apply andb_prop in Hf as [Hd Hl].
    apply negb_true_iff in Hd.
    cbn [analyze_entry]. rewrite (_compute_array_stats_det l Hd).
    destruct l as [|x l]; [reflexivity|].
    destruct x; try reflexivity.
    inversion IH as [|? ? Hx _]; subst.
    simpl in Hl. apply andb_prop in Hl as [Hx' _].
    specialize (Hx Hx' [] ""). cbn [analyze_entry] in Hx.
    injection Hx as Hx. now rewrite Hx.
  - (* dict *)
    cbn [analyze_entry]. unfold analyze_items.
    rewrite (analyze_items_det d d []); [reflexivity|].
    simpl in Hf. clear obj key.
    induction IH as [|kv d Hkv _ IHd]; [constructor|].
    simpl in Hf. apply andb_prop in Hf as [Hkv' Hd'].
    constructor; [now apply Hkv|now apply IHd].
Qed.

Lemma _analyze_object_det (d : dict) :
  sample_free (PDict d) = true -> _analyze_object rs1 d = _analyze_object rs2 d.
Proof.
  intros Hf. pose proof (analyze_entry_det (PDict d) Hf [] "") as He.
  cbn [analyze_entry] in He. injection He as He. exact He.
Qed.

Lemma analyze_json_det (v : pyobj) :
  sample_free v = true -> analyze_json rs1 v = analyze_json rs2 v.
Proof.
  intros Hf. destruct v as [| | | | |l|l|d]; try reflexivity.
  - destruct l as [|x l]; [reflexivity|].
    unfold analyze_json. remember (x :: l) as arr eqn:Harr.
    cbn [sample_free] in Hf. apply andb_prop in Hf as [Hd Hl].
    apply negb_true_iff in Hd.
    rewrite (_compute_array_stats_det arr Hd). f_equal.
    unfold combine_schemas.
    assert (Hs : forallb sample_free (firstn 10 arr) = true).
    { apply forallb_forall. intros y Hy. apply (proj1 (forallb_forall _ _) Hl).
      rewrite <- (firstn_skipn 10 arr). apply in_or_app. now left. }
    generalize (@nil (string * pyobj)) as acc.
    induction (firstn 10 arr) as [|y ys IH]; intros acc; [reflexivity|].
    simpl in Hs. apply andb_prop in Hs as [Hy Hys]. simpl.
    destruct y; try (now apply IH).
    rewrite (_analyze_object_det d Hy). now apply IH.
  - now apply _analyze_object_det.
Qed.
End Determinism.

(** C3 (as the code has it).  On a document in which no array holds more
    than five strings, the schema does not depend on what [random.sample]
    returns: any two calls of [analyze_json] give the same schema. *)
Theorem analyze_json_deterministic (rs1 rs2 : list Z -> Z -> list Z) (v : pyobj) :
  sample_free v = true -> analyze_json rs1 v = analyze_json rs2 v.
Proof. apply analyze_json_det. Qed.

Lemma analyze_json_deterministic_witness :
  analyze_json sample_first (PDict [("tags", PList [PStr "a"; PStr "b"]); ("n", PInt 1)])
  = analyze_json sample_last (PDict [("tags", PList [PStr "a"; PStr "b"]); ("n", PInt 1)]).
Proof. apply analyze_json_deterministic. reflexivity. Defined.

(** C3, counterexample.  On the array of six strings
    [["a","b","c","d","e","f"]] the analyzer calls
    [random.sample(range(1, 5), 3)]; [[1,2,3]] and [[4,3,2]] are two of its
    possible results, and the schemas of the two calls differ (in the
    [examples] of the array statistics). *)
Lemma analyze_json_not_deterministic :
  let doc := PList (map PStr ["a"; "b"; "c"; "d"; "e"; "f"]) in
  valid_sample (py_range 1 5) 3 (sample_first (py_range 1 5) 3) /\
  valid_sample (py_range 1 5) 3 (sample_last (py_range 1 5) 3) /\
  analyze_json sample_first doc <> analyze_json sample_last doc.
Proof.
  repeat split.
  - exact (bool_decide_unpack (NoDup [1; 2; 3]) I).
  - vm_compute. tauto.
  - exact (bool_decide_unpack (NoDup [4; 3; 2]) I).
  - vm_compute. tauto.
  - vm_compute. discriminate.
Qed.

(** ** The hidden-path set of the window *)

Lemma hidden_paths_handle (json_loads : string -> option pyobj) (w : window) (e : event) :
  hidden_paths (handle json_loads w e) = hidden_after (hidden_paths w) e.
Proof.
  destruct e as [p vis|file content|query jq]; simpl.
  - reflexivity.
  - unfold load_json_file. destruct content as [text|]; [|reflexivity].
    now destruct (json_loads text).
  - unfold run_jq_query, reset_to_original_json.
    destruct (current_json_file w) as [file|]; [|reflexivity].
    destruct (String.eqb file ""); [reflexivity|].
    destruct (String.eqb (py_strip query) "").
    + destruct (json_content w) as [text|]; [|reflexivity].
      destruct (negb (String.eqb text "")); [|reflexivity].
      now destruct (json_loads text).
    + destruct jq as [|rc out err]; [reflexivity|].
      destruct (rc =? 0); [|reflexivity].
      now destruct (json_loads out).
Qed.

(** C9 (as the code has it).  Whatever the window is made to do, its
    hidden-path set changes only as follows: a visibility toggle adds or
    removes the toggled path, and reading a file empties the set; running a
    query, whether or not its result replaces the current document, leaves
    the set unchanged.  So after any sequence of events the set is what the
    events since the window started make of the empty set. *)
Theorem hidden_paths_run (json_loads : string -> option pyobj) (events : list event) (w : window) :
  hidden_paths (run json_loads w events) = fold_left hidden_after events (hidden_paths w).
Proof.
  unfold run. revert w.
  induction events as [|e events IH]; intros w; cbn [fold_left]; [reflexivity|].
  now rewrite IH, hidden_paths_handle.
Qed.

(** C9, counterexample.  Load a file, hide the path [a], run the query [.]:
    [jq] succeeds and its output becomes the document of the schema viewer,
    but the hidden-path set still holds [a]. *)
Lemma hidden_paths_survive_query :
  let w := run json_loads_example initial_window
             [LoadFile "data.json" (Some "[1, 2]");
              ToggleVisibility ["a"] false;
              RunQuery ".[0]" (JqExit 0 "1" "")] in
  schema_data w = Some (PInt 1) /\ hidden_paths w = {[ ["a"] ]} /\ hidden_paths w <> ∅.
Proof.
  split; [reflexivity|]. unfold run. cbn [fold_left].
  rewrite !hidden_paths_handle. cbn [hidden_after initial_window hidden_paths]. split.
  - apply leibniz_equiv. set_solver.
  - intros Heq. assert (Hin : ["a"] ∈ (∅ ∪ {[ ["a"] ]} : gset path)) by set_solver.
    rewrite Heq in Hin. set_solver.
Qed.

(** ** Query repair *)

#[local] Arguments String.append !_ _ / : simpl nomatch.

Lemma field_char_not_space (c : ascii) : is_field_char c = true -> is_space c = false.
Proof.
  destruct c as [[] [] [] [] [] [] [] []]; vm_compute; congruence.
Qed.

Lemma field_char_not_dash (c : ascii) : is_field_char c = true -> c <> "-"%char.
Proof.
  destruct c as [[] [] [] [] [] [] [] []]; vm_compute; congruence.
Qed.

Lemma word_is_field_char (c : ascii) : is_word c = true -> is_field_char c = true.
Proof. unfold is_field_char. intros ->. now rewrite orb_true_r. Qed.

Lemma string_forall_app cls (a b : string) :
  string_forall cls (String.append a b) = string_forall cls a && string_forall cls b.
Proof.
  induction a as [|c a IH]; simpl; [reflexivity|]. now rewrite IH, andb_assoc.
Qed.

Lemma string_forall_impl (P Q : ascii -> bool) (s : string) :
  (forall c, P c = true -> Q c = true) ->
  string_forall P s = true -> string_forall Q s = true.
Proof.
  intros HPQ. induction s as [|c s IH]; simpl; [reflexivity|].
  intros [Hc Hs]%andb_prop. rewrite (HPQ c Hc). now apply IH.
Qed.

Lemma append_nil_r (s : string) : String.append s EmptyString = s.
Proof. induction s as [|c s IH]; simpl; [reflexivity|]. now rewrite IH. Qed.

(** *** [span] *)

Lemma span_spec cls (s : string) :
  String.append (fst (span cls s)) (snd (span cls s)) = s /\
  string_forall cls (fst (span cls s)) = true.
Proof.
  induction s as [|c s [IH1 IH2]]; simpl; [now split|].
  destruct (cls c) eqn:Hc; simpl; [|now split].
  destruct (span cls s) as [m r]. simpl in *. rewrite IH1, Hc, IH2. now split.
Qed.

Lemma span_all cls (s : string) :
  string_forall cls s = true -> span cls s = (s, EmptyString).
Proof.
  induction s as [|c s IH]; simpl; [reflexivity|].
  intros [Hc Hs]%andb_prop. now rewrite Hc, (IH Hs).
Qed.

Lemma span_field_rest (s : string) :
  string_forall is_field_char s = true ->
  string_forall is_field_char (snd (span is_word s)) = true.
Proof.
  induction s as [|c s IH]; simpl; [reflexivity|].
  intros [Hc Hs]%andb_prop. destruct (is_word c); simpl.
  - destruct (span is_word s) as [m r]. simpl in *. now apply IH.
  - now rewrite Hc, Hs.
Qed.

(** The group FIELD matches a field text entirely. *)
Lemma match_field_group (F : string) (prev : option ascii) :
  is_field F = true -> match_atoms field_group prev F = Some (F, EmptyString).
Proof.
  destruct F as [|c0 [|c F]]; try discriminate.
  - simpl. destruct c0 as [[] [] [] [] [] [] [] []]; discriminate.
  - intros HF.
    assert (c0 = "."%char) as ->.
    { destruct c0 as [[] [] [] [] [] [] [] []]; try discriminate HF. reflexivity. }
    simpl in HF. apply andb_prop in HF as [Hc HF].
    unfold field_group. cbn [match_atoms]. 
    change (starts_with "." (String "." (String c F))) with true. cbv iota.
    change (string_drop (String.length ".") (String "." (String c F))) with (String c F).
    cbn [span]. rewrite Hc.
    pose proof (span_spec is_word F) as [Happ _].
    pose proof (span_field_rest F HF) as Hrest.
    destruct (span is_word F) as [m r]. simpl in Happ, Hrest.
    rewrite (span_all _ _ Hrest). cbn [match_atoms].
    rewrite !append_nil_r. simpl. now rewrite Happ.
Qed.

(** *** [str.replace] and [in] *)

Lemma prefix_app_l (a b s : string) :
  starts_with (String.append a b) s = true -> starts_with a s = true.
Proof.
  revert s. induction a as [|c a IH]; intros s; simpl; [reflexivity|].
  destruct s as [|c' s]; [discriminate|].
  destruct (Ascii.eqb c c'); [apply IH|discriminate].
Qed.

Lemma prefix_refl (s : string) : starts_with s s = true.
Proof.
  induction s as [|c s IH]; simpl; [reflexivity|].
  now rewrite Ascii.eqb_refl.
Qed.

Lemma is_substring_app_l (a b s : string) :
  is_substring (String.append a b) s = true -> is_substring a s = true.
Proof.
  induction s as [|c s IH]; simpl.
  - destruct (starts_with (String.append a b) "") eqn:Hp; [|discriminate].
    intros _. now rewrite (prefix_app_l _ _ _ Hp).
  - destruct (starts_with (String.append a b) (String c s)) eqn:Hp.
    + intros _. now rewrite (prefix_app_l _ _ _ Hp).
    + intros H. rewrite (IH H). now destruct (starts_with a (String c s)).
Qed.

Lemma is_substring_absent_app (a b s : string) :
  is_substring a s = false -> is_substring (String.append a b) s = false.
Proof.
  intros Ha. destruct (is_substring (String.append a b) s) eqn:Hab; [|reflexivity].
  apply is_substring_app_l in Hab. congruence.
Qed.

(** Replacing a text that does not occur changes nothing. *)
Lemma py_replace_absent (s old new : string) :
  is_substring old s = false -> py_replace s old new = s.
Proof.
  unfold py_replace. induction s as [|c s IH]; simpl; [reflexivity|].
  destruct (starts_with old (String c s)); [discriminate|].
  intros Hs. now rewrite (IH Hs).
Qed.

Lemma replace_from_skip_all (old new s : string) :
  replace_from old new (String.length s) s = EmptyString.
Proof. induction s as [|c s IH]; simpl; [reflexivity|assumption]. Qed.

(** Replacing the whole string. *)
Lemma py_replace_self (s new : string) :
  s <> EmptyString -> py_replace s s new = new.
Proof.
  unfold py_replace. destruct s as [|c s]; [congruence|]. intros _.
  cbn [replace_from]. rewrite prefix_refl.
  cbn [String.length]. rewrite Nat.sub_1_r. cbn [Nat.pred].
  now rewrite replace_from_skip_all, append_nil_r.
Qed.

(** *** Where a pattern can match *)

Lemma match_sort_space (rest : list regex_atom) prev (s : string) :
  sort_space_at s = false ->
  match_atoms (RLit "sort" :: RPlus is_space :: rest) prev s = None.
Proof.
  unfold sort_space_at. cbn [match_atoms].
  destruct (starts_with "sort" s); [|reflexivity]. cbn [andb].
  change (String.length "sort") with 4%nat.
  destruct (string_drop 4 s) as [|c r]; [reflexivity|].
  cbn [span]. intros ->. reflexivity.
Qed.

Lemma search_sort_space (re : regex) (rest : list regex_atom) (s : string) :
  re_before re = RLit "sort" :: RPlus is_space :: rest ->
  sort_space_in s = false ->
  forall prev, search_from re prev s = None.
Proof.
  intros Hre. induction s as [|c s IH]; cbn [sort_space_in search_from];
    intros [Hat Hin]%orb_false_elim prev; unfold match_here;
    rewrite Hre, (match_sort_space rest _ _ Hat); [reflexivity|now apply IH].
Qed.

Ltac ascii_cases :=
  cbn [starts_with string_drop String.append andb];
  repeat match goal with
    | |- context [Ascii.eqb ?a ?b] =>
        destruct (Ascii.eqb_spec a b);
        [try discriminate; subst|]; cbn [andb]; try reflexivity
    end.

(** A field text followed by [tail] holds no "sort" followed by whitespace,
    for the three tails that occur. *)
Lemma no_sort_space_field (F tail : string) :
  tail = ") | reverse" \/ tail = ")" \/ tail = EmptyString ->
  string_forall is_field_char F = true ->
  sort_space_in (String.append F tail) = false.
Proof.
  intros Ht. induction F as [|c1 F IH].
  - intros _. destruct Ht as [->|[->| ->]]; reflexivity.
  - intros [Hc1 HF]%andb_prop. cbn [String.append sort_space_in].
    rewrite (IH HF), orb_false_r. clear IH.
    unfold sort_space_at.
    destruct F as [|c2 [|c3 [|c4 [|c5 F]]]];
      try (destruct Ht as [->|[->| ->]]; ascii_cases; fail).
    cbn [string_forall] in HF.
    apply andb_prop in HF as [_ HF]. apply andb_prop in HF as [_ HF].
    apply andb_prop in HF as [_ HF]. apply andb_prop in HF as [H5 _].
    cbn [starts_with string_drop String.append].
    rewrite (field_char_not_space _ H5). now rewrite !andb_false_r.
Qed.

(** A text made of field characters does not contain "--key=". *)
Lemma no_key_in_field (F : string) :
  string_forall is_field_char F = true -> is_substring "--key=" F = false.
Proof.
  induction F as [|c F IH]; [reflexivity|].
  intros [Hc HF]%andb_prop. cbn [is_substring]. rewrite (IH HF).
  cbn [starts_with]. destruct (Ascii.eqb_spec "-" c) as [<-|]; [|reflexivity].
  now apply field_char_not_dash in Hc.
Qed.

Lemma is_field_chars (F : string) :
  is_field F = true -> string_forall is_field_char F = true.
Proof.
  destruct F as [|c0 [|c F]]; try discriminate.
  - destruct c0 as [[] [] [] [] [] [] [] []]; discriminate.
  - intros HF.
    assert (c0 = "."%char) as ->.
    { destruct c0 as [[] [] [] [] [] [] [] []]; try discriminate HF. reflexivity. }
    simpl in HF. apply andb_prop in HF as [Hc HF].
    cbn [string_forall]. now rewrite (word_is_field_char _ Hc), HF.
Qed.

Lemma match_field_group_inv prev (r g r' : string) :
  match_atoms field_group prev r = Some (g, r') -> is_field g = true.
Proof.
  unfold field_group. cbn [match_atoms].
  destruct r as [|c0 r]; [discriminate|]. cbn [starts_with].
  destruct (Ascii.eqb_spec "." c0) as [<-|]; [|discriminate]. cbn [andb].
  change (string_drop (String.length ".") (String "." r)) with r.
  pose proof (span_spec is_word r) as [_ Hw].
  destruct (span is_word r) as [m r2]. destruct m as [|c m]; [discriminate|].
  pose proof (span_spec is_field_char r2) as [_ Hf].
  destruct (span is_field_char r2) as [m2 r3].
  cbn [fst] in Hw, Hf. cbn [string_forall] in Hw. apply andb_prop in Hw as [Hc Hm].
  intros [= <- _]. cbn [String.append is_field]. rewrite Hc. cbn [andb].
  rewrite !string_forall_app, Hf, andb_true_r.
  apply (string_forall_impl is_word); [apply word_is_field_char|exact Hm].
Qed.

Lemma search_field (re : regex) (s g : string) :
  re_group re = field_group ->
  forall prev, search_from re prev s = Some g -> is_field g = true.
Proof.
  intros Hre.
  assert (Hhere : forall prev s, match_here re prev s = Some g -> is_field g = true).
  { intros prev s'. unfold match_here. rewrite Hre.
    destruct (match_atoms (re_before re) prev s') as [[m r]|]; [|discriminate].
    destruct (match_atoms field_group (string_last prev m) r) as [[g' r']|] eqn:Hg;
      [|discriminate].
    intros [= <-]. eapply match_field_group_inv, Hg. }
  induction s as [|c s IH]; intros prev; cbn [search_from].
  - destruct (match_here re prev "") eqn:Hm; [|discriminate].
    intros [= <-]. eapply Hhere, Hm.
  - destruct (match_here re prev (String c s)) eqn:Hm.
    + intros [= <-]. eapply Hhere, Hm.
    + apply IH.
Qed.

Lemma re_search_none (re : regex) (rest : list regex_atom) (s : string) :
  re_before re = RLit "sort" :: RPlus is_space :: rest ->
  sort_space_in s = false -> re_search re s = None.
Proof. intros Hre Hs. now apply (search_sort_space re rest). Qed.

Lemma search_from_here (re : regex) prev (s g : string) :
  match_here re prev s = Some g -> search_from re prev s = Some g.
Proof. intros Hm. destruct s; cbn [search_from]; now rewrite Hm. Qed.

Lemma search_from_next (re : regex) prev c (s : string) :
  match_here re prev (String c s) = None ->
  search_from re prev (String c s) = search_from re (Some c) s.
Proof. intros Hm. cbn [search_from]. now rewrite Hm. Qed.

Lemma fix_sort_r_key (F : string) :
  is_field F = true ->
  _fix_jq_syntax (String.append "sort -r --key=" F)
  = String.append "sort_by(" (String.append F ") | reverse").
Proof.
  intros HF. unfold _fix_jq_syntax.
  assert (Hsub : is_substring "--key=" (String.append "sort -r --key=" F) = true)
    by reflexivity.
  rewrite Hsub.
  assert (Hre : re_search re_sort_r_key (String.append "sort -r --key=" F) = Some F).
  { unfold re_search. apply search_from_here. unfold match_here.
    assert (Hb : match_atoms (re_before re_sort_r_key) None (String.append "sort -r --key=" F)
                 = Some ("sort -r --key=", F)) by reflexivity.
    rewrite Hb. cbn [re_group re_sort_r_key]. now rewrite match_field_group. }
  rewrite Hre, py_replace_self by discriminate.
  rewrite (re_search_none re_sort_r [RLit "-r"; RBoundary]); [reflexivity..|].
  change (sort_space_in (String.append F ") | reverse") = false).
  apply no_sort_space_field; [now left|now apply is_field_chars].
Qed.

Lemma fix_sort_key (F : string) :
  is_field F = true ->
  _fix_jq_syntax (String.append "sort --key=" F)
  = String.append "sort_by(" (String.append F ")").
Proof.
  intros HF. unfold _fix_jq_syntax.
  assert (Hsub : is_substring "--key=" (String.append "sort --key=" F) = true)
    by reflexivity.
  rewrite Hsub.
  assert (Hre1 : re_search re_sort_r_key (String.append "sort --key=" F) = None).
  { unfold re_search.
    change (String.append "sort --key=" F) with (String "s" (String.append "ort --key=" F)).
    rewrite search_from_next by reflexivity.
    apply (search_sort_space re_sort_r_key [RLit "-r"; RPlus is_space; RLit "--key="]);
      [reflexivity|].
    change (sort_space_in F = false). rewrite <- (append_nil_r F).
    apply no_sort_space_field; [now right; right|now apply is_field_chars]. }
  rewrite Hre1.
  assert (Hre2 : re_search re_sort_key (String.append "sort --key=" F) = Some F).
  { unfold re_search. apply search_from_here. unfold match_here.
    assert (Hb : match_atoms (re_before re_sort_key) None (String.append "sort --key=" F)
                 = Some ("sort --key=", F)) by reflexivity.
    rewrite Hb. cbn [re_group re_sort_key]. now rewrite match_field_group. }
  rewrite Hre2, py_replace_self by discriminate.
  rewrite (re_search_none re_sort_r [RLit "-r"; RBoundary]); [reflexivity..|].
  change (sort_space_in (String.append F ")") = false).
  apply no_sort_space_field; [now right; left|now apply is_field_chars].
Qed.

Lemma is_field_dot (F : string) :
  is_field F = true -> exists c F', F = String "." (String c F').
Proof.
  destruct F as [|c0 [|c F]]; try discriminate.
  - destruct c0 as [[] [] [] [] [] [] [] []]; discriminate.
  - intros HF. exists c, F. f_equal.
    destruct c0 as [[] [] [] [] [] [] [] []]; try discriminate HF. reflexivity.
Qed.

Lemma fix_sort_r_field (F : string) :
  is_field F = true ->
  _fix_jq_syntax (String.append "sort -r " F)
  = String.append "sort_by(" (String.append F ") | reverse").
Proof.
  intros HF. unfold _fix_jq_syntax.
  assert (Hsub : is_substring "--key=" (String.append "sort -r " F) = false).
  { change (is_substring "--key=" F = false).
    now apply no_key_in_field, is_field_chars. }
  rewrite Hsub.
  assert (Hre : re_search re_sort_r (String.append "sort -r " F) = Some EmptyString)
    by reflexivity.
  rewrite Hre. cbn [is_some].
  assert (Hre' : re_search re_sort_r_field (String.append "sort -r " F) = Some F).
  { unfold re_search. apply search_from_here. unfold match_here.
    assert (Hb : match_atoms (re_before re_sort_r_field) None (String.append "sort -r " F)
                 = Some ("sort -r ", F)).
    { destruct (is_field_dot F HF) as (c & F' & ->). reflexivity. }
    rewrite Hb. cbn [re_group re_sort_r_field]. now rewrite match_field_group. }
  rewrite Hre'. now rewrite py_replace_self by discriminate.
Qed.

Lemma fix_unchanged (q : string) :
  is_substring "sort -r" q = false ->
  (forall F, is_field F = true -> is_substring (String.append "sort --key=" F) q = false) ->
  _fix_jq_syntax q = q.
Proof.
  intros Hr Hk. unfold _fix_jq_syntax.
  assert (Hq1 :
    (if is_substring "--key=" q then
       match re_search re_sort_r_key q with
       | Some field =>
           py_replace q (String.append "sort -r --key=" field)
             (String.append "sort_by(" (String.append field ") | reverse"))
       | None =>
           match re_search re_sort_key q with
           | Some field =>
               py_replace q (String.append "sort --key=" field)
                 (String.append "sort_by(" (String.append field ")"))
           | None => q
           end
       end
     else q) = q).
  { destruct (is_substring "--key=" q); [|reflexivity].
    destruct (re_search re_sort_r_key q) as [g|].
    - apply py_replace_absent.
      apply (is_substring_absent_app "sort -r" (String.append " --key=" g)), Hr.
    - destruct (re_search re_sort_key q) as [g|] eqn:Hg; [|reflexivity].
      apply py_replace_absent, Hk.
      now apply (search_field re_sort_key q g eq_refl None). }
  rewrite Hq1.
  destruct (is_some (re_search re_sort_r q)); [|reflexivity].
  destruct (re_search re_sort_r_field q) as [g|].
  - apply py_replace_absent.
    apply (is_substring_absent_app "sort -r" (String.append " " g)), Hr.
  - now apply py_replace_absent.
Qed.

(** The repair inside a pipeline, and with a nested field. *)
Example fix_in_pipeline :
  _fix_jq_syntax ".[] | sort -r --key=.meta.created_at | .[0]"
  = ".[] | sort_by(.meta.created_at) | reverse | .[0]".
Proof. reflexivity. Qed.

(** *** The rewrites inside a longer query *)

Lemma starts_with_app (a b : string) : starts_with a (String.append a b) = true.
Proof.
  induction a as [|c a IH]; [reflexivity|].
  cbn [String.append starts_with]. now rewrite Ascii.eqb_refl.
Qed.

Lemma starts_with_split (p s : string) :
  starts_with p s = true -> s = String.append p (string_drop (String.length p) s).
Proof.
  revert s. induction p as [|a p IH]; intros s; [reflexivity|].
  destruct s as [|b s]; [discriminate|]. cbn [starts_with String.length string_drop String.append].
  destruct (Ascii.eqb_spec a b) as [->|]; [|discriminate]. cbn [andb].
  intros Hp. now rewrite <- (IH s Hp).
Qed.

Lemma append_assoc_s (a b c : string) :
  String.append (String.append a b) c = String.append a (String.append b c).
Proof. induction a as [|x a IH]; cbn [String.append]; [reflexivity|now rewrite IH]. Qed.

Lemma sort_space_in_app_r (a b : string) :
  sort_space_in (String.append a b) = false -> sort_space_in b = false.
Proof.
  induction a as [|c a IH]; cbn [String.append]; [trivial|].
  cbn [sort_space_in]. intros [_ H]%orb_false_elim. now apply IH.
Qed.

(** No "sort" followed by white space begins inside a text that holds none
    and is followed by "sort". *)
Lemma sort_space_at_app (x rest : string) :
  x <> EmptyString -> sort_space_at x = false ->
  sort_space_at (String.append x (String.append "sort" rest)) = false.
Proof.
  intros Hx Hat.
  destruct x as [|c1 [|c2 [|c3 [|c4 [|c5 x]]]]]; [contradiction|..];
    unfold sort_space_at in *;
    cbn [starts_with string_drop String.append] in *;
    try exact Hat;
    repeat match goal with
      | |- context [Ascii.eqb ?a ?b] =>
          destruct (Ascii.eqb_spec a b);
          [try discriminate; subst|]; cbn [andb]; try reflexivity
      end.
Qed.

Lemma sort_space_in_pre (pre rest : string) :
  sort_space_in pre = false ->
  sort_space_in (String.append pre (String.append "sort" rest))
  = sort_space_in (String.append "sort" rest).
Proof.
  induction pre as [|c pre IH]; [reflexivity|].
  intros Hpre. pose proof Hpre as Hpre'.
  cbn [sort_space_in] in Hpre'. apply orb_false_elim in Hpre' as [Hat Hin].
  change (String.append (String c pre) (String.append "sort" rest))
    with (String c (String.append pre (String.append "sort" rest))).
  cbn [sort_space_in].
  change (String c (String.append pre (String.append "sort" rest)))
    with (String.append (String c pre) (String.append "sort" rest)).
  rewrite (sort_space_at_app (String c pre) rest) by (assumption || discriminate).
  cbn [orb]. now apply IH.
Qed.

(** A search passes over a text without "sort" and white space. *)
Lemma search_skip (re : regex) (tl : list regex_atom) (pre rest : string) :
  re_before re = RLit "sort" :: RPlus is_space :: tl ->
  sort_space_in pre = false ->
  forall prev,
    search_from re prev (String.append pre (String.append "sort" rest))
    = search_from re (string_last prev pre) (String.append "sort" rest).
Proof.
  intros Hre. induction pre as [|c pre IH]; intros Hpre prev; [reflexivity|].
  pose proof Hpre as Hpre'.
  cbn [sort_space_in] in Hpre'. apply orb_false_elim in Hpre' as [Hat Hin].
  assert (Hhere : match_here re prev (String.append (String c pre) (String.append "sort" rest))
                  = None).
  { unfold match_here. rewrite Hre.
    rewrite (match_sort_space tl); [reflexivity|].
    apply sort_space_at_app; [discriminate|assumption]. }
  change (String.append (String c pre) (String.append "sort" rest))
    with (String c (String.append pre (String.append "sort" rest))) in *.
  rewrite search_from_next by exact Hhere.
  rewrite (IH Hin). reflexivity.
Qed.

Lemma span_app_stop cls (a b : string) :
  match b with String c _ => cls c = false | EmptyString => True end ->
  span cls (String.append a b)
  = (fst (span cls a), String.append (snd (span cls a)) b).
Proof.
  intros Hb. induction a as [|c a IH].
  - cbn [String.append span fst snd].
    destruct b as [|c b]; [reflexivity|]. cbn [span]. now rewrite Hb.
  - cbn [String.append span]. destruct (cls c); [|reflexivity].
    rewrite IH. now destruct (span cls a).
Qed.

Lemma field_ends_word (post : string) :
  field_ends post = true ->
  match post with String c _ => is_word c = false | EmptyString => True end.
Proof.
  destruct post as [|c post]; [trivial|]. cbn [field_ends].
  intros Hc%negb_true_iff. destruct (is_word c) eqn:Hw; [|reflexivity].
  now rewrite (word_is_field_char c Hw) in Hc.
Qed.

Lemma field_ends_char (post : string) :
  field_ends post = true ->
  match post with String c _ => is_field_char c = false | EmptyString => True end.
Proof.
  destruct post as [|c post]; [trivial|]. cbn [field_ends]. now intros Hc%negb_true_iff.
Qed.

(** The group FIELD takes a field text and stops where the text after it
    begins. *)
Lemma match_field_group_app (F post : string) (prev : option ascii) :
  is_field F = true -> field_ends post = true ->
  match_atoms field_group prev (String.append F post) = Some (F, post).
Proof.
  intros HF Hpost.
  destruct (is_field_dot F HF) as (c & F' & ->).
  cbn [is_field] in HF. apply andb_prop in HF as [Hc HF].
  unfold field_group. cbn [match_atoms String.append].
  change (starts_with "." (String "." (String c (String.append F' post)))) with true.
  cbv iota.
  change (string_drop (String.length ".") (String "." (String c (String.append F' post))))
    with (String.append (String c F') post).
  rewrite (span_app_stop is_word (String c F') post (field_ends_word post Hpost)).
  pose proof (span_spec is_word (String c F')) as [Happ _].
  assert (Hrest : string_forall is_field_char (snd (span is_word (String c F'))) = true).
  { apply span_field_rest. cbn [string_forall]. now rewrite (word_is_field_char c Hc), HF. }
  assert (Hm : fst (span is_word (String c F')) <> EmptyString).
  { cbn [span]. rewrite Hc. now destruct (span is_word F'). }
  destruct (span is_word (String c F')) as [m r]. cbn [fst snd] in *.
  destruct m as [|cm m]; [contradiction|].
  rewrite (span_app_stop is_field_char r post (field_ends_char post Hpost)).
  rewrite (span_all _ _ Hrest). cbn [fst snd match_atoms String.append].
  rewrite !append_nil_r. cbn [String.append] in Happ |- *. now rewrite Happ.
Qed.

(** *** [replace] at the one place where the text occurs *)

Lemma sort_space_of_prefix (x s : string) :
  starts_with (String.append "sort " x) s = true -> sort_space_at s = true.
Proof.
  intros Hs. apply prefix_app_l in Hs. apply starts_with_split in Hs. rewrite Hs. reflexivity.
Qed.

Lemma sort_space_absent (old s : string) :
  (forall s, starts_with old s = true -> sort_space_at s = true) ->
  sort_space_in s = false -> is_substring old s = false.
Proof.
  intros Hold. induction s as [|c s IH]; cbn [sort_space_in is_substring].
  - rewrite orb_false_r. intros Hat.
    destruct (starts_with old "") eqn:Hp; [|reflexivity].
    rewrite (Hold _ Hp) in Hat. discriminate Hat.
  - intros [Hat Hin]%orb_false_elim.
    destruct (starts_with old (String c s)) eqn:Hp; [|now apply IH].
    rewrite (Hold _ Hp) in Hat. discriminate Hat.
Qed.

Lemma replace_from_skip_app (old new a b : string) :
  replace_from old new (String.length a) (String.append a b) = replace_from old new 0 b.
Proof.
  induction a as [|c a IH]; [reflexivity|].
  cbn [String.length String.append replace_from]. exact IH.
Qed.

Lemma replace_at (old new post : string) :
  old <> EmptyString -> is_substring old post = false ->
  py_replace (String.append old post) old new = String.append new post.
Proof.
  intros Hold Hpost. unfold py_replace.
  destruct old as [|c old]; [contradiction|].
  change (String.append (String c old) post) with (String c (String.append old post)).
  cbn [replace_from].
  change (String c (String.append old post)) with (String.append (String c old) post).
  rewrite starts_with_app.
  cbn [String.length]. rewrite Nat.sub_1_r. cbn [Nat.pred].
  rewrite replace_from_skip_app.
  pose proof (py_replace_absent post (String c old) new Hpost) as E.
  unfold py_replace in E. now rewrite E.
Qed.

Lemma replace_skip_pre (old new pre rest : string) :
  (forall s, starts_with old s = true -> sort_space_at s = true) ->
  sort_space_in pre = false ->
  py_replace (String.append pre (String.append "sort" rest)) old new
  = String.append pre (py_replace (String.append "sort" rest) old new).
Proof.
  intros Hold. unfold py_replace. induction pre as [|c pre IH]; [reflexivity|].
  intros Hpre. pose proof Hpre as Hpre'.
  cbn [sort_space_in] in Hpre'. apply orb_false_elim in Hpre' as [Hat Hin].
  assert (Hno : starts_with old (String.append (String c pre) (String.append "sort" rest))
                = false).
  { destruct (starts_with old _) eqn:Hp; [|reflexivity].
    apply Hold in Hp.
    rewrite (sort_space_at_app (String c pre) rest) in Hp by (assumption || discriminate).
    discriminate Hp. }
  change (String.append (String c pre) (String.append "sort" rest))
    with (String c (String.append pre (String.append "sort" rest))) in *.
  cbn [replace_from]. rewrite Hno. rewrite (IH Hin). reflexivity.
Qed.

(** The one occurrence of [old], standing after [pre] and before [post], is
    replaced. *)
Lemma replace_once (lit new pre post : string) :
  sort_space_in pre = false -> sort_space_in post = false ->
  py_replace (String.append pre (String.append (String.append "sort " lit) post))
             (String.append "sort " lit) new
  = String.append pre (String.append new post).
Proof.
  intros Hpre Hpost.
  assert (Hold : forall s, starts_with (String.append "sort " lit) s = true
                           -> sort_space_at s = true)
    by (intros s; apply sort_space_of_prefix).
  change (String.append (String.append "sort " lit) post)
    with (String.append "sort" (String.append (String " " lit) post)).
  rewrite (replace_skip_pre _ _ _ _ Hold Hpre).
  change (String.append "sort" (String.append (String " " lit) post))
    with (String.append (String.append "sort " lit) post).
  rewrite replace_at; [reflexivity|discriminate|].
  now apply sort_space_absent.
Qed.

(** *** The repaired query holds no further "sort" with white space *)

Lemma sort_space_field_tail (F tail post : string) :
  tail = ") | reverse" \/ tail = ")" ->
  string_forall is_field_char F = true ->
  sort_space_in post = false ->
  sort_space_in (String.append F (String.append tail post)) = false.
Proof.
  intros Ht HF Hpost. induction F as [|c1 F IH].
  - destruct Ht as [->| ->]; cbn [String.append sort_space_in]; rewrite Hpost; reflexivity.
  - cbn [string_forall] in HF. apply andb_prop in HF as [Hc1 HF].
    cbn [String.append sort_space_in]. rewrite (IH HF), orb_false_r. clear IH.
    unfold sort_space_at.
    destruct F as [|c2 [|c3 [|c4 [|c5 F]]]];
      try (destruct Ht as [->| ->]; ascii_cases; fail).
    cbn [string_forall] in HF.
    apply andb_prop in HF as [_ HF]. apply andb_prop in HF as [_ HF].
    apply andb_prop in HF as [_ HF]. apply andb_prop in HF as [H5 _].
    cbn [starts_with string_drop String.append].
    rewrite (field_char_not_space _ H5). now rewrite !andb_false_r.
Qed.

Lemma repaired_no_sort_space (pre F tail post : string) :
  tail = ") | reverse" \/ tail = ")" ->
  is_field F = true ->
  sort_space_in pre = false -> sort_space_in post = false ->
  sort_space_in
    (String.append pre (String.append "sort_by(" (String.append F (String.append tail post))))
  = false.
Proof.
  intros Ht HF Hpre Hpost.
  change (String.append "sort_by(" (String.append F (String.append tail post)))
    with (String.append "sort" (String.append "_by(" (String.append F (String.append tail post)))).
  rewrite (sort_space_in_pre pre _ Hpre).
  cbn [String.append sort_space_in].
  rewrite (sort_space_field_tail F tail post Ht (is_field_chars F HF) Hpost).
  reflexivity.
Qed.

Lemma is_substring_here (x s : string) : starts_with x s = true -> is_substring x s = true.
Proof. intros H. destruct s; cbn [is_substring]; now rewrite H. Qed.

Lemma is_substring_intro (x a b : string) :
  is_substring x (String.append a (String.append x b)) = true.
Proof.
  induction a as [|c a IH];
    [change (String.append "" (String.append x b)) with (String.append x b);
     apply is_substring_here, starts_with_app|].
  cbn [String.append is_substring]. rewrite IH. now destruct (starts_with x _).
Qed.

Ltac no_sort_rest H := cbn [String.append sort_space_in]; rewrite H; reflexivity.

(** "sort -r --key=FIELD" inside a query. *)
Lemma fix_sort_r_key_in (pre F post : string) :
  is_field F = true -> field_ends post = true ->
  sort_space_in pre = false -> sort_space_in (String.append F post) = false ->
  _fix_jq_syntax (String.append pre (String.append "sort -r --key=" (String.append F post)))
  = String.append pre
      (String.append "sort_by(" (String.append F (String.append ") | reverse" post))).
Proof.
  intros HF Hends Hpre HFpost.
  pose proof (sort_space_in_app_r _ _ HFpost) as Hpost.
  unfold _fix_jq_syntax.
  set (q := String.append pre (String.append "sort -r --key=" (String.append F post))).
  assert (Hsub : is_substring "--key=" q = true).
  { replace q with (String.append (String.append pre "sort -r ")
                                  (String.append "--key=" (String.append F post)))
      by (rewrite append_assoc_s; reflexivity).
    apply is_substring_intro. }
  rewrite Hsub.
  assert (Hre : re_search re_sort_r_key q = Some F).
  { unfold re_search, q.
    change (String.append "sort -r --key=" (String.append F post))
      with (String.append "sort" (String.append " -r --key=" (String.append F post))).
    rewrite (search_skip re_sort_r_key [RLit "-r"; RPlus is_space; RLit "--key="])
      by (reflexivity || assumption).
    apply search_from_here. unfold match_here.
    assert (Hb : match_atoms (re_before re_sort_r_key) (string_last None pre)
                   (String.append "sort" (String.append " -r --key=" (String.append F post)))
                 = Some ("sort -r --key=", String.append F post)) by reflexivity.
    rewrite Hb. cbn [re_group re_sort_r_key]. now rewrite match_field_group_app. }
  rewrite Hre.
  assert (Hrep : py_replace q (String.append "sort -r --key=" F)
                   (String.append "sort_by(" (String.append F ") | reverse"))
                 = String.append pre
                     (String.append "sort_by("
                        (String.append F (String.append ") | reverse" post)))).
  { unfold q.
    change (String.append "sort -r --key=" (String.append F post))
      with (String.append (String.append "sort " (String.append "-r --key=" F)) post).
    change (String.append "sort -r --key=" F)
      with (String.append "sort " (String.append "-r --key=" F)).
    rewrite replace_once by assumption.
    change (String.append (String.append "sort_by(" (String.append F ") | reverse")) post)
      with (String.append "sort_by(" (String.append (String.append F ") | reverse") post)).
    now rewrite append_assoc_s. }
  rewrite Hrep.
  rewrite (re_search_none re_sort_r [RLit "-r"; RBoundary]); [reflexivity..|].
  apply repaired_no_sort_space; auto.
Qed.

(** "sort --key=FIELD" inside a query. *)
Lemma fix_sort_key_in (pre F post : string) :
  is_field F = true -> field_ends post = true ->
  sort_space_in pre = false -> sort_space_in (String.append F post) = false ->
  _fix_jq_syntax (String.append pre (String.append "sort --key=" (String.append F post)))
  = String.append pre (String.append "sort_by(" (String.append F (String.append ")" post))).
Proof.
  intros HF Hends Hpre HFpost.
  pose proof (sort_space_in_app_r _ _ HFpost) as Hpost.
  unfold _fix_jq_syntax.
  set (q := String.append pre (String.append "sort --key=" (String.append F post))).
  assert (Hsub : is_substring "--key=" q = true).
  { replace q with (String.append (String.append pre "sort ")
                                  (String.append "--key=" (String.append F post)))
      by (rewrite append_assoc_s; reflexivity).
    apply is_substring_intro. }
  rewrite Hsub.
  assert (Hre1 : re_search re_sort_r_key q = None).
  { unfold re_search, q.
    change (String.append "sort --key=" (String.append F post))
      with (String.append "sort" (String.append " --key=" (String.append F post))).
    rewrite (search_skip re_sort_r_key [RLit "-r"; RPlus is_space; RLit "--key="])
      by (reflexivity || assumption).
    change (String.append "sort" (String.append " --key=" (String.append F post)))
      with (String "s" (String.append "ort --key=" (String.append F post))).
    rewrite search_from_next by reflexivity.
    apply (search_sort_space re_sort_r_key [RLit "-r"; RPlus is_space; RLit "--key="]);
      [reflexivity|].
    no_sort_rest HFpost. }
  rewrite Hre1.
  assert (Hre2 : re_search re_sort_key q = Some F).
  { unfold re_search, q.
    change (String.append "sort --key=" (String.append F post))
      with (String.append "sort" (String.append " --key=" (String.append F post))).
    rewrite (search_skip re_sort_key [RLit "--key="]) by (reflexivity || assumption).
    apply search_from_here. unfold match_here.
    assert (Hb : match_atoms (re_before re_sort_key) (string_last None pre)
                   (String.append "sort" (String.append " --key=" (String.append F post)))
                 = Some ("sort --key=", String.append F post)) by reflexivity.
    rewrite Hb. cbn [re_group re_sort_key]. now rewrite match_field_group_app. }
  rewrite Hre2.
  assert (Hrep : py_replace q (String.append "sort --key=" F)
                   (String.append "sort_by(" (String.append F ")"))
                 = String.append pre
                     (String.append "sort_by(" (String.append F (String.append ")" post)))).
  { unfold q.
    change (String.append "sort --key=" (String.append F post))
      with (String.append (String.append "sort " (String.append "--key=" F)) post).
    change (String.append "sort --key=" F)
      with (String.append "sort " (String.append "--key=" F)).
    rewrite replace_once by assumption.
    change (String.append (String.append "sort_by(" (String.append F ")")) post)
      with (String.append "sort_by(" (String.append (String.append F ")") post)).
    now rewrite append_assoc_s. }
  rewrite Hrep.
  rewrite (re_search_none re_sort_r [RLit "-r"; RBoundary]); [reflexivity..|].
  apply repaired_no_sort_space; auto.
Qed.

(** "sort -r FIELD" inside a query. *)
Lemma fix_sort_r_field_in (pre F post : string) :
  is_field F = true -> field_ends post = true ->
  sort_space_in pre = false -> sort_space_in (String.append F post) = false ->
  _fix_jq_syntax (String.append pre (String.append "sort -r " (String.append F post)))
  = String.append pre
      (String.append "sort_by(" (String.append F (String.append ") | reverse" post))).
Proof.
  intros HF Hends Hpre HFpost.
  pose proof (sort_space_in_app_r _ _ HFpost) as Hpost.
  unfold _fix_jq_syntax.
  set (q := String.append pre (String.append "sort -r " (String.append F post))).
  assert (Hq : q = String.append pre
                     (String.append "sort" (String.append " -r " (String.append F post))))
    by reflexivity.
  destruct (is_field_dot F HF) as (c & F' & EF).
  assert (Hre1 : re_search re_sort_r_key q = None).
  { unfold re_search. rewrite Hq.
    rewrite (search_skip re_sort_r_key [RLit "-r"; RPlus is_space; RLit "--key="])
      by (reflexivity || assumption).
    change (String.append "sort" (String.append " -r " (String.append F post)))
      with (String "s" (String.append "ort -r " (String.append F post))).
    rewrite search_from_next by (rewrite EF; reflexivity).
    apply (search_sort_space re_sort_r_key [RLit "-r"; RPlus is_space; RLit "--key="]);
      [reflexivity|].
    no_sort_rest HFpost. }
  assert (Hre2 : re_search re_sort_key q = None).
  { unfold re_search. rewrite Hq.
    rewrite (search_skip re_sort_key [RLit "--key="]) by (reflexivity || assumption).
    change (String.append "sort" (String.append " -r " (String.append F post)))
      with (String "s" (String.append "ort -r " (String.append F post))).
    rewrite search_from_next by reflexivity.
    apply (search_sort_space re_sort_key [RLit "--key="]); [reflexivity|].
    no_sort_rest HFpost. }
  rewrite Hre1, Hre2.
  assert (Hstage1 : (if is_substring "--key=" q then q else q) = q)
    by now destruct (is_substring "--key=" q).
  rewrite Hstage1.
  assert (Hre3 : re_search re_sort_r q = Some EmptyString).
  { unfold re_search. rewrite Hq.
    rewrite (search_skip re_sort_r [RLit "-r"; RBoundary]) by (reflexivity || assumption).
    apply search_from_here. rewrite EF. reflexivity. }
  rewrite Hre3. cbn [is_some].
  assert (Hre4 : re_search re_sort_r_field q = Some F).
  { unfold re_search. rewrite Hq.
    rewrite (search_skip re_sort_r_field [RLit "-r"; RPlus is_space])
      by (reflexivity || assumption).
    apply search_from_here. unfold match_here.
    assert (Hb : match_atoms (re_before re_sort_r_field) (string_last None pre)
                   (String.append "sort" (String.append " -r " (String.append F post)))
                 = Some ("sort -r ", String.append F post))
      by (rewrite EF; reflexivity).
    rewrite Hb. cbn [re_group re_sort_r_field]. now rewrite match_field_group_app. }
  rewrite Hre4. unfold q.
  change (String.append "sort -r " (String.append F post))
    with (String.append (String.append "sort " (String.append "-r " F)) post).
  change (String.append "sort -r " F) with (String.append "sort " (String.append "-r " F)).
  rewrite replace_once by assumption.
  change (String.append (String.append "sort_by(" (String.append F ") | reverse")) post)
    with (String.append "sort_by(" (String.append (String.append F ") | reverse") post)).
  now rewrite append_assoc_s.
Qed.

Lemma span_lstrip (s : string) : snd (span is_space s) = lstrip s.
Proof.
  induction s as [|c s IH]; [reflexivity|].
  cbn [span lstrip]. destruct (is_space c); [|reflexivity].
  destruct (span is_space s). exact IH.
Qed.

(** What the patterns that begin with "sort\s+-r" do at a "sort -r". *)
Lemma match_sort_r_then (atoms : list regex_atom) (prev : option ascii) (post : string) :
  match_atoms (RLit "sort" :: RPlus is_space :: RLit "-r" :: atoms) prev
              (String.append "sort" (String.append " -r" post))
  = match match_atoms atoms (Some "r"%char) post with
    | Some (m, r) => Some (String.append "sort -r" m, r)
    | None => None
    end.
Proof.
  cbn [match_atoms String.append starts_with string_drop String.length span string_last].
  change (Ascii.eqb "s" "s") with true. change (Ascii.eqb "o" "o") with true.
  change (Ascii.eqb "r" "r") with true. change (Ascii.eqb "t" "t") with true.
  change (Ascii.eqb "-" "-") with true.
  change (is_space " ") with true. change (is_space "-") with false.
  cbn [andb match_atoms String.append starts_with string_drop String.length span string_last].
  change (Ascii.eqb "-" "-") with true. change (Ascii.eqb "r" "r") with true.
  cbn [andb match_atoms String.append starts_with string_drop String.length span string_last].
  destruct (match_atoms atoms (Some "r"%char) post) as [[m r]|]; reflexivity.
Qed.

(** A bare "sort -r" inside a query. *)
Lemma fix_sort_r_bare_in (pre post : string) :
  bare_follow post = true ->
  sort_space_in pre = false -> sort_space_in post = false ->
  _fix_jq_syntax (String.append pre (String.append "sort -r" post))
  = String.append pre (String.append "sort | reverse" post).
Proof.
  intros Hbare Hpre Hpost.
  unfold bare_follow in Hbare. apply andb_prop in Hbare as [Hbare Hkey].
  apply andb_prop in Hbare as [Hword Hdot].
  apply negb_true_iff in Hword, Hdot, Hkey.
  unfold _fix_jq_syntax.
  set (q := String.append pre (String.append "sort -r" post)).
  assert (Hq : q = String.append pre (String.append "sort" (String.append " -r" post)))
    by reflexivity.
  assert (Hlater : forall re tl,
             re_before re = RLit "sort" :: RPlus is_space :: tl ->
             search_from re (Some "s"%char) (String.append "ort -r" post) = None).
  { intros re tl Hre. apply (search_sort_space re tl); [exact Hre|]. no_sort_rest Hpost. }
  assert (Hspan : forall r0 : string,
             snd (span is_space post) = r0 -> r0 = lstrip post)
    by (intros r0 <-; apply span_lstrip).
  assert (Hre1 : re_search re_sort_r_key q = None).
  { unfold re_search. rewrite Hq.
    rewrite (search_skip re_sort_r_key [RLit "-r"; RPlus is_space; RLit "--key="])
      by (reflexivity || assumption).
    change (String.append "sort" (String.append " -r" post))
      with (String "s" (String.append "ort -r" post)).
    rewrite search_from_next; [now apply (Hlater _ [RLit "-r"; RPlus is_space; RLit "--key="])|].
    unfold match_here. cbn [re_before re_sort_r_key].
    change (String "s" (String.append "ort -r" post))
      with (String.append "sort" (String.append " -r" post)).
    rewrite match_sort_r_then. cbn [match_atoms].
    pose proof (span_lstrip post) as Hr.
    destruct (span is_space post) as [m r]. cbn [snd] in Hr. subst r.
    destruct m as [|cm m]; [reflexivity|]. now rewrite Hkey. }
  assert (Hre2 : re_search re_sort_key q = None).
  { unfold re_search. rewrite Hq.
    rewrite (search_skip re_sort_key [RLit "--key="]) by (reflexivity || assumption).
    change (String.append "sort" (String.append " -r" post))
      with (String "s" (String.append "ort -r" post)).
    rewrite search_from_next by reflexivity.
    now apply (Hlater _ [RLit "--key="]). }
  rewrite Hre1, Hre2.
  assert (Hstage1 : (if is_substring "--key=" q then q else q) = q)
    by now destruct (is_substring "--key=" q).
  rewrite Hstage1.
  assert (Hre3 : re_search re_sort_r q = Some EmptyString).
  { unfold re_search. rewrite Hq.
    rewrite (search_skip re_sort_r [RLit "-r"; RBoundary]) by (reflexivity || assumption).
    apply search_from_here. unfold match_here. cbn [re_before re_sort_r].
    rewrite match_sort_r_then. cbn [match_atoms is_word_opt].
    change (is_word "r") with true. rewrite Hword. reflexivity. }
  rewrite Hre3. cbn [is_some].
  assert (Hre4 : re_search re_sort_r_field q = None).
  { unfold re_search. rewrite Hq.
    rewrite (search_skip re_sort_r_field [RLit "-r"; RPlus is_space])
      by (reflexivity || assumption).
    change (String.append "sort" (String.append " -r" post))
      with (String "s" (String.append "ort -r" post)).
    rewrite search_from_next; [now apply (Hlater _ [RLit "-r"; RPlus is_space])|].
    unfold match_here. cbn [re_before re_group re_sort_r_field].
    change (String "s" (String.append "ort -r" post))
      with (String.append "sort" (String.append " -r" post)).
    rewrite match_sort_r_then. cbn [match_atoms].
    pose proof (span_lstrip post) as Hr.
    destruct (span is_space post) as [m r]. cbn [snd] in Hr. subst r.
    destruct m as [|cm m]; [reflexivity|].
    unfold field_group. cbn [match_atoms]. now rewrite Hdot. }
  rewrite Hre4. unfold q.
  change (String.append "sort -r" post)
    with (String.append (String.append "sort " "-r") post).
  change "sort -r" with (String.append "sort " "-r").
  now rewrite replace_once by assumption.
Qed.

(** A query that none of the patterns matches is returned as it is. *)
Lemma fix_no_match (q : string) :
  re_search re_sort_r_key q = None ->
  re_search re_sort_key q = None ->
  re_search re_sort_r q = None ->
  _fix_jq_syntax q = q.
Proof.
  intros H1 H2 H3. unfold _fix_jq_syntax. rewrite H1, H2.
  assert (Hstage1 : (if is_substring "--key=" q then q else q) = q)
    by now destruct (is_substring "--key=" q).
  rewrite Hstage1, H3. reflexivity.
Qed.

Lemma fix_no_sort_space (q : string) : sort_space_in q = false -> _fix_jq_syntax q = q.
Proof.
  intros Hq. apply fix_no_match.
  - now apply (re_search_none re_sort_r_key [RLit "-r"; RPlus is_space; RLit "--key="]).
  - now apply (re_search_none re_sort_key [RLit "--key="]).
  - now apply (re_search_none re_sort_r [RLit "-r"; RBoundary]).
Qed.

(** C7 (as the code has it), for queries in ASCII.  [_fix_jq_syntax] turns
    the query "sort -r --key=FIELD" into "sort_by(FIELD) | reverse",
    "sort --key=FIELD" into "sort_by(FIELD)", "sort -r FIELD" into
    "sort_by(FIELD) | reverse" and "sort -r" into "sort | reverse".  It does
    the same to one such text inside a longer query, leaving the text before
    and after it as it is, provided the field ends where the text after it
    begins and no other "sort" followed by white space stands before the
    text or from the field on; for the bare "sort -r" provided what follows
    is not a word character nor, after white space, a dot or "--key=".  A
    query that none of the patterns matches, in particular one without any
    "sort" followed by white space, is returned unchanged; so is a query
    that the patterns match but that spells none of the texts with single
    blanks, since the replacement is of the literal text. *)
Theorem _fix_jq_syntax_rewrites :
  (forall F, is_field F = true ->
     _fix_jq_syntax (String.append "sort -r --key=" F)
     = String.append "sort_by(" (String.append F ") | reverse") /\
     _fix_jq_syntax (String.append "sort --key=" F)
     = String.append "sort_by(" (String.append F ")") /\
     _fix_jq_syntax (String.append "sort -r " F)
     = String.append "sort_by(" (String.append F ") | reverse")) /\
  _fix_jq_syntax "sort -r" = "sort | reverse" /\
  (forall pre F post,
     ascii_text pre = true -> ascii_text post = true ->
     is_field F = true -> field_ends post = true ->
     sort_space_in pre = false -> sort_space_in (String.append F post) = false ->
     _fix_jq_syntax (String.append pre (String.append "sort -r --key=" (String.append F post)))
     = String.append pre
         (String.append "sort_by(" (String.append F (String.append ") | reverse" post))) /\
     _fix_jq_syntax (String.append pre (String.append "sort --key=" (String.append F post)))
     = String.append pre
         (String.append "sort_by(" (String.append F (String.append ")" post))) /\
     _fix_jq_syntax (String.append pre (String.append "sort -r " (String.append F post)))
     = String.append pre
         (String.append "sort_by(" (String.append F (String.append ") | reverse" post)))) /\
  (forall pre post,
     ascii_text pre = true -> ascii_text post = true ->
     bare_follow post = true ->
     sort_space_in pre = false -> sort_space_in post = false ->
     _fix_jq_syntax (String.append pre (String.append "sort -r" post))
     = String.append pre (String.append "sort | reverse" post)) /\
  (forall q,
     ascii_text q = true ->
     re_search re_sort_r_key q = None ->
     re_search re_sort_key q = None ->
     re_search re_sort_r q = None ->
     _fix_jq_syntax q = q) /\
  (forall q, ascii_text q = true -> sort_space_in q = false -> _fix_jq_syntax q = q) /\
  (forall q,
     ascii_text q = true ->
     is_substring "sort -r" q = false ->
     (forall F, is_field F = true -> is_substring (String.append "sort --key=" F) q = false) ->
     _fix_jq_syntax q = q).
Proof.
  split; [|split; [|split; [|split; [|split; [|split]]]]].
  - intros F HF. repeat split.
    + now apply fix_sort_r_key.
    + now apply fix_sort_key.
    + now apply fix_sort_r_field.
  - reflexivity.
  - intros pre F post _ _ HF Hends Hpre HFpost. repeat split.
    + now apply fix_sort_r_key_in.
    + now apply fix_sort_key_in.
    + now apply fix_sort_r_field_in.
  - intros pre post _ _. apply fix_sort_r_bare_in.
  - intros q _. apply fix_no_match.
  - intros q _. apply fix_no_sort_space.
  - intros q _. apply fix_unchanged.
Qed.

Lemma _fix_jq_syntax_rewrites_witness :
  _fix_jq_syntax "sort -r --key=.created_at" = "sort_by(.created_at) | reverse" /\
  _fix_jq_syntax ".[] | sort -r --key=.meta.created_at | .[0]"
  = ".[] | sort_by(.meta.created_at) | reverse | .[0]" /\
  _fix_jq_syntax ".[] | sort_by(.x) | sort --key=.y)" = ".[] | sort_by(.x) | sort_by(.y))" /\
  _fix_jq_syntax "[.[] | sort -r .age] | length" = "[.[] | sort_by(.age) | reverse] | length" /\
  _fix_jq_syntax ".[] | sort -r | .[0]" = ".[] | sort | reverse | .[0]" /\
  _fix_jq_syntax "sort -rx" = "sort -rx" /\
  _fix_jq_syntax ".[] | select(.status > 1) | sort_by(.a)"
  = ".[] | select(.status > 1) | sort_by(.a)" /\
  _fix_jq_syntax "sort  -r --key=.a" = "sort  -r --key=.a".
Proof.
  destruct _fix_jq_syntax_rewrites as (Hexact & _ & Hin & Hbare & Hnone & Hspace & Hlit).
  split; [exact (proj1 (Hexact ".created_at" eq_refl))|].
  split; [exact (proj1 (Hin ".[] | " ".meta.created_at" " | .[0]"
                          eq_refl eq_refl eq_refl eq_refl eq_refl eq_refl))|].
  split; [exact (proj1 (proj2 (Hin ".[] | sort_by(.x) | " ".y" ")"
                                 eq_refl eq_refl eq_refl eq_refl eq_refl eq_refl)))|].
  split; [exact (proj2 (proj2 (Hin "[.[] | " ".age" "] | length"
                                 eq_refl eq_refl eq_refl eq_refl eq_refl eq_refl)))|].
  split; [exact (Hbare ".[] | " " | .[0]" eq_refl eq_refl eq_refl eq_refl eq_refl)|].
  split; [exact (Hnone "sort -rx" eq_refl eq_refl eq_refl eq_refl)|].
  split; [exact (Hspace ".[] | select(.status > 1) | sort_by(.a)" eq_refl eq_refl)|].
  apply Hlit; [reflexivity|reflexivity|].
  intros F _. apply (is_substring_absent_app "sort -" (String.append "-key=" F)).
  reflexivity.
Defined.

(** C7, counterexample.  In a query with two flag-style sorts only the
    texts that spell the first field are rewritten; the second sort is then
    taken for a bare "sort -r", and what comes out is not the query with
    both sorts rewritten. *)
Lemma _fix_jq_syntax_second_sort_mangled :
  _fix_jq_syntax "sort -r --key=.a | sort -r --key=.b"
  = "sort_by(.a) | reverse | sort | reverse --key=.b" /\
  _fix_jq_syntax "sort -r --key=.a | sort -r --key=.b"
  <> "sort_by(.a) | reverse | sort_by(.b) | reverse".
Proof. split; [reflexivity|]. vm_compute. discriminate. Qed.

(** ** Numeric statistics *)

Lemma Qsquare_nonneg (a : Q) : (0 <= a * a)%Q.
Proof.
  destruct (Qlt_le_dec a 0) as [Hneg|Hpos].
  - assert (E : (a * a == (- a) * (- a))%Q) by ring.
    rewrite E. apply Qmult_le_0_compat; lra.
  - now apply Qmult_le_0_compat.
Qed.

Section NumericFacts.
(** A bound on the magnitude of the numbers. *)
Variable B : Q.

Let in_range (x : pyobj) : Prop := (- B <= num_val x <= B)%Q.

Lemma inject_Z_of_nat_succ (n : nat) :
  (inject_Z (Z.of_nat (S n)) == inject_Z (Z.of_nat n) + 1)%Q.
Proof. now rewrite Nat2Z.inj_succ, <- Z.add_1_r, inject_Z_plus. Qed.

Lemma Qsum_bounds (f : pyobj -> Q) (lo hi : Q) (arr : list pyobj) :
  Forall (fun x => (lo <= f x <= hi)%Q) arr ->
  (lo * inject_Z (py_len arr) <= Qsum (map f arr) <= hi * inject_Z (py_len arr))%Q.
Proof.
  unfold py_len. induction 1 as [|x arr [Hlo Hhi] _ [IHlo IHhi]].
  - cbn [map length]. change (inject_Z (Z.of_nat 0)) with 0%Q.
    change (Qsum []) with 0%Q. lra.
  - cbn [map Qsum fold_right length]. rewrite inject_Z_of_nat_succ.
    fold (Qsum (map f arr)). split; nra.
Qed.

Lemma py_len_pos (x : pyobj) (arr : list pyobj) : (0 < inject_Z (py_len (x :: arr)))%Q.
Proof.
  unfold py_len. change 0%Q with (inject_Z 0). rewrite <- Zlt_Qlt.
  cbn [length]. lia.
Qed.

Lemma exact_mean_bounds (x : pyobj) (arr : list pyobj) :
  Forall in_range (x :: arr) -> (- B <= exact_mean (x :: arr) <= B)%Q.
Proof.
  intros Hr. unfold exact_mean.
  destruct (Qsum_bounds num_val (- B) B (x :: arr) Hr) as [Hlo Hhi].
  pose proof (py_len_pos x arr) as Hn. split.
  - now apply Qle_shift_div_l.
  - now apply Qle_shift_div_r.
Qed.

Lemma exact_variance_bounds (x y : pyobj) (arr : list pyobj) :
  Forall in_range (x :: y :: arr) ->
  (0 <= exact_variance (x :: y :: arr) <= 8 * B * B)%Q.
Proof.
  intros Hr. unfold exact_variance.
  pose proof (exact_mean_bounds x (y :: arr) Hr) as Hm.
  set (m := exact_mean (x :: y :: arr)) in *. clearbody m.
  assert (Ht : Forall (fun z => (0 <= (num_val z - m) * (num_val z - m) <= 4 * B * B)%Q)
                      (x :: y :: arr)).
  { eapply Forall_impl; [exact Hr|]. unfold in_range. intros z. cbv beta.
    generalize (num_val z). intros q Hq. split; [apply Qsquare_nonneg|nra]. }
  destruct (Qsum_bounds _ _ _ _ Ht) as [Hlo Hhi].
  set (S := Qsum _) in *. clearbody S.
  assert (Hn : (2 <= inject_Z (py_len (x :: y :: arr)))%Q).
  { unfold py_len. change 2%Q with (inject_Z 2). rewrite <- Zle_Qle. cbn [length]. lia. }
  assert (Hn1 : (inject_Z (py_len (x :: y :: arr) - 1) == inject_Z (py_len (x :: y :: arr)) - 1)%Q).
  { unfold Z.sub. now rewrite inject_Z_plus, inject_Z_opp. }
  set (n := inject_Z (py_len (x :: y :: arr))) in *. clearbody n.
  rewrite Hn1. split.
  - apply Qle_shift_div_l; lra.
  - apply Qle_shift_div_r; [lra|]. nra.
Qed.
End NumericFacts.

Lemma float_of_Q_small (q : Q) :
  (Qabs q < inject_Z float_overflow_bound)%Q ->
  float_of_Q q = Some (PFloat (FRat (Qred q))).
Proof.
  intros Hq. unfold float_of_Q.
  destruct (Qle_bool (inject_Z float_overflow_bound) (Qabs q)) eqn:E; [|reflexivity].
  apply Qle_bool_iff in E. exfalso. apply (Qlt_not_le _ _ Hq E).
Qed.

Lemma stat_convert_some (int_data : bool) (q : Q) :
  (Qabs q < inject_Z float_overflow_bound)%Q ->
  exists m, stat_convert int_data q = Some m /\ (num_val m == q)%Q.
Proof.
  intros Hq. unfold stat_convert.
  destruct (int_data && (Z.pos (Qden (Qred q)) =? 1)) eqn:E.
  - eexists. split; [reflexivity|]. cbn [num_val].
    apply andb_prop in E as [_ E]. apply Z.eqb_eq in E.
    rewrite <- (Qred_correct q) at 2. destruct (Qred q) as [n d]. cbn [Qnum Qden] in *.
    injection E as ->. reflexivity.
  - rewrite float_of_Q_small by now rewrite Qred_correct.
    eexists. split; [reflexivity|]. cbn [num_val]. now rewrite !Qred_correct.
Qed.

Lemma Qabs_in_range (q B : Q) : (- B <= q <= B)%Q -> (Qabs q <= B)%Q.
Proof. intros [Hlo Hhi]. now apply Qabs_Qle_condition. Qed.

Lemma sorted_insert_Forall (P : pyobj -> Prop) (x : pyobj) (l : list pyobj) :
  P x -> Forall P l -> Forall P (sorted_insert x l).
Proof.
  intros Hx. induction 1 as [|y l Hy Hl IH]; simpl; [now repeat constructor|].
  destruct (num_lt y x); repeat constructor; assumption.
Qed.

Lemma py_sorted_Forall (P : pyobj -> Prop) (l : list pyobj) :
  Forall P l -> Forall P (py_sorted l).
Proof.
  unfold py_sorted. induction 1 as [|x l Hx Hl IH]; simpl; [constructor|].
  now apply sorted_insert_Forall.
Qed.

Lemma sorted_insert_length (x : pyobj) (l : list pyobj) :
  length (sorted_insert x l) = S (length l).
Proof.
  induction l as [|y l IH]; simpl; [reflexivity|].
  destruct (num_lt y x); simpl; now rewrite ?IH.
Qed.

Lemma py_sorted_length (l : list pyobj) : length (py_sorted l) = length l.
Proof.
  unfold py_sorted. induction l as [|x l IH]; simpl; [reflexivity|].
  now rewrite sorted_insert_length, IH.
Qed.

Lemma Forall_nth_default (P : pyobj -> Prop) (l : list pyobj) (i : nat) (d : pyobj) :
  Forall P l -> P d -> P (nth i l d).
Proof.
  intros Hl Hd. revert i. induction Hl as [|x l Hx _ IH]; intros [|i]; simpl; auto.
Qed.

Section NumericStats.
Variable B : Q.
Hypothesis B_nonneg : (0 <= B)%Q.
Hypothesis B_small : (B < inject_Z float_overflow_bound)%Q.
Hypothesis B_square_small : (8 * B * B < inject_Z float_overflow_bound)%Q.

Let in_range (x : pyobj) : Prop := (- B <= num_val x <= B)%Q.

Lemma statistics_mean_some (x : pyobj) (arr : list pyobj) :
  Forall in_range (x :: arr) ->
  exists m, statistics_mean (x :: arr) = Some m /\ (num_val m == exact_mean (x :: arr))%Q.
Proof.
  intros Hr. unfold statistics_mean. apply stat_convert_some.
  eapply Qle_lt_trans; [|exact B_small].
  now apply Qabs_in_range, exact_mean_bounds.
Qed.

Lemma py_midpoint_some (a b : pyobj) :
  in_range a -> in_range b -> exists m, py_midpoint a b = Some m.
Proof.
  unfold in_range. intros Ha Hb. unfold py_midpoint.
  destruct (is_int_like a && is_int_like b); [|eauto].
  rewrite float_of_Q_small; [eauto|].
  eapply Qle_lt_trans; [|exact B_small]. apply Qabs_in_range.
  generalize dependent (num_val a). generalize dependent (num_val b). intros qb Hb qa Ha.
  split.
  - apply Qle_shift_div_l; [reflexivity|]. lra.
  - apply Qle_shift_div_r; [reflexivity|]. lra.
Qed.

Lemma statistics_median_some (x : pyobj) (arr : list pyobj) :
  Forall in_range (x :: arr) -> exists m, statistics_median (x :: arr) = Some m.
Proof.
  intros Hr. unfold statistics_median.
  assert (Hs : Forall in_range (py_sorted (x :: arr))) by now apply py_sorted_Forall.
  assert (Hd : in_range PNone) by (unfold in_range; cbn [num_val]; lra).
  rewrite py_sorted_length. cbn [length].
  destruct (Nat.odd (S (length arr))); [eauto|].
  apply py_midpoint_some; now apply Forall_nth_default.
Qed.

Lemma statistics_stdev_some (x y : pyobj) (arr : list pyobj) :
  Forall in_range (x :: y :: arr) -> exists sd, statistics_stdev (x :: y :: arr) = Some sd.
Proof.
  intros Hr. unfold statistics_stdev. cbn [length Nat.ltb Nat.leb].
  rewrite float_of_Q_small; [eauto|].
  eapply Qle_lt_trans; [|exact B_square_small].
  apply Qabs_in_range. destruct (exact_variance_bounds B x y arr Hr) as [H0 H8].
  split; [|assumption]. apply Qle_trans with 0%Q; [|assumption].
  assert (0 <= 8 * B * B)%Q by nra. lra.
Qed.

(** What [_compute_array_stats] records for a uniform numeric array of
    numbers in the range. *)
Lemma compute_array_stats_numeric (rs : list Z -> Z -> list Z) (arr : list pyobj) :
  uniform_numeric arr = true ->
  Forall in_range arr ->
  let stats := _compute_array_stats rs arr in
  dict_get stats "count" = Some (PInt (py_len arr)) /\
  dict_get stats "uniform_type" = Some (PBool true) /\
  dict_get stats "min" = Some (py_min arr) /\
  dict_get stats "max" = Some (py_max arr) /\
  (exists m, dict_get stats "mean" = Some m /\ (num_val m == exact_mean arr)%Q) /\
  dict_has stats "median" = (1 <? py_len arr) /\
  dict_has stats "stdev" = (1 <? py_len arr).
Proof.
  intros Hu Hr. destruct arr as [|x arr]; [discriminate|].
  unfold uniform_numeric in Hu. apply andb_prop in Hu as [Hu1 Hu2].
  unfold _compute_array_stats. cbv zeta. rewrite Hu1, Hu2. cbn [andb].
  unfold numeric_stats.
  destruct (statistics_mean_some x arr Hr) as (m & -> & Hm).
  destruct arr as [|y arr].
  - repeat split; try reflexivity. exists m. now split.
  - assert (Hlen : (1 <? py_len (x :: y :: arr)) = true).
    { apply Z.ltb_lt. unfold py_len. cbn [length]. lia. }
    rewrite Hlen.
    destruct (statistics_median_some x (y :: arr) Hr) as (md & ->).
    destruct (statistics_stdev_some x y arr Hr) as (sd & ->).
    destruct (5 <? py_len (x :: y :: arr));
      [destruct ((0 <? py_len (x :: y :: arr) / 2)
                 && (py_len (x :: y :: arr) / 2 <? py_len (x :: y :: arr)))|];
      (repeat split; try reflexivity; exists m; now split).
Qed.
End NumericStats.

(** [min] and [max] return an element below, respectively above, all others. *)
Lemma py_min_spec (x : pyobj) (arr : list pyobj) :
  In (py_min (x :: arr)) (x :: arr) /\
  forall y, In y (x :: arr) -> (num_val (py_min (x :: arr)) <= num_val y)%Q.
Proof.
  unfold py_min.
  assert (Hgen : forall rest best seen,
             In best seen -> (forall y, In y seen -> (num_val best <= num_val y)%Q) ->
             let r := fold_left (fun best item => if num_lt item best then item else best)
                                rest best in
             In r (seen ++ rest) /\
             forall y, In y (seen ++ rest) -> (num_val r <= num_val y)%Q).
  { induction rest as [|z rest IH]; intros best seen Hin Hle; cbn [fold_left].
    - rewrite app_nil_r. now split.
    - replace (seen ++ z :: rest) with ((seen ++ [z]) ++ rest) by now rewrite <- app_assoc.
      apply IH.
      + destruct (num_lt z best); apply in_or_app; [right; now left|now left].
      + intros y [Hy|[<-|[]]]%in_app_or; unfold num_lt;
          destruct (Qle_bool (num_val best) (num_val z)) eqn:E; cbn [negb].
        * now apply Hle.
        * assert (~ (num_val best <= num_val z)%Q) by (rewrite <- Qle_bool_iff; congruence).
          specialize (Hle y Hy). lra.
        * now apply Qle_bool_iff.
        * lra. }
  apply (Hgen arr x [x]).
  - now left.
  - intros y [<-|[]]. lra.
Qed.

Lemma py_max_spec (x : pyobj) (arr : list pyobj) :
  In (py_max (x :: arr)) (x :: arr) /\
  forall y, In y (x :: arr) -> (num_val y <= num_val (py_max (x :: arr)))%Q.
Proof.
  unfold py_max.
  assert (Hgen : forall rest best seen,
             In best seen -> (forall y, In y seen -> (num_val y <= num_val best)%Q) ->
             let r := fold_left (fun best item => if num_lt best item then item else best)
                                rest best in
             In r (seen ++ rest) /\
             forall y, In y (seen ++ rest) -> (num_val y <= num_val r)%Q).
  { induction rest as [|z rest IH]; intros best seen Hin Hle; cbn [fold_left].
    - rewrite app_nil_r. now split.
    - replace (seen ++ z :: rest) with ((seen ++ [z]) ++ rest) by now rewrite <- app_assoc.
      apply IH.
      + destruct (num_lt best z); apply in_or_app; [right; now left|now left].
      + intros y [Hy|[<-|[]]]%in_app_or; unfold num_lt;
          destruct (Qle_bool (num_val z) (num_val best)) eqn:E; cbn [negb].
        * now apply Hle.
        * assert (~ (num_val z <= num_val best)%Q) by (rewrite <- Qle_bool_iff; congruence).
          specialize (Hle y Hy). lra.
        * now apply Qle_bool_iff.
        * lra. }
  apply (Hgen arr x [x]).
  - now left.
  - intros y [<-|[]]. lra.
Qed.

Lemma stat_bound_small : (inject_Z stat_bound < inject_Z float_overflow_bound)%Q.
Proof. rewrite <- Zlt_Qlt. now vm_compute. Qed.

Lemma stat_bound_square_small :
  (8 * inject_Z stat_bound * inject_Z stat_bound < inject_Z float_overflow_bound)%Q.
Proof. apply Qlt_alt. now vm_compute. Qed.

Lemma stat_bound_nonneg : (0 <= inject_Z stat_bound)%Q.
Proof. change 0%Q with (inject_Z 0). rewrite <- Zle_Qle. now vm_compute. Qed.

Lemma bounded_num_range (arr : list pyobj) :
  forallb bounded_num arr = true ->
  Forall (fun x => (- inject_Z stat_bound <= num_val x <= inject_Z stat_bound)%Q) arr.
Proof.
  intros Hb. apply List.Forall_forall. intros x Hx.
  apply (proj1 (forallb_forall _ _) Hb) in Hx. unfold bounded_num in Hx.
  apply Qle_bool_iff in Hx. now apply Qabs_Qle_condition.
Qed.

(** C5 (as the code has it).  For every non-empty array of uniformly
    numeric elements of magnitude at most 2^500 the statistics contain
    [min], [max] (elements of the array below, respectively above, all
    others) and [mean] (the arithmetic mean); [median] and [stdev] are each
    present exactly when there is more than one element, whatever the
    variance.  For [[1,2,3,4,5]] the statistics are min 1, max 5, mean 3,
    median 3 and the square root of 5/2 (about 1.5811) as stdev; for [[7]]
    they are min, max and mean 7, without [median] and without [stdev]. *)
Theorem numeric_array_stats (rs : list Z -> Z -> list Z) :
  (forall arr : list pyobj,
     uniform_numeric arr = true ->
     forallb bounded_num arr = true ->
     let stats := _compute_array_stats rs arr in
     dict_get stats "min" = Some (py_min arr) /\
     dict_get stats "max" = Some (py_max arr) /\
     In (py_min arr) arr /\ In (py_max arr) arr /\
     (forall y, In y arr ->
        (num_val (py_min arr) <= num_val y <= num_val (py_max arr))%Q) /\
     (exists m, dict_get stats "mean" = Some m /\ (num_val m == exact_mean arr)%Q) /\
     dict_has stats "median" = (1 <? py_len arr) /\
     dict_has stats "stdev" = (1 <? py_len arr)) /\
  (_compute_array_stats rs [PInt 1; PInt 2; PInt 3; PInt 4; PInt 5]
   = [("count", PInt 5); ("uniform_type", PBool true);
      ("min", PInt 1); ("max", PInt 5); ("mean", PInt 3);
      ("median", PInt 3); ("stdev", PFloat (FSqrt (5 # 2)))] /\
   ((15811 # 10000) * (15811 # 10000) <= 5 # 2 <= (15812 # 10000) * (15812 # 10000))%Q) /\
  _compute_array_stats rs [PInt 7]
  = [("count", PInt 1); ("uniform_type", PBool true);
     ("min", PInt 7); ("max", PInt 7); ("mean", PInt 7)].
Proof.
  split; [|split; [split|]].
  - intros arr Hu Hb. cbv zeta.
    destruct (compute_array_stats_numeric (inject_Z stat_bound) stat_bound_nonneg
                stat_bound_small stat_bound_square_small rs arr Hu
                (bounded_num_range arr Hb))
      as (_ & _ & Hmin & Hmax & Hmean & Hmed & Hsd).
    destruct arr as [|x arr]; [discriminate|].
    destruct (py_min_spec x arr) as [Hmin_in Hmin_le].
    destruct (py_max_spec x arr) as [Hmax_in Hmax_le].
    repeat match goal with |- _ /\ _ => split end; try assumption.
    intros y Hy. split; [now apply Hmin_le|now apply Hmax_le].
  - reflexivity.
  - split; apply Qle_alt; now vm_compute.
  - reflexivity.
Qed.

Lemma numeric_array_stats_witness :
  let arr := [PInt 2; PInt 9; PInt 4] in
  let stats := _compute_array_stats sample_first arr in
  dict_get stats "min" = Some (py_min arr) /\
  dict_get stats "max" = Some (py_max arr) /\
  In (py_min arr) arr /\ In (py_max arr) arr /\
  (forall y, In y arr ->
     (num_val (py_min arr) <= num_val y <= num_val (py_max arr))%Q) /\
  (exists m, dict_get stats "mean" = Some m /\ (num_val m == exact_mean arr)%Q) /\
  dict_has stats "median" = (1 <? py_len arr) /\
  dict_has stats "stdev" = (1 <? py_len arr).
Proof.
  apply (proj1 (numeric_array_stats sample_first) [PInt 2; PInt 9; PInt 4]);
    reflexivity.
Defined.

(** C5, counterexample.  The array [[3,3]] has zero variance, yet its
    statistics hold [stdev] (0.0): the key does not depend on the variance
    being non-degenerate.  And the uniformly numeric array [[10^400, 1]] has
    no [mean] (nor [median]): its mean is not an integer and is too large for
    a float, so [statistics.mean] raises and the [try] block is left. *)
Lemma numeric_stats_stdev_and_mean_keys :
  let constant := _compute_array_stats sample_first [PInt 3; PInt 3] in
  let huge := _compute_array_stats sample_first [PInt (10 ^ 400); PInt 1] in
  (exact_variance [PInt 3; PInt 3] == 0)%Q /\
  dict_get constant "stdev" = Some (PFloat (FRat 0)) /\
  uniform_numeric [PInt (10 ^ 400); PInt 1] = true /\
  dict_has huge "min" = true /\
  dict_has huge "mean" = false /\
  dict_has huge "median" = false.
Proof. repeat split; now vm_compute. Qed.

(** ** Booleans are numbers *)

Lemma bools_uniform_numeric (b : bool) (bs : list bool) :
  uniform_numeric (map PBool (b :: bs)) = true.
Proof.
  unfold uniform_numeric. cbn [map type_of].
  assert (H : forall l, forallb (fun item => isinstance item TBool) (map PBool l) = true
                        /\ forallb isinstance_int_float (map PBool l) = true).
  { induction l as [|c l [IH1 IH2]]; [now split|]. cbn [map forallb]. now rewrite IH1, IH2. }
  change (PBool b :: map PBool bs) with (map PBool (b :: bs)).
  destruct (H (b :: bs)) as [-> ->]. reflexivity.
Qed.

Lemma bools_in_range (bs : list bool) :
  Forall (fun x => (- (1) <= num_val x <= 1)%Q) (map PBool bs).
Proof.
  induction bs as [|[] bs IH]; constructor; try assumption; cbn [num_val]; lra.
Qed.

(** The sum of booleans counts the [True]s. *)
Lemma Qsum_bools (bs : list bool) :
  (Qsum (map num_val (map PBool bs))
   == inject_Z (Z.of_nat (count_occ Bool.bool_dec bs true)))%Q.
Proof.
  induction bs as [|b bs IH]; [reflexivity|].
  cbn [map Qsum fold_right count_occ]. fold (Qsum (map num_val (map PBool bs))).
  rewrite IH. destruct b; cbn [num_val].
  - destruct (Bool.bool_dec true true); [|congruence].
    rewrite Nat2Z.inj_succ, <- Z.add_1_r, inject_Z_plus. ring.
  - destruct (Bool.bool_dec false true); [discriminate|]. ring.
Qed.

(** C10.  An array of booleans is summarized as an array of numbers:
    [uniform_type] is true and the numeric branch records [min], [max] and
    [mean] (the share of [True]s, booleans counting as 0 and 1), and
    [median] and [stdev] when there is more than one element.  A boolean
    scalar takes the [int]/[float] branch of [_compute_value_stats], which
    records it under [value]; no value whatever takes the [bool] branch. *)
Theorem booleans_are_numbers (rs : list Z -> Z -> list Z) :
  (forall (b : bool) (bs : list bool),
     let arr := map PBool (b :: bs) in
     let stats := _compute_array_stats rs arr in
     dict_get stats "uniform_type" = Some (PBool true) /\
     dict_get stats "min" = Some (py_min arr) /\
     dict_get stats "max" = Some (py_max arr) /\
     (exists m, dict_get stats "mean" = Some m /\
                (num_val m == inject_Z (Z.of_nat (count_occ Bool.bool_dec (b :: bs) true))
                              / inject_Z (py_len arr))%Q) /\
     dict_has stats "median" = (1 <? py_len arr) /\
     dict_has stats "stdev" = (1 <? py_len arr)) /\
  (forall (b : bool) (key : string) (parent_obj : pyobj),
     value_stats_branch (PBool b) = BranchIntFloat /\
     dict_get (_compute_value_stats key (PBool b) parent_obj) "value" = Some (PBool b)) /\
  (forall value : pyobj, value_stats_branch value <> BranchBool).
Proof.
  split; [|split].
  - intros b bs. cbv zeta. set (arr := map PBool (b :: bs)).
    assert (H1 : (0 <= 1)%Q) by lra.
    assert (H2 : (1 < inject_Z float_overflow_bound)%Q)
      by (change 1%Q with (inject_Z 1); rewrite <- Zlt_Qlt; now vm_compute).
    assert (H3 : (8 * 1 * 1 < inject_Z float_overflow_bound)%Q)
      by (apply Qlt_alt; now vm_compute).
    destruct (compute_array_stats_numeric 1 H1 H2 H3 rs arr
                (bools_uniform_numeric b bs) (bools_in_range (b :: bs)))
      as (_ & Hu & Hmin & Hmax & (m & Hm & Hmv) & Hmed & Hsd).
    repeat match goal with |- _ /\ _ => split end; try assumption.
    exists m. split; [assumption|]. rewrite Hmv. unfold exact_mean, arr.
    now rewrite Qsum_bools.
  - intros b key parent_obj. split; [reflexivity|].
    unfold _compute_value_stats.
    change (value_stats_branch (PBool b)) with BranchIntFloat. cbv iota zeta.
    destruct parent_obj as [| | | | | | |parent]; try reflexivity.
    destruct (truthy (PDict parent) && dict_has parent key); [|reflexivity].
    destruct (dict_get parent key); reflexivity.
  - intros [|b|z|f|s|l|l|d]; discriminate.
Qed.

(** ** String frequencies *)







(** *** Ranking by count *)










Lemma strings_all_str (l : list string) :
  forallb (fun item => isinstance item TStr) (map PStr l) = true.
Proof. induction l as [|s l IH]; simpl; [reflexivity|assumption]. Qed.

(** An array of strings takes the string branch. *)
Lemma compute_array_stats_strings (rs : list Z -> Z -> list Z) (s : string) (ss : list string) :
  _compute_array_stats rs (map PStr (s :: ss))
  = string_stats rs (map PStr (s :: ss))
      [("count", PInt (py_len (map PStr (s :: ss)))); ("uniform_type", PBool true)].
Proof.
  unfold _compute_array_stats. cbn [map type_of]. cbv zeta.
  change (PStr s :: map PStr ss) with (map PStr (s :: ss)).
  rewrite strings_all_str. reflexivity.
Qed.




(** ** Path addressing *)

(** *** The recursion of [_add_schema_item] ends *)

Lemma dict_at_depth (d : dict) (k : string) :
  dict_has d k = true -> (S (pyobj_depth (dict_at d k)) <= pyobj_depth (PDict d))%nat.
Proof.
  unfold dict_at. cbn [pyobj_depth].
  induction d as [|[k' v'] d IH]; cbn [dict_has dict_get fold_right snd]; [discriminate|].
  destruct (String.eqb k' k); intros Hh.
  - lia.
  - specialize (IH Hh). lia.
Qed.

Lemma py_items_depth (props : pyobj) (kv : string * pyobj) :
  In kv (py_items props) -> (S (pyobj_depth (snd kv)) <= pyobj_depth props)%nat.
Proof.
  destruct props as [| | | | | | |d]; cbn [py_items]; try contradiction.
  cbn [pyobj_depth]. induction d as [|kv' d IH]; cbn [fold_right]; [contradiction|].
  intros [->|Hin]; [lia|]. specialize (IH Hin). lia.
Qed.

(** Any fuel from the nesting depth of the schema on gives the same tree:
    [_add_schema_item] is the tree the recursion of the source builds. *)
Lemma add_schema_item_rec_enough (fuel : nat) :
  forall (fuel' : nat) (key : string) (schema : pyobj),
    (pyobj_depth schema <= fuel)%nat -> (pyobj_depth schema <= fuel')%nat ->
    add_schema_item_rec fuel key schema = add_schema_item_rec fuel' key schema.
Proof.
  induction fuel as [|fuel IH]; intros fuel' key schema Hf Hf'.
  - destruct schema; cbn [pyobj_depth] in Hf; try lia; destruct fuel'; reflexivity.
  - destruct schema as [| | | | | | |d]; try (destruct fuel'; reflexivity).
    destruct fuel' as [|fuel']; [cbn [pyobj_depth] in Hf'; lia|].
    cbn [add_schema_item_rec].
    destruct (dict_has d "type"); [|reflexivity].
    assert (Hsub : dict_has d "properties" = true ->
                   map (fun kv => add_schema_item_rec fuel (fst kv) (snd kv))
                       (py_items (dict_at d "properties"))
                   = map (fun kv => add_schema_item_rec fuel' (fst kv) (snd kv))
                         (py_items (dict_at d "properties"))).
    { intros Hp. apply map_ext_in. intros kv Hkv.
      pose proof (dict_at_depth d "properties" Hp).
      pose proof (py_items_depth _ _ Hkv).
      apply IH; lia. }
    destruct (dict_has d "properties"); [now rewrite (Hsub eq_refl)|].
    now rewrite andb_false_r.
Qed.

(** With an object at the root, the path of an attribute resolves to the
    schema node of that attribute, also below an array of objects. *)
Example object_root_path_resolves :
  let doc := PDict [("a", PDict [("b", PList [PDict [("c", PStr "s")]])])] in
  let schema_info := analyze_json sample_first doc in
  let node_b := dict_at (node_properties (dict_at schema_info "a")) "b" in
  let node_c := dict_at (node_properties node_b) "c" in
  In (["[Root]"; "a"; "b"; "elements"; "c"], Some node_c)
     (match update_schema_tree schema_info with
      | Some root => tree_items [] root
      | None => []
      end) /\
  _get_item_path ["[Root]"; "a"; "b"; "elements"; "c"] = ["a"; "b"; "c"] /\
  _get_schema_at_path (PDict schema_info) ["a"; "b"; "c"] = Some node_c.
Proof.
  split; [|split; reflexivity].
  vm_compute. do 4 right. left. reflexivity.
Qed.

(** C2, evaluated where it fails.  For the document [[{"x": 1}]] (an array
    at the root) the tree holds an item for the attribute [x]; its path is
    [["x"]]; [_get_schema_at_path] skips that first segment ("special case
    for root array") and returns the whole root schema instead of the schema
    node of [x]. *)
Theorem root_array_path_misresolved :
  let doc := PList [PDict [("x", PInt 1)]] in
  let schema_info := analyze_json sample_first doc in
  let node_x := dict_at schema_info "x" in
  dict_has schema_info "x" = true /\
  In (["[Root]"; "x"], Some node_x)
     (match update_schema_tree schema_info with
      | Some root => tree_items [] root
      | None => []
      end) /\
  _get_item_path ["[Root]"; "x"] = ["x"] /\
  _get_schema_at_path (PDict schema_info) ["x"] = Some (PDict schema_info) /\
  PDict schema_info <> node_x.
Proof.
  split; [reflexivity|]. split; [|split; [|split]].
  - vm_compute. do 2 right. left. reflexivity.
  - reflexivity.
  - reflexivity.
  - vm_compute. discriminate.
Qed.

(** With an object at the root, a key that is also a field of schema nodes
    is resolved to that field: the path of the attribute [type] of the
    object [a] gives the string "object", not the schema node. *)
Example reserved_key_path_misresolved :
  let doc := PDict [("a", PDict [("type", PInt 5)])] in
  let schema_info := analyze_json sample_first doc in
  _get_item_path ["[Root]"; "a"; "type"] = ["a"; "type"] /\
  _get_schema_at_path (PDict schema_info) ["a"; "type"] = Some (PStr "object").
Proof. split; reflexivity. Qed.

(** * Further properties of the code *)

(** ** Visibility filter: what it removes, what it keeps, how it composes *)

Section FilterEntries.
Variable H : gset path.

(** What an entry of a filtered dictionary is: a key that is not hidden,
    with the filtered value of an entry of the original. *)
Let from_entry (cur : path) (d : dict) (kw : string * pyobj) : Prop :=
  (cur ++ [fst kw] ∉ H) /\
  exists v, In (fst kw, v) d /\ snd kw = _filter_recursive H v (cur ++ [fst kw]).

Lemma filter_entries (cur : path) (d0 d acc : dict) :
  (forall kv, In kv d -> In kv d0) ->
  Forall (from_entry cur d0) acc ->
  Forall (from_entry cur d0)
    (fold_left
       (fun result kv =>
          if decide (cur ++ [fst kv] ∈ H) then result
          else dict_set result (fst kv) (_filter_recursive H (snd kv) (cur ++ [fst kv])))
       d acc).
Proof.
  revert acc. induction d as [|[k v] d IH]; cbn [fold_left]; intros acc Hsub Hacc;
    [assumption|].
  apply IH; [intros kv Hkv; apply Hsub; now right|].
  cbn [fst snd]. destruct (decide (cur ++ [k] ∈ H)); [assumption|].
  apply dict_set_Forall; [assumption|]. split; [assumption|].
  exists v. split; [apply Hsub; now left|reflexivity].
Qed.

Lemma hidden_path_removed (v : pyobj) :
  forall cur p, p <> [] -> cur ++ p ∈ H ->
    has_path (_filter_recursive H v cur) p = false.
Proof.
  induction v as [| | | | |l IH|l IH|d IH] using pyobj_ind;
    intros cur p Hp Hin; destruct p as [|k p]; try congruence; try reflexivity.
  - cbn [_filter_recursive has_path].
    induction IH as [|x l Hx _ IHl]; [reflexivity|].
    cbn [map existsb]. now rewrite (Hx cur (k :: p) Hp Hin), IHl.
  - cbn [_filter_recursive has_path].
    pose proof (filter_entries cur d d [] (fun kv Hkv => Hkv) (List.Forall_nil _)) as Hent.
    apply not_true_is_false. intros Hex. apply existsb_exists in Hex as ([k' w] & Hkw & Hk).
    rewrite List.Forall_forall in Hent. destruct (Hent _ Hkw) as [Hvis (v' & Hv' & Hw)].
    cbn [fst snd] in *. apply andb_prop in Hk as [Hk Hpath].
    apply String.eqb_eq in Hk. subst k'.
    destruct p as [|k2 p].
    + now apply Hvis.
    + rewrite List.Forall_forall in IH. specialize (IH _ Hv'). cbn [snd] in IH.
      rewrite Hw, (IH (cur ++ [k]) (k2 :: p)) in Hpath; [discriminate|congruence|].
      now rewrite <- app_assoc.
Qed.

Lemma filter_keeps_only_paths (v : pyobj) :
  forall cur p, has_path (_filter_recursive H v cur) p = true -> has_path v p = true.
Proof.
  induction v as [| | | | |l IH|l IH|d IH] using pyobj_ind;
    intros cur p; destruct p as [|k p]; try reflexivity; try (intros Hp; exact Hp).
  - cbn [_filter_recursive has_path].
    induction IH as [|x l Hx _ IHl]; [intros Hp; exact Hp|].
    cbn [map existsb]. intros [Hp|Hp]%orb_prop.
    + now rewrite (Hx cur (k :: p) Hp).
    + rewrite (IHl Hp). apply orb_true_r.
  - cbn [_filter_recursive has_path].
    pose proof (filter_entries cur d d [] (fun kv Hkv => Hkv) (List.Forall_nil _)) as Hent.
    intros Hex. apply existsb_exists in Hex as ([k' w] & Hkw & Hk).
    rewrite List.Forall_forall in Hent. destruct (Hent _ Hkw) as [_ (v' & Hv' & Hw)].
    cbn [fst snd] in *. apply andb_prop in Hk as [Hk Hpath].
    apply existsb_exists. exists (k', v'). split; [assumption|]. cbn [fst snd].
    rewrite Hk. cbn [andb]. rewrite List.Forall_forall in IH.
    specialize (IH _ Hv'). cbn [snd] in IH.
    apply (IH (cur ++ [k']) p). now rewrite <- Hw.
Qed.
End FilterEntries.

(** Filtering by [H1] what was filtered by [H2] is filtering by their union. *)
Section FilterUnion.
Variables H1 H2 : gset path.

(** The loop of [_filter_recursive H1] on a dictionary with distinct keys. *)
Let kept1 (cur : path) (acc : dict) : dict :=
  flat_map (fun kw => if decide (cur ++ [fst kw] ∈ H1) then []
                      else [(fst kw, _filter_recursive H1 (snd kw) (cur ++ [fst kw]))]) acc.

Lemma kept1_keys (cur : path) (acc : dict) (k : string) :
  k ∈ dict_keys (kept1 cur acc) -> k ∈ dict_keys acc.
Proof.
  induction acc as [|[k' w] acc IH]; cbn [kept1 flat_map fst snd]; [trivial|].
  fold (kept1 cur acc). cbn [dict_keys map fst].
  destruct (decide (cur ++ [k'] ∈ H1)); cbn [app dict_keys map fst].
  - intros Hk. right. now apply IH.
  - intros [->|Hk]%elem_of_cons; [left|right; now apply IH].
Qed.

Lemma kept1_app (cur : path) (a b : dict) :
  kept1 cur (a ++ b) = kept1 cur a ++ kept1 cur b.
Proof. unfold kept1. apply flat_map_app. Qed.

Lemma filter_loop_distinct (cur : path) (r acc : dict) :
  NoDup (dict_keys (acc ++ r)) ->
  fold_left
    (fun result kv =>
       if decide (cur ++ [fst kv] ∈ H1) then result
       else dict_set result (fst kv) (_filter_recursive H1 (snd kv) (cur ++ [fst kv])))
    r (kept1 cur acc)
  = kept1 cur (acc ++ r).
Proof.
  revert acc. induction r as [|[k w] r IH]; cbn [fold_left]; intros acc Hnd.
  - now rewrite app_nil_r.
  - replace (acc ++ (k, w) :: r) with ((acc ++ [(k, w)]) ++ r) in * by now rewrite <- app_assoc.
    rewrite <- IH by assumption. f_equal. cbn [fst snd].
    rewrite kept1_app.
    assert (Hone : kept1 cur [(k, w)]
                   = if decide (cur ++ [k] ∈ H1) then []
                     else [(k, _filter_recursive H1 w (cur ++ [k]))])
      by (unfold kept1; cbn [flat_map fst snd]; apply app_nil_r).
    rewrite Hone.
    destruct (decide (cur ++ [k] ∈ H1)); [now rewrite app_nil_r|].
    apply dict_set_fresh. intros Hk%kept1_keys.
    unfold dict_keys in Hnd. rewrite !map_app in Hnd.
    apply NoDup_app in Hnd as (Hnd & _ & _). apply NoDup_app in Hnd as (_ & Hdis & _).
    apply (Hdis k Hk). cbn. left.
Qed.

Lemma kept1_set_hidden (cur : path) (acc : dict) (k : string) (w : pyobj) :
  cur ++ [k] ∈ H1 -> kept1 cur (dict_set acc k w) = kept1 cur acc.
Proof.
  intros Hk. induction acc as [|[k' w'] acc IH]; cbn [dict_set kept1 flat_map fst snd].
  - destruct (decide (cur ++ [k] ∈ H1)); [reflexivity|contradiction].
  - fold (kept1 cur acc). destruct (String.eqb_spec k' k) as [->|Hne];
      cbn [kept1 flat_map fst snd].
    + now destruct (decide (cur ++ [k] ∈ H1)).
    + fold (kept1 cur (dict_set acc k w)). now rewrite IH.
Qed.

Lemma kept1_set_visible (cur : path) (acc : dict) (k : string) (w : pyobj) :
  cur ++ [k] ∉ H1 ->
  kept1 cur (dict_set acc k w)
  = dict_set (kept1 cur acc) k (_filter_recursive H1 w (cur ++ [k])).
Proof.
  intros Hk. induction acc as [|[k' w'] acc IH]; cbn [dict_set kept1 flat_map fst snd].
  - destruct (decide (cur ++ [k] ∈ H1)); [contradiction|reflexivity].
  - fold (kept1 cur acc). destruct (String.eqb_spec k' k) as [->|Hne];
      cbn [kept1 flat_map fst snd].
    + destruct (decide (cur ++ [k] ∈ H1)); [contradiction|].
      cbn [app dict_set]. now rewrite String.eqb_refl.
    + fold (kept1 cur (dict_set acc k w)). rewrite IH.
      destruct (decide (cur ++ [k'] ∈ H1)); [reflexivity|].
      cbn [app dict_set]. destruct (String.eqb_spec k' k); [congruence|reflexivity].
Qed.

Lemma filter_loop_union (cur : path) (d acc : dict) :
  Forall (fun kv => forall q,
            _filter_recursive H1 (_filter_recursive H2 (snd kv) q) q
            = _filter_recursive (H1 ∪ H2) (snd kv) q) d ->
  fold_left
    (fun result kv =>
       if decide (cur ++ [fst kv] ∈ H1 ∪ H2) then result
       else dict_set result (fst kv) (_filter_recursive (H1 ∪ H2) (snd kv) (cur ++ [fst kv])))
    d (kept1 cur acc)
  = kept1 cur
      (fold_left
         (fun result kv =>
            if decide (cur ++ [fst kv] ∈ H2) then result
            else dict_set result (fst kv) (_filter_recursive H2 (snd kv) (cur ++ [fst kv])))
         d acc).
Proof.
  intros Hd. revert acc. induction Hd as [|[k v] d Hkv _ IH]; cbn [fold_left fst snd];
    intros acc; [reflexivity|].
  rewrite <- IH. f_equal.
  destruct (decide (cur ++ [k] ∈ H2)) as [Hin2|Hout2].
  - destruct (decide (cur ++ [k] ∈ H1 ∪ H2)) as [|Hout]; [reflexivity|].
    exfalso. apply Hout, elem_of_union. now right.
  - destruct (decide (cur ++ [k] ∈ H1)) as [Hin1|Hout1].
    + rewrite kept1_set_hidden by assumption.
      destruct (decide (cur ++ [k] ∈ H1 ∪ H2)) as [|Hout]; [reflexivity|].
      exfalso. apply Hout, elem_of_union. now left.
    + rewrite kept1_set_visible by assumption. cbn [snd] in Hkv. rewrite Hkv.
      destruct (decide (cur ++ [k] ∈ H1 ∪ H2)) as [Hin|]; [|reflexivity].
      apply elem_of_union in Hin as [Hin|Hin]; contradiction.
Qed.

Lemma filter_loop_NoDup (H : gset path) (cur : path) (d acc : dict) :
  NoDup (dict_keys acc) ->
  NoDup (dict_keys
           (fold_left
              (fun result kv =>
                 if decide (cur ++ [fst kv] ∈ H) then result
                 else dict_set result (fst kv) (_filter_recursive H (snd kv) (cur ++ [fst kv])))
              d acc)).
Proof.
  revert acc. induction d as [|[k v] d IH]; cbn [fold_left fst snd]; intros acc Hnd;
    [assumption|].
  apply IH. destruct (decide (cur ++ [k] ∈ H)); [assumption|now apply dict_set_NoDup].
Qed.

Lemma _filter_recursive_union (v : pyobj) :
  forall cur, _filter_recursive H1 (_filter_recursive H2 v cur) cur
              = _filter_recursive (H1 ∪ H2) v cur.
Proof.
  induction v as [| | | | |l IH|l IH|d IH] using pyobj_ind;
    intros cur; cbn [_filter_recursive]; try reflexivity.
  - f_equal. rewrite map_map.
    induction IH as [|x l Hx _ IHl]; cbn [map]; [reflexivity|].
    now rewrite Hx, IHl.
  - f_equal.
    pose proof (filter_loop_union cur d [] IH) as Hu. cbn [kept1 flat_map] in Hu.
    rewrite Hu.
    pose proof (filter_loop_distinct cur
                  (fold_left
                     (fun result kv =>
                        if decide (cur ++ [fst kv] ∈ H2) then result
                        else dict_set result (fst kv)
                               (_filter_recursive H2 (snd kv) (cur ++ [fst kv])))
                     d []) []) as Hd.
    cbn [kept1 flat_map app] in Hd. apply Hd.
    apply filter_loop_NoDup. constructor.
Qed.
End FilterUnion.

(** X1.  Filtering by [H1] a document already filtered by [H2] gives the
    document filtered by the union of the two sets.  So the order of two
    filters does not matter, and a larger hidden set absorbs a smaller one. *)
Theorem filter_json_by_visibility_union (H1 H2 : gset path) (v : pyobj) :
  filter_json_by_visibility H1 (filter_json_by_visibility H2 v)
  = filter_json_by_visibility (H1 ∪ H2) v.
Proof.
  unfold filter_json_by_visibility.
  destruct (decide (H2 = ∅)) as [->|Hne2].
  - rewrite (right_id_L ∅ (∪) H1). reflexivity.
  - destruct (decide (H1 = ∅)) as [->|Hne1].
    + rewrite (left_id_L ∅ (∪) H2).
      destruct (decide (H2 = ∅)); [contradiction|reflexivity].
    + destruct (decide (H1 ∪ H2 = ∅)) as [He|_].
      * apply empty_union_L in He as [? ?]. contradiction.
      * apply _filter_recursive_union.
Qed.

(** X2.  A path that is hidden leads nowhere in the filtered document: the
    attribute is gone from every object the path reaches, through every
    element of the arrays on the way. *)
Theorem filter_json_by_visibility_hides (H : gset path) (v : pyobj) (p : path) :
  p ∈ H -> p <> [] -> has_path (filter_json_by_visibility H v) p = false.
Proof.
  intros Hin Hp. unfold filter_json_by_visibility.
  destruct (decide (H = ∅)) as [->|_]; [now apply not_elem_of_empty in Hin|].
  now apply hidden_path_removed.
Qed.

Lemma filter_json_by_visibility_hides_witness :
  has_path (filter_json_by_visibility {[ ["items"; "secret"] ]}
              (PDict [("items", PList [PDict [("id", PInt 1); ("secret", PStr "x")];
                                       PDict [("secret", PStr "y")]])]))
           ["items"; "secret"] = false.
Proof.
  apply filter_json_by_visibility_hides; [|discriminate].
  now apply elem_of_singleton.
Defined.

(** X3.  Filtering invents nothing: every path that leads somewhere in the
    filtered document leads somewhere in the original. *)
Theorem filter_json_by_visibility_paths (H : gset path) (v : pyobj) (p : path) :
  has_path (filter_json_by_visibility H v) p = true -> has_path v p = true.
Proof.
  unfold filter_json_by_visibility.
  destruct (decide (H = ∅)); [trivial|]. apply filter_keeps_only_paths.
Qed.

Lemma filter_json_by_visibility_paths_witness :
  has_path (PDict [("a", PDict [("b", PInt 1)]); ("c", PInt 2)]) ["a"; "b"] = true.
Proof.
  apply (filter_json_by_visibility_paths {[ ["c"] ]} _ ["a"; "b"]).
  vm_compute. reflexivity.
Defined.

(** ** Path addressing on documents with an object at the root *)

(** [_get_item_path] keeps the texts that are not structural labels, in the
    order from the top-level item down. *)
Lemma _get_item_path_filter (chain : list string) :
  _get_item_path chain
  = List.filter (fun text => negb (String.eqb text "[Root]")
                             && negb (String.eqb text "elements")) chain.
Proof.
  unfold _get_item_path.
  assert (Hgen : forall l acc,
             fold_left
               (fun path text =>
                  if negb (String.eqb text "[Root]") && negb (String.eqb text "elements")
                  then text :: path else path) (rev l) acc
             = List.filter (fun text => negb (String.eqb text "[Root]")
                                        && negb (String.eqb text "elements")) l ++ acc).
  { induction l as [|a l IH]; intros acc; [reflexivity|].
    cbn [rev List.filter]. rewrite fold_left_app, IH. cbn [fold_left].
    now destruct (negb (String.eqb a "[Root]") && negb (String.eqb a "elements")). }
  now rewrite Hgen, app_nil_r.
Qed.

Lemma _get_item_path_app (a b : list string) :
  _get_item_path (a ++ b) = _get_item_path a ++ _get_item_path b.
Proof. rewrite !_get_item_path_filter. apply List.filter_app. Qed.

Lemma _get_item_path_plain (k : string) : plain_key k = true -> _get_item_path [k] = [k].
Proof.
  rewrite _get_item_path_filter. unfold plain_key, reserved_names. cbn [existsb List.filter].
  destruct (String.eqb k "[Root]"), (String.eqb k "elements"); now cbn.
Qed.

Lemma distinct_NoDup (l : list string) : distinct l = true -> NoDup l.
Proof.
  induction l as [|k l IH]; cbn [distinct]; [constructor|].
  intros [Hk Hl]%andb_prop. constructor; [|now apply IH].
  intros Hin%list_elem_of_In. apply negb_true_iff in Hk.
  assert (existsb (String.eqb k) l = true); [|congruence].
  apply existsb_exists. exists k. split; [assumption|apply String.eqb_refl].
Qed.

(** The schema of an object with distinct keys has one entry per key, in the
    order of the object. *)
Lemma analyze_items_map entry (d : dict) :
  NoDup (dict_keys d) ->
  analyze_items entry d = map (fun kv => (fst kv, entry d (fst kv) (snd kv))) d.
Proof.
  assert (Hgen : forall (obj d acc : dict),
             NoDup (dict_keys (acc ++ d)) ->
             fold_left (fun schema kv => dict_set schema (fst kv) (entry obj (fst kv) (snd kv)))
                       d acc
             = acc ++ map (fun kv => (fst kv, entry obj (fst kv) (snd kv))) d).
  { intros obj. clear d. induction d as [|[k v] d IH]; intros acc Hnd; cbn [fold_left map fst snd].
    - now rewrite app_nil_r.
    - replace (acc ++ (k, v) :: d) with ((acc ++ [(k, v)]) ++ d) in Hnd
        by now rewrite <- app_assoc.
      rewrite dict_set_fresh.
      + rewrite IH.
        * rewrite <- app_assoc. reflexivity.
        * unfold dict_keys in *. rewrite !map_app in *. exact Hnd.
      + unfold dict_keys in Hnd. rewrite !map_app in Hnd.
        apply NoDup_app in Hnd as (Hnd & _ & _). apply NoDup_app in Hnd as (_ & Hdis & _).
        intros Hk. apply (Hdis k Hk). cbn. left. }
  intros Hnd. unfold analyze_items. apply (Hgen d d []). exact Hnd.
Qed.

Lemma dict_get_In (d : dict) (k : string) (v : pyobj) :
  NoDup (dict_keys d) -> In (k, v) d -> dict_get d k = Some v.
Proof.
  induction d as [|[k' v'] d IH]; cbn [dict_get dict_keys map fst]; [contradiction|].
  intros [Hk Hnd]%NoDup_cons [[= -> ->]|Hin].
  - now rewrite String.eqb_refl.
  - destruct (String.eqb_spec k' k) as [->|Hne]; [|now apply IH].
    exfalso. apply Hk. apply list_elem_of_In.
    change (In k (map fst d)). apply in_map_iff. now exists (k, v).
Qed.

(** The items below a schema node, as [_add_schema_item] adds them. *)
Lemma _add_schema_item_eq (key : string) (d : dict) :
  let sub_items props :=
    map (fun kv => _add_schema_item (fst kv) (snd kv)) (py_items props) in
  _add_schema_item key (PDict d)
  = if dict_has d "type" then
      TreeItem key (dict_at d "type") (Some (PDict d))
        (if py_eq_str (dict_at d "type") "object" && dict_has d "properties" then
           sub_items (dict_at d "properties")
         else if py_eq_str (dict_at d "type") "array" && dict_has d "element_type" then
           [TreeItem "elements" (dict_at d "element_type") None
              (if dict_has d "properties" then sub_items (dict_at d "properties") else [])]
         else [])
    else TreeItem key (PStr "dict") (Some (PDict d)) [].
Proof.
  cbv zeta. unfold _add_schema_item at 1.
  remember (pyobj_depth (PDict d)) as fuel eqn:Hfuel.
  destruct fuel as [|fuel]; [cbn [pyobj_depth] in Hfuel; discriminate|].
  cbn [add_schema_item_rec].
  destruct (dict_has d "type"); [|reflexivity].
  assert (Hsub : dict_has d "properties" = true ->
                 map (fun kv => add_schema_item_rec fuel (fst kv) (snd kv))
                     (py_items (dict_at d "properties"))
                 = map (fun kv => _add_schema_item (fst kv) (snd kv))
                       (py_items (dict_at d "properties"))).
  { intros Hp. apply map_ext_in. intros kv Hkv.
    pose proof (dict_at_depth d "properties" Hp).
    pose proof (py_items_depth _ _ Hkv).
    unfold _add_schema_item. apply add_schema_item_rec_enough; lia. }
  destruct (dict_has d "properties"); [now rewrite (Hsub eq_refl)|].
  now rewrite andb_false_r.
Qed.

Lemma plain_key_spec (k : string) :
  plain_key k = true ->
  k <> "[Root]" /\ k <> "elements" /\ k <> "__array_stats" /\ k <> "type"
  /\ k <> "properties" /\ k <> "element_type" /\ k <> "stats".
Proof.
  unfold plain_key, reserved_names. cbn [existsb]. intros Hk.
  repeat split; intros ->; discriminate Hk.
Qed.

Section PathResolution.

Variable rs : list Z -> Z -> list Z.

(** What is shown below the properties of an object [d]: every item with a
    schema node is reached by following its path from those properties. *)
Let items_resolve (d : dict) : Prop :=
  forall anc chain n,
    In (chain, Some n)
       (flat_map (tree_items anc)
          (map (fun kv => _add_schema_item (fst kv) (snd kv))
               (analyze_items (analyze_entry rs) d))) ->
    exists k q node,
      plain_key k = true /\
      dict_get (analyze_items (analyze_entry rs) d) k = Some node /\
      _get_item_path chain = _get_item_path anc ++ k :: q /\
      (forall i, get_schema_loop node i q = Some n) /\
      has_path (PDict d) (k :: q) = true.

Let entry_resolves (v : pyobj) : Prop :=
  forall obj key anc chain n,
    plain_key key = true ->
    In (chain, Some n) (tree_items anc (_add_schema_item key (analyze_entry rs obj key v))) ->
    exists q,
      _get_item_path chain = _get_item_path anc ++ key :: q /\
      (forall i, get_schema_loop (analyze_entry rs obj key v) i q = Some n) /\
      has_path v q = true.

Lemma leaf_resolves (v : pyobj) :
  match v with PDict _ | PList _ => False | _ => True end -> entry_resolves v.
Proof.
  intros Hv obj key anc chain n Hkey Hin.
  assert (Hitem : _add_schema_item key (analyze_entry rs obj key v)
                  = TreeItem key (PStr (type_name (type_of v)))
                             (Some (analyze_entry rs obj key v)) []).
  { destruct v; try contradiction; cbn [analyze_entry]; cbv zeta;
      rewrite _add_schema_item_eq; reflexivity. }
  rewrite Hitem in Hin. cbn [tree_items flat_map] in Hin.
  destruct Hin as [[= <- <-]|[]].
  exists []. split; [|split; [reflexivity|now destruct v]].
  now rewrite _get_item_path_app, (_get_item_path_plain _ Hkey).
Qed.

Lemma items_resolve_of_entries (d : dict) :
  NoDup (dict_keys d) ->
  Forall (fun kv => plain_key (fst kv) = true /\ entry_resolves (snd kv)) d ->
  items_resolve d.
Proof.
  intros Hnd Hall anc chain n Hin.
  pose proof (analyze_items_map (analyze_entry rs) d Hnd) as Hmap.
  rewrite Hmap in Hin. rewrite map_map in Hin. cbn [fst snd] in Hin.
  apply in_flat_map in Hin as (item & Hitem & Hin).
  apply in_map_iff in Hitem as ([k v] & <- & Hkv). cbn [fst snd] in Hin.
  rewrite List.Forall_forall in Hall. destruct (Hall _ Hkv) as [Hk Hres]. cbn [fst snd] in *.
  destruct (Hres d k anc chain n Hk Hin) as (q & Hpath & Hloop & Hhas).
  exists k, q, (analyze_entry rs d k v).
  split; [assumption|]. split; [|split; [assumption|split; [assumption|]]].
  - unfold analyze_items. rewrite analyze_items_get by assumption.
    now rewrite (dict_get_In d k v Hnd Hkv).
  - cbn [has_path]. apply existsb_exists. exists (k, v). split; [assumption|].
    cbn [fst snd]. now rewrite String.eqb_refl, Hhas.
Qed.


Lemma object_resolves (d : dict) : items_resolve d -> entry_resolves (PDict d).
Proof.
  intros Hd obj key anc chain n Hkey Hin.
  cbn [analyze_entry] in *.
  remember (analyze_items (analyze_entry rs) d) as props eqn:Hprops.
  rewrite _add_schema_item_eq in Hin. cbv zeta in Hin.
  change (dict_has [("type", PStr "object"); ("properties", PDict props)] "type") with true in Hin.
  change (dict_at [("type", PStr "object"); ("properties", PDict props)] "type")
    with (PStr "object") in Hin.
  change (dict_has [("type", PStr "object"); ("properties", PDict props)] "properties")
    with true in Hin.
  change (dict_at [("type", PStr "object"); ("properties", PDict props)] "properties")
    with (PDict props) in Hin.
  change (py_eq_str (PStr "object") "object" && true) with true in Hin.
  cbv iota in Hin. cbn [tree_items py_items] in Hin.
  destruct Hin as [[= <- <-]|Hin].
  - exists []. split; [|split; reflexivity].
    now rewrite _get_item_path_app, (_get_item_path_plain _ Hkey).
  - rewrite Hprops in Hin.
    destruct (Hd _ _ _ Hin) as (k & q & node & Hk & Hget & Hpath & Hloop & Hhas).
    rewrite <- Hprops in Hget. exists (k :: q). split; [|split; [|exact Hhas]].
    + rewrite Hpath, _get_item_path_app, (_get_item_path_plain _ Hkey), <- app_assoc.
      reflexivity.
    + intros i. destruct (plain_key_spec k Hk) as (_ & _ & _ & Ht & Hp & _).
      cbn [get_schema_loop py_in dict_has mbind option_bind].
      change (String.eqb "type" "__array_stats") with false.
      change (String.eqb "properties" "__array_stats") with false.
      change (String.eqb "properties" "properties") with true.
      change (String.eqb "type" "properties") with false.
      cbn [orb andb].
      destruct (String.eqb_spec "type" k) as [E|_]; [now subst k|].
      destruct (String.eqb_spec "properties" k) as [E|_]; [now subst k|].
      cbn [orb].
      change (dict_at [("type", PStr "object"); ("properties", PDict props)] "properties")
        with (PDict props).
      cbn [py_in py_getitem]. rewrite dict_has_get, Hget. cbn [is_some]. apply Hloop.
Qed.

Lemma array_resolves (l : list pyobj) :
  match l with PDict d0 :: _ => items_resolve d0 | _ => True end ->
  entry_resolves (PList l).
Proof.
  intros Hl obj key anc chain n Hkey Hin.
  cbn [analyze_entry] in *. cbv zeta in *.
  remember (_compute_array_stats rs l) as stats eqn:Hstats.
  remember (match l with
            | first :: _ =>
                if forallb (fun item => isinstance item (type_of first)) l
                then type_name (type_of first) else "mixed"
            | [] => "mixed"
            end) as et eqn:Het.
  destruct l as [|x l'].
  - rewrite _add_schema_item_eq in Hin. cbn in Hin. destruct Hin as [[= <- <-]|[[=]|[]]].
    exists []. split; [|split; reflexivity].
    now rewrite _get_item_path_app, (_get_item_path_plain _ Hkey).
  - destruct x as [| | | | | | |d0];
      try (rewrite _add_schema_item_eq in Hin; cbn in Hin;
           destruct Hin as [[= <- <-]|[[=]|[]]];
           exists []; split; [|split; reflexivity];
           now rewrite _get_item_path_app, (_get_item_path_plain _ Hkey)).
    remember (analyze_items (analyze_entry rs) d0) as props eqn:Hprops.
    change (dict_set [("type", PStr "array"); ("element_type", PStr et); ("stats", PDict stats)]
                     "properties" (PDict props))
      with [("type", PStr "array"); ("element_type", PStr et); ("stats", PDict stats);
            ("properties", PDict props)] in *.
    rewrite _add_schema_item_eq in Hin. cbv zeta in Hin.
    remember (map (fun kv => _add_schema_item (fst kv) (snd kv)) props) as subs eqn:Hsubs.
    cbn in Hin. rewrite <- Hsubs in Hin.
    destruct Hin as [[= <- <-]|[[=]|Hin]].
    + exists []. split; [|split; reflexivity].
      now rewrite _get_item_path_app, (_get_item_path_plain _ Hkey).
    + rewrite app_nil_r in Hin. rewrite Hsubs, Hprops in Hin.
      destruct (Hl _ _ _ Hin) as (k & q & node & Hk & Hget & Hpath & Hloop & Hhas).
      rewrite <- Hprops in Hget. exists (k :: q).
      split; [|split; [|cbn [has_path existsb] in Hhas |- *; now rewrite Hhas]].
      * rewrite Hpath, !_get_item_path_app, (_get_item_path_plain _ Hkey).
        change (_get_item_path ["elements"]) with (@nil string).
        rewrite app_nil_r, <- app_assoc. reflexivity.
      * intros i.
        destruct (plain_key_spec k Hk) as (_ & _ & _ & Ht & Hp & He & Hs).
        cbn [get_schema_loop py_in dict_has mbind option_bind].
        change (String.eqb "type" "__array_stats") with false.
        change (String.eqb "element_type" "__array_stats") with false.
        change (String.eqb "stats" "__array_stats") with false.
        change (String.eqb "properties" "__array_stats") with false.
        change (String.eqb "properties" "properties") with true.
        change (String.eqb "type" "properties") with false.
        change (String.eqb "element_type" "properties") with false.
        change (String.eqb "stats" "properties") with false.
        cbn [orb andb].
        destruct (String.eqb_spec "type" k) as [E|_]; [now subst k|].
        destruct (String.eqb_spec "element_type" k) as [E|_]; [now subst k|].
        destruct (String.eqb_spec "stats" k) as [E|_]; [now subst k|].
        destruct (String.eqb_spec "properties" k) as [E|_]; [now subst k|].
        cbn [orb].
        change (dict_at [("type", PStr "array"); ("element_type", PStr et);
                         ("stats", PDict stats); ("properties", PDict props)] "properties")
          with (PDict props).
        cbn [py_in py_getitem]. rewrite dict_has_get, Hget. cbn [is_some]. apply Hloop.
Qed.

(** Every entry of a document whose objects have distinct, unreserved keys
    is resolved. *)
Lemma entries_resolve (v : pyobj) :
  plain_keys v = true ->
  entry_resolves v /\ match v with PDict d => items_resolve d | _ => True end.
Proof.
  induction v as [| | | | |l IH|l IH|d IH] using pyobj_ind; intros Hv;
    try (split; [now apply leaf_resolves|exact I]).
  - split; [|exact I]. apply array_resolves.
    destruct l as [|x l']; [exact I|]. destruct x; try exact I.
    cbn [plain_keys forallb] in Hv. apply andb_prop in Hv as [Hx _].
    apply List.Forall_inv in IH. now apply IH.
  - assert (Hd : items_resolve d).
    { cbn [plain_keys] in Hv. apply andb_prop in Hv as [Hnd Hall].
      apply items_resolve_of_entries; [now apply distinct_NoDup|].
      rewrite forallb_forall in Hall. rewrite List.Forall_forall in IH |- *.
      intros kv Hkv. specialize (Hall kv Hkv). apply andb_prop in Hall as [Hk Hp].
      split; [assumption|]. now apply (IH kv Hkv). }
    split; [now apply object_resolves|assumption].
Qed.

End PathResolution.

(** X4.  With an object at the root whose objects, at every depth, have
    distinct keys, none of them a reserved name ([Root], elements,
    __array_stats, type, properties, element_type, stats), every item of
    the schema tree that stands for a schema node is found again from its
    path: [_get_schema_at_path] applied to [_get_item_path] of the item
    returns exactly the node the item shows. *)
Theorem object_root_paths_resolve (rs : list Z -> Z -> list Z) (d : dict)
    (root : tree_item) (chain : list string) (n : pyobj) :
  plain_keys (PDict d) = true ->
  update_schema_tree (analyze_json rs (PDict d)) = Some root ->
  In (chain, Some n) (tree_items [] root) ->
  _get_schema_at_path (PDict (analyze_json rs (PDict d))) (_get_item_path chain) = Some n.
Proof.
  intros Hplain Hroot Hin.
  destruct (entries_resolve rs (PDict d) Hplain) as [_ Hd].
  cbn [plain_keys] in Hplain. apply andb_prop in Hplain as [Hnd Hall].
  apply distinct_NoDup in Hnd.
  change (analyze_json rs (PDict d)) with (analyze_items (analyze_entry rs) d) in *.
  remember (analyze_items (analyze_entry rs) d) as props eqn:Hprops.
  assert (Hstats : dict_has props "__array_stats" = false).
  { rewrite Hprops. unfold analyze_items. rewrite analyze_items_has. cbn [dict_has orb].
    destruct (dict_has d "__array_stats") eqn:Hh; [|reflexivity].
    apply dict_has_In, list_elem_of_In, in_map_iff in Hh as (kv & Hk & Hkv).
    rewrite forallb_forall in Hall. specialize (Hall kv Hkv).
    apply andb_prop in Hall as [Hpk _]. rewrite Hk in Hpk. discriminate Hpk. }
  unfold update_schema_tree in Hroot. rewrite Hstats in Hroot.
  destruct props as [|e props'] eqn:Hp; [discriminate|]. rewrite <- Hp in *.
  injection Hroot as <-. cbn [tree_items app] in Hin.
  destruct Hin as [[=]|Hin].
  destruct (Hd _ _ _ Hin) as (k & q & node & Hk & Hget & Hpath & Hloop & _).
  rewrite Hpath.
  change (_get_item_path ["[Root]"]) with (@nil string). cbn [app].
  unfold _get_schema_at_path. cbn [get_schema_loop py_in mbind option_bind].
  rewrite Hstats. cbn [andb]. rewrite dict_has_get, Hget. cbn [is_some].
  unfold dict_at. rewrite Hget. apply Hloop.
Qed.

Lemma object_root_paths_resolve_witness :
  let doc := [("a", PDict [("b", PList [PDict [("c", PStr "s")]])])] in
  let schema_info := analyze_json sample_first (PDict doc) in
  let node_c := dict_at (node_properties (dict_at (node_properties (dict_at schema_info "a")) "b")) "c" in
  _get_schema_at_path (PDict schema_info)
    (_get_item_path ["[Root]"; "a"; "b"; "elements"; "c"]) = Some node_c.
Proof.
  cbv zeta.
  refine (object_root_paths_resolve sample_first _ _ _ _ _ _ _).
  - reflexivity.
  - vm_compute. reflexivity.
  - vm_compute. do 4 right. left. reflexivity.
Defined.

(** ** The history of the query field *)

Lemma list_index_last {A : Type} (l : list A) (d : A) :
  l <> [] -> list_index l (Z.of_nat (length l) - 1) = Some (List.last l d).
Proof.
  intros Hl. unfold list_index.
  destruct l as [|a l]; [contradiction|].
  assert (Hlen : (0 <=? Z.of_nat (length (a :: l)) - 1) = true)
    by (apply Z.leb_le; cbn [length]; lia).
  rewrite Hlen.
  replace (Z.to_nat (Z.of_nat (length (a :: l)) - 1)) with (length l)
    by (cbn [length]; lia).
  clear Hlen Hl. revert a. induction l as [|b l IH]; intros a; [reflexivity|].
  cbn [length nth_error]. rewrite (IH b). reflexivity.
Qed.

Lemma list_index_in_range {A : Type} (l : list A) (i : Z) :
  0 <= i < Z.of_nat (length l) -> exists x, list_index l i = Some x /\ In x l.
Proof.
  intros Hi. unfold list_index.
  assert (Hle : (0 <=? i) = true) by (apply Z.leb_le; lia). rewrite Hle.
  destruct (nth_error l (Z.to_nat i)) as [x|] eqn:Hx.
  - exists x. split; [reflexivity|]. eapply nth_error_In; eassumption.
  - apply nth_error_None in Hx. lia.
Qed.

Lemma no_repeat_snoc (l : list string) (q : string) :
  no_repeat l = true ->
  match l with [] => True | _ => q <> List.last l "" end ->
  no_repeat (l ++ [q]) = true.
Proof.
  induction l as [|a l IH]; [reflexivity|].
  destruct l as [|b l].
  - intros _ Hq. cbn in Hq |- *. destruct (String.eqb_spec a q); [congruence|reflexivity].
  - intros Hnr Hq. cbn [no_repeat] in Hnr. apply andb_prop in Hnr as [Hab Hnr].
    change (((a :: b :: l) ++ [q])) with (a :: b :: (l ++ [q])).
    cbn [no_repeat]. rewrite Hab. cbn [andb].
    apply (IH Hnr). exact Hq.
Qed.

Lemma no_repeat_skipn (n : nat) (l : list string) :
  no_repeat l = true -> no_repeat (skipn n l) = true.
Proof.
  revert l. induction n as [|n IH]; intros l Hl; [assumption|].
  destruct l as [|a l]; [reflexivity|]. cbn [skipn]. apply IH.
  destruct l as [|b l]; [reflexivity|]. cbn [no_repeat] in Hl.
  now apply andb_prop in Hl as [_ Hl].
Qed.

Lemma add_to_history_ok (w : JqQueryInput) (q : string) :
  (length (history w) <= 50)%nat ->
  Forall (fun q => q <> "") (history w) ->
  no_repeat (history w) = true ->
  let w' := add_to_history w q in
  (length (history w') <= 50)%nat /\
  Forall (fun q => q <> "") (history w') /\
  no_repeat (history w') = true /\
  (length (history w) <= length (history w'))%nat /\
  history_index w' = history_index w /\ text w' = text w /\
  current_input w' = current_input w.
Proof.
  intros Hlen Hne Hnr. cbv zeta. unfold add_to_history.
  destruct (negb (String.eqb q "") &&
            match history w with
            | [] => true
            | _ :: _ => negb (String.eqb q (List.last (history w) ""))
            end) eqn:Hc; [|repeat split; auto].
  apply andb_prop in Hc as [Hq Hlast]. cbn [history history_index text current_input].
  assert (Hq' : q <> "") by (intros ->; discriminate Hq).
  assert (Hne' : Forall (fun q => q <> "") (history w ++ [q])).
  { apply List.Forall_app. split; [assumption|]. constructor; [assumption|constructor]. }
  assert (Hnr' : no_repeat (history w ++ [q]) = true).
  { apply no_repeat_snoc; [assumption|].
    destruct (history w) as [|a h]; [exact I|].
    intros E. rewrite <- E, String.eqb_refl in Hlast. discriminate Hlast. }
  rewrite length_app. cbn [length].
  destruct (Nat.ltb_spec 50 (length (history w) + 1)) as [Hgt|Hle].
  - rewrite length_skipn, length_app. cbn [length].
    repeat split; try lia.
    + rewrite List.Forall_forall in Hne' |- *. intros x Hx. apply Hne'.
      rewrite <- (firstn_skipn (length (history w) + 1 - 50) (history w ++ [q])).
      apply in_or_app. now right.
    + now apply no_repeat_skipn.
  - rewrite length_app. cbn [length]. repeat split; try lia; assumption.
Qed.

Lemma navigate_history_ok (w : JqQueryInput) (direction : Z) :
  exists w', navigate_history w direction = Some w' /\
             history w' = history w /\
             (history w <> [] -> -1 <= history_index w' < Z.of_nat (length (history w))) /\
             (history w = [] -> w' = w).
Proof.
  unfold navigate_history.
  destruct (history w) as [|a h] eqn:Hh.
  - exists w. repeat split; congruence.
  - rewrite <- Hh.
    set (len := Z.of_nat (length (history w))).
    set (raw := history_index w + direction).
    assert (Hlen : 0 < len) by (subst len; rewrite Hh; cbn [length]; lia).
    set (new_index := if len <=? raw then len - 1 else if raw <? -1 then -1 else raw).
    assert (Hrange : -1 <= new_index < len).
    { subst new_index. destruct (Z.leb_spec len raw); [lia|].
      destruct (Z.ltb_spec raw (-1)); lia. }
    destruct (Z.eqb_spec new_index (-1)) as [E|E].
    + eexists. split; [reflexivity|]. cbn [history history_index].
      repeat split; try lia. intros; congruence.
    + destruct (list_index_in_range (history w) (len - 1 - new_index)) as (x & Hx & _);
        [fold len; lia|].
      rewrite Hx. eexists. split; [reflexivity|]. cbn [history history_index].
      repeat split; try lia. intros; congruence.
Qed.

Lemma keyPressEvent_ok (w : JqQueryInput) (k : key) :
  history_ok w -> exists w', keyPressEvent w k = Some w' /\ history_ok w'.
Proof.
  intros (Hlen & Hne & Hnr & Hidx).
  assert (Hret : exists w', keyPressEvent w Key_Return = Some w' /\ history_ok w').
  { cbn [keyPressEvent]. eexists. split; [reflexivity|].
    unfold history_ok. cbn [history history_index].
    destruct (match history w with
              | [] => negb (String.eqb (py_strip (text w)) "")
              | _ :: _ => negb (String.eqb (py_strip (text w)) (List.last (history w) ""))
              end).
    - destruct (add_to_history_ok w (py_strip (text w)) Hlen Hne Hnr)
        as (H1 & H2 & H3 & H4 & _).
      repeat split; try assumption; lia.
    - repeat split; try assumption; lia. }
  destruct k; try exact Hret.
  - destruct (navigate_history_ok w 1) as (w' & Hw' & Hh & Hi & Hnil).
    exists w'. split; [exact Hw'|].
    destruct (history w) as [|a h] eqn:Hw.
    + rewrite (Hnil eq_refl). unfold history_ok. rewrite Hw.
      repeat split; try assumption; apply Hidx.
    + unfold history_ok. rewrite Hh. repeat split; try assumption; apply Hi; discriminate.
  - destruct (navigate_history_ok w (-1)) as (w' & Hw' & Hh & Hi & Hnil).
    exists w'. split; [exact Hw'|].
    destruct (history w) as [|a h] eqn:Hw.
    + rewrite (Hnil eq_refl). unfold history_ok. rewrite Hw.
      repeat split; try assumption; apply Hidx.
    + unfold history_ok. rewrite Hh. repeat split; try assumption; apply Hi; discriminate.
  - eexists. split; [reflexivity|]. repeat split; try assumption; apply Hidx.
  - eexists. split; [reflexivity|]. repeat split; try assumption; apply Hidx.
Qed.

(** X5.  Whatever keys are pressed in a fresh query field, no key press
    raises, and afterwards the history holds at most 50 queries, none of
    them empty, no query twice in a row, and the history index lies between
    -1 (the typed text) and the index of the oldest query. *)
Theorem press_keys_history (keys : list key) :
  exists w, press_keys new_JqQueryInput keys = Some w /\
    (length (history w) <= 50)%nat /\
    Forall (fun q => q <> "") (history w) /\
    no_repeat (history w) = true /\
    -1 <= history_index w < Z.of_nat (length (history w)).
Proof.
  assert (Hgen : forall keys w, history_ok w ->
                   exists w', press_keys w keys = Some w' /\ history_ok w').
  { clear keys. induction keys as [|k keys IH]; intros w Hw.
    - exists w. split; [reflexivity|assumption].
    - destruct (keyPressEvent_ok w k Hw) as (w1 & Hk & Hw1).
      destruct (IH w1 Hw1) as (w' & Hp & Hw').
      exists w'. split; [|assumption]. cbn [press_keys]. rewrite Hk. exact Hp. }
  apply Hgen. unfold history_ok. cbn. repeat split; try lia. constructor.
Qed.

Lemma press_keys_app (w : JqQueryInput) (a b : list key) :
  press_keys w (a ++ b) = w' ← press_keys w a; press_keys w' b.
Proof.
  revert w. induction a as [|k a IH]; intros w; [reflexivity|].
  cbn [app press_keys]. destruct (keyPressEvent w k) as [w1|]; [apply IH|reflexivity].
Qed.

Lemma navigate_history_step (w : JqQueryInput) (direction : Z) :
  history w <> [] ->
  exists w', navigate_history w direction = Some w' /\
             history w' = history w /\
             saved_input w' = saved_input w /\
             history_index w'
             = Z.max (-1) (Z.min (Z.of_nat (length (history w)) - 1)
                                 (history_index w + direction)).
Proof.
  intros Hne. unfold navigate_history.
  destruct (history w) as [|a h] eqn:Hh; [contradiction|]. rewrite <- Hh.
  set (len := Z.of_nat (length (history w))).
  set (raw := history_index w + direction).
  assert (Hlen : 0 < len) by (subst len; rewrite Hh; cbn [length]; lia).
  set (new_index := if len <=? raw then len - 1 else if raw <? -1 then -1 else raw).
  assert (Hnew : new_index = Z.max (-1) (Z.min (len - 1) raw)).
  { subst new_index. destruct (Z.leb_spec len raw); [lia|].
    destruct (Z.ltb_spec raw (-1)); lia. }
  fold (saved_input w).
  destruct (Z.eqb_spec new_index (-1)) as [E|E].
  - eexists. split; [reflexivity|]. unfold saved_input at 2.
    cbn [history history_index text current_input].
    rewrite E. cbn. repeat split. lia.
  - destruct (list_index_in_range (history w) (len - 1 - new_index)) as (x & Hx & _);
      [fold len; lia|].
    rewrite Hx. eexists. split; [reflexivity|]. unfold saved_input at 2.
    cbn [history history_index text current_input mbind option_bind].
    destruct (Z.eqb_spec new_index (-1)); [contradiction|]. repeat split. exact Hnew.
Qed.

Lemma press_repeat_nav (k : key) (direction : Z) (j : nat) (w : JqQueryInput) :
  (forall w, keyPressEvent w k = navigate_history w direction) ->
  (direction = 1 \/ direction = -1) ->
  history w <> [] ->
  -1 <= history_index w < Z.of_nat (length (history w)) ->
  exists w', press_keys w (repeat k j) = Some w' /\
             history w' = history w /\
             saved_input w' = saved_input w /\
             history_index w'
             = Z.max (-1) (Z.min (Z.of_nat (length (history w)) - 1)
                                 (history_index w + direction * Z.of_nat j)).
Proof.
  intros Hk Hdir. revert w. induction j as [|j IH]; intros w Hne Hidx.
  - exists w. cbn [repeat press_keys]. repeat split. lia.
  - destruct (navigate_history_step w direction Hne) as (w1 & Hnav & Hh & Hs & Hi).
    assert (Hne1 : history w1 <> []) by now rewrite Hh.
    assert (Hidx1 : -1 <= history_index w1 < Z.of_nat (length (history w1))).
    { rewrite Hh, Hi. destruct (history w); [contradiction|]. cbn [length]. lia. }
    destruct (IH w1 Hne1 Hidx1) as (w' & Hp & Hh' & Hs' & Hi').
    exists w'. cbn [repeat press_keys]. rewrite Hk, Hnav. cbn [mbind option_bind].
    split; [exact Hp|]. split; [congruence|]. split; [congruence|].
    rewrite Hi', Hh, Hi. destruct Hdir as [-> | ->]; lia.
Qed.

(** X6.  From a field that is not browsing its history, pressing Up any
    number of times and then Down the same number of times brings back the
    text that was in the field, with the history unchanged and the field
    again not browsing. *)
Theorem up_down_restores_text (w : JqQueryInput) (k : nat) :
  history_index w = -1 ->
  exists w', press_keys w (repeat Key_Up k ++ repeat Key_Down k) = Some w' /\
             text w' = text w /\ history_index w' = -1 /\ history w' = history w.
Proof.
  intros Hidx. rewrite press_keys_app.
  destruct (history w) as [|a h] eqn:Hh.
  - assert (Hnav : forall keys, Forall (fun k => k = Key_Up \/ k = Key_Down) keys ->
                                press_keys w keys = Some w).
    { induction keys as [|k' keys IH]; intros Hall; [reflexivity|].
      apply List.Forall_cons_iff in Hall as [Hk' Hall]. cbn [press_keys].
      assert (E : keyPressEvent w k' = Some w).
      { destruct Hk' as [-> | ->]; cbn [keyPressEvent]; unfold navigate_history;
          now rewrite Hh. }
      rewrite E. cbn [mbind option_bind]. now apply IH. }
    rewrite Hnav by (apply List.Forall_forall; intros x Hx%repeat_spec; now left).
    cbn [mbind option_bind].
    rewrite Hnav by (apply List.Forall_forall; intros x Hx%repeat_spec; now right).
    exists w. rewrite Hh. repeat split; assumption.
  - assert (Hne : history w <> []) by (rewrite Hh; discriminate).
    assert (Hrange : -1 <= history_index w < Z.of_nat (length (history w)))
      by (rewrite Hidx, Hh; cbn [length]; lia).
    destruct (press_repeat_nav Key_Up 1 k w (fun _ => eq_refl) (or_introl eq_refl) Hne Hrange)
      as (w1 & Hp1 & Hh1 & Hs1 & Hi1).
    rewrite Hp1. cbn [mbind option_bind].
    assert (Hne1 : history w1 <> []) by now rewrite Hh1.
    assert (Hrange1 : -1 <= history_index w1 < Z.of_nat (length (history w1)))
      by (rewrite Hh1, Hi1; lia).
    destruct (press_repeat_nav Key_Down (-1) k w1 (fun _ => eq_refl) (or_intror eq_refl)
                Hne1 Hrange1) as (w2 & Hp2 & Hh2 & Hs2 & Hi2).
    exists w2. split; [exact Hp2|].
    assert (Hfinal : history_index w2 = -1) by (rewrite Hi2, Hh1, Hi1; lia).
    split; [|split; [exact Hfinal|rewrite <- Hh; congruence]].
    assert (Hs : saved_input w2 = saved_input w) by congruence.
    unfold saved_input in Hs. rewrite Hfinal, Hidx in Hs. exact Hs.
Qed.

Lemma up_down_restores_text_witness :
  let w := {| history := [".a"; ".b"]; history_index := -1; current_input := "";
              text := ".c | le" |} in
  exists w', press_keys w (repeat Key_Up 3 ++ repeat Key_Down 3) = Some w' /\
             text w' = ".c | le" /\ history_index w' = -1 /\ history w' = [".a"; ".b"].
Proof.
  cbv zeta.
  exact (up_down_restores_text
           {| history := [".a"; ".b"]; history_index := -1; current_input := "";
              text := ".c | le" |} 3 eq_refl).
Defined.

Lemma last_skipn {A : Type} (n : nat) (l : list A) (d : A) :
  (n < length l)%nat -> List.last (skipn n l) d = List.last l d.
Proof.
  revert l. induction n as [|n IH]; intros l Hn; [reflexivity|].
  destruct l as [|a l]; [cbn [length] in Hn; lia|].
  cbn [skipn]. rewrite IH by (cbn [length] in Hn; lia).
  destruct l as [|b l]; [cbn [length] in Hn; lia|reflexivity].
Qed.

(** X7.  Pressing Return on a query that is not blank and then Up shows
    that query, stripped of surrounding white space: the query just run is
    the most recent entry of the history, whatever the history held. *)
Theorem return_then_up_recalls (w : JqQueryInput) :
  py_strip (text w) <> "" ->
  exists w', press_keys w [Key_Return; Key_Up] = Some w' /\
             text w' = py_strip (text w) /\
             List.last (history w') "" = py_strip (text w) /\
             history_index w' = 0.
Proof.
  intros Hq. set (q := py_strip (text w)) in *.
  cbn [press_keys keyPressEvent mbind option_bind]. fold q.
  set (w0 := if match history w with
                | [] => negb (String.eqb q "")
                | _ :: _ => negb (String.eqb q (List.last (history w) ""))
                end
             then add_to_history w q else w).
  assert (Hlast : history w0 <> [] /\ List.last (history w0) "" = q).
  { subst w0. assert (Hqe : String.eqb q "" = false) by now apply String.eqb_neq.
    destruct (history w) as [|a h] eqn:Hh.
    - rewrite Hqe. cbn [negb]. unfold add_to_history. rewrite Hh, Hqe. cbn.
      split; [discriminate|reflexivity].
    - cbv beta iota.
      destruct (String.eqb q (List.last (a :: h) "")) eqn:E; cbn [negb].
      + apply String.eqb_eq in E. rewrite Hh. split; [discriminate|now symmetry].
      + unfold add_to_history. rewrite Hh, Hqe, E.
        cbn [negb andb history].
        assert (Hl : List.last ((a :: h) ++ [q]) "" = q) by apply last_last.
        destruct (Nat.ltb_spec 50 (length ((a :: h) ++ [q]))) as [Hgt|Hle].
        * split.
          -- intros E0. apply (f_equal (@length string)) in E0.
             rewrite length_skipn in E0. cbn [length] in E0. lia.
          -- rewrite last_skipn by lia. exact Hl.
        * split; [discriminate|exact Hl]. }
  destruct Hlast as [Hne Hlast].
  unfold navigate_history. cbn [history history_index text current_input].
  destruct (history w0) as [|a h] eqn:Hh; [contradiction|]. rewrite <- Hh in Hlast |- *.
  change (-1 =? -1) with true. cbv iota. change (-1 + 1) with 0.
  assert (Hlen : 0 < Z.of_nat (length (history w0))) by (rewrite Hh; cbn [length]; lia).
  destruct (Z.leb_spec (Z.of_nat (length (history w0))) 0) as [Hc|_]; [lia|].
  change (0 <? -1) with false. change (0 =? -1) with false. cbv iota.
  replace (Z.of_nat (length (history w0)) - 1 - 0) with (Z.of_nat (length (history w0)) - 1)
    by lia.
  rewrite (list_index_last (history w0) "") by (rewrite Hh; discriminate).
  cbn [mbind option_bind]. eexists. split; [reflexivity|].
  cbn [text history history_index]. rewrite Hlast. repeat split.
Qed.

Lemma return_then_up_recalls_witness :
  let w := {| history := [".a"; ".b"]; history_index := 1; current_input := "x";
              text := "  .c | length " |} in
  exists w', press_keys w [Key_Return; Key_Up] = Some w' /\
             text w' = ".c | length" /\
             List.last (history w') "" = ".c | length" /\
             history_index w' = 0.
Proof.
  cbv zeta.
  refine (return_then_up_recalls
           {| history := [".a"; ".b"]; history_index := 1; current_input := "x";
              text := "  .c | length " |} _).
  vm_compute. discriminate.
Defined.

(** ** The document of the window *)

Section WindowDocument.

Variable json_loads : string -> option pyobj.

(** With a file loaded, the parsed document is the parse of the content
    read from it; without one, there is neither. *)
Let document_ok (w : window) : Prop :=
  match current_json_file w with
  | Some _ =>
      exists text v, json_content w = Some text /\ json_loads text = Some v
                     /\ parsed_json w = Some v
  | None => json_content w = None /\ parsed_json w = None
  end.

Lemma handle_document_ok (w : window) (e : event) :
  document_ok w -> document_ok (handle json_loads w e).
Proof.
  unfold document_ok. intros Hw.
  destruct e as [p vis|file content|query jq]; cbn [handle].
  - exact Hw.
  - unfold load_json_file. destruct content as [text|]; [|now split].
    destruct (json_loads text) as [v|] eqn:Hv; [|now split].
    cbn [current_json_file json_content parsed_json]. now exists text, v.
  - unfold run_jq_query. destruct (current_json_file w) as [file|] eqn:Hf;
      [|now rewrite Hf].
    destruct (String.eqb file ""); [now rewrite Hf|].
    assert (Hw' : exists text v, json_content w = Some text /\ json_loads text = Some v
                                 /\ parsed_json w = Some v) by exact Hw.
    clear Hw.
    destruct (String.eqb (py_strip query) "").
    + unfold reset_to_original_json.
      destruct Hw' as (text & v & Hc & Hl & Hp). rewrite Hc.
      destruct (negb (String.eqb text "")); [|rewrite Hf; now exists text, v].
      rewrite Hl. cbn [current_json_file json_content parsed_json].
      try rewrite Hf. now exists text, v.
    + destruct jq as [|rc out err]; [now rewrite Hf|].
      destruct (rc =? 0); [destruct (json_loads out)|];
        cbn [current_json_file json_content parsed_json]; try rewrite Hf; exact Hw'.
Qed.

Lemma run_document_ok (events : list event) (w : window) :
  document_ok w -> document_ok (run json_loads w events).
Proof.
  unfold run. revert w. induction events as [|e events IH]; intros w Hw; [exact Hw|].
  cbn [fold_left]. apply IH. now apply handle_document_ok.
Qed.

End WindowDocument.

(** X8.  Whatever the window is made to do from its start, the document it
    holds belongs to the file it holds: while a file is loaded, its content
    is kept, that content parses, and the parsed document is the parse of
    that content (no query and no visibility toggle replaces it); while no
    file is loaded there is neither content nor a parsed document. *)
Theorem window_document_run (json_loads : string -> option pyobj) (events : list event) :
  let w := run json_loads initial_window events in
  match current_json_file w with
  | Some _ =>
      exists text v, json_content w = Some text /\ json_loads text = Some v
                     /\ parsed_json w = Some v
  | None => json_content w = None /\ parsed_json w = None
  end.
Proof.
  cbv zeta. apply (run_document_ok json_loads events initial_window).
  cbn. now split.
Qed.

(** X9.  Running a blank query undoes every earlier query in the view:
    after any events, with a file loaded, the JSON view shows the parsed
    document of that file, filtered by the current hidden paths.  Nothing
    else changes; in particular the schema panel keeps the data of the last
    successful query. *)
Theorem blank_query_shows_document (json_loads : string -> option pyobj)
    (events : list event) (query : string) (jq : jq_result) (file : string) :
  json_loads "" = None ->
  py_strip query = "" ->
  let w := run json_loads initial_window events in
  current_json_file w = Some file ->
  file <> "" ->
  exists v,
    parsed_json w = Some v /\
    run_jq_query json_loads w query jq
    = {| current_json_file := current_json_file w; json_content := json_content w;
         parsed_json := parsed_json w; hidden_paths := hidden_paths w;
         json_viewer := Some (ShownJson (filter_json_by_visibility (hidden_paths w) v));
         schema_data := schema_data w |}.
Proof.
  intros Hempty Hq w Hf Hfile.
  pose proof (run_document_ok json_loads events initial_window (conj eq_refl eq_refl)) as Hdoc.
  fold w in Hdoc. cbv beta in Hdoc. rewrite Hf in Hdoc.
  destruct Hdoc as (text & v & Hc & Hl & Hp).
  exists v. split; [exact Hp|].
  unfold run_jq_query. rewrite Hf.
  destruct (String.eqb_spec file ""); [contradiction|].
  rewrite Hq. cbn [String.eqb]. unfold reset_to_original_json. rewrite Hc.
  destruct (String.eqb_spec text "") as [->|_]; [congruence|]. cbn [negb].
  rewrite Hl, Hp, Hf. reflexivity.
Qed.

Lemma blank_query_shows_document_witness :
  let events := [LoadFile "a.json" (Some "[1, 2]");
                 RunQuery ".[0]" (JqExit 0 "1" "")] in
  let w := run json_loads_example initial_window events in
  exists v,
    parsed_json w = Some v /\
    run_jq_query json_loads_example w "  " JqRaised
    = {| current_json_file := current_json_file w; json_content := json_content w;
         parsed_json := parsed_json w; hidden_paths := hidden_paths w;
         json_viewer := Some (ShownJson (filter_json_by_visibility (hidden_paths w) v));
         schema_data := schema_data w |}.
Proof.
  cbv zeta.
  refine (blank_query_shows_document json_loads_example
            [LoadFile "a.json" (Some "[1, 2]"); RunQuery ".[0]" (JqExit 0 "1" "")]
            "  " JqRaised "a.json" _ _ _ _).
  - reflexivity.
  - reflexivity.
  - reflexivity.
  - discriminate.
Defined.

(** X10.  Hiding an attribute and showing it again is a round trip.  With a
    non-empty document loaded and a path that is not hidden: after the
    toggle that hides it, the JSON view shows a document in which the path
    cannot be followed any more and every path that can be followed exists
    in the loaded document; after the toggle that shows it again, the
    hidden-path set and the view are what they were for the set before. *)
Theorem hide_then_show (w : window) (p : path) (v : pyobj) :
  parsed_json w = Some v ->
  truthy v = true ->
  p ∉ hidden_paths w ->
  p <> [] ->
  let hidden := toggle_attribute_visibility w p false in
  let back := toggle_attribute_visibility hidden p true in
  (exists view, json_viewer hidden = Some (ShownJson view) /\
                has_path view p = false /\
                forall q, has_path view q = true -> has_path v q = true) /\
  hidden_paths back = hidden_paths w /\
  json_viewer back = Some (ShownJson (filter_json_by_visibility (hidden_paths w) v)) /\
  parsed_json back = Some v.
Proof.
  intros Hv Ht Hp Hne. cbv zeta.
  unfold toggle_attribute_visibility.
  cbn [parsed_json hidden_paths json_viewer]. rewrite Hv, Ht.
  assert (Hin : p ∈ hidden_paths w ∪ {[p]})
    by (apply elem_of_union; right; now apply elem_of_singleton).
  assert (Hback : (hidden_paths w ∪ {[p]}) ∖ {[p]} = hidden_paths w).
  { apply set_eq. intros x.
    rewrite elem_of_difference, elem_of_union, elem_of_singleton. split.
    - intros [[Hx|Hx] Hxp]; [assumption|contradiction].
    - intros Hx. split; [now left|]. intros ->. contradiction. }
  rewrite Hback. split; [|repeat split].
  eexists. split; [reflexivity|].
  unfold filter_json_by_visibility.
  destruct (decide (hidden_paths w ∪ {[p]} = ∅)) as [E|_];
    [rewrite E in Hin; now apply not_elem_of_empty in Hin|].
  split.
  - apply hidden_path_removed; [assumption|]. exact Hin.
  - intros q. apply filter_keeps_only_paths.
Qed.

Lemma hide_then_show_witness :
  let v := PDict [("a", PInt 1); ("b", PList [PDict [("c", PInt 2)]])] in
  let w := {| current_json_file := Some "f.json"; json_content := Some "text";
              parsed_json := Some v; hidden_paths := {[ ["a"] ]};
              json_viewer := None; schema_data := None |} in
  let hidden := toggle_attribute_visibility w ["b"; "c"] false in
  let back := toggle_attribute_visibility hidden ["b"; "c"] true in
  (exists view, json_viewer hidden = Some (ShownJson view) /\
                has_path view ["b"; "c"] = false /\
                forall q, has_path view q = true -> has_path v q = true) /\
  hidden_paths back = hidden_paths w /\
  json_viewer back = Some (ShownJson (filter_json_by_visibility (hidden_paths w) v)) /\
  parsed_json back = Some v.
Proof.
  cbv zeta.
  refine (hide_then_show
            {| current_json_file := Some "f.json"; json_content := Some "text";
               parsed_json := Some (PDict [("a", PInt 1); ("b", PList [PDict [("c", PInt 2)]])]);
               hidden_paths := {[ ["a"] ]};
               json_viewer := None; schema_data := None |}
            ["b"; "c"] _ _ _ _ _).
  - reflexivity.
  - reflexivity.
  - cbn [hidden_paths]. intros Hin%elem_of_singleton. discriminate Hin.
  - discriminate.
Defined.

(** ** Median, mean and standard deviation of a numeric array *)

Lemma exact_mean_between (lo hi : Q) (x : pyobj) (arr : list pyobj) :
  Forall (fun y => (lo <= num_val y <= hi)%Q) (x :: arr) ->
  (lo <= exact_mean (x :: arr) <= hi)%Q.
Proof.
  intros Hr. unfold exact_mean.
  destruct (Qsum_bounds num_val lo hi (x :: arr) Hr) as [Hlo Hhi].
  pose proof (py_len_pos x arr) as Hn. split.
  - now apply Qle_shift_div_l.
  - now apply Qle_shift_div_r.
Qed.

Section NumericValues.
Variable B : Q.
Hypothesis B_nonneg : (0 <= B)%Q.
Hypothesis B_small : (B < inject_Z float_overflow_bound)%Q.
Hypothesis B_square_small : (8 * B * B < inject_Z float_overflow_bound)%Q.

Lemma compute_array_stats_numeric_values (rs : list Z -> Z -> list Z)
    (x y : pyobj) (arr : list pyobj) :
  uniform_numeric (x :: y :: arr) = true ->
  Forall (fun z => (- B <= num_val z <= B)%Q) (x :: y :: arr) ->
  let stats := _compute_array_stats rs (x :: y :: arr) in
  exists m md sd,
    statistics_mean (x :: y :: arr) = Some m /\
    (num_val m == exact_mean (x :: y :: arr))%Q /\
    statistics_median (x :: y :: arr) = Some md /\
    statistics_stdev (x :: y :: arr) = Some sd /\
    dict_get stats "mean" = Some m /\
    dict_get stats "median" = Some md /\
    dict_get stats "stdev" = Some sd.
Proof.
  intros Hu Hr. cbv zeta.
  unfold uniform_numeric in Hu. apply andb_prop in Hu as [Hu1 Hu2].
  unfold _compute_array_stats. cbv zeta. rewrite Hu1, Hu2. cbn [andb].
  unfold numeric_stats.
  destruct (statistics_mean_some B B_small x (y :: arr) Hr) as (m & Hm & Hmv).
  destruct (statistics_median_some B B_nonneg B_small x (y :: arr) Hr) as (md & Hmd).
  destruct (statistics_stdev_some B B_square_small x y arr Hr) as (sd & Hsd).
  exists m, md, sd. rewrite Hm, Hmd, Hsd.
  assert (Hlen : (1 <? py_len (x :: y :: arr)) = true).
  { apply Z.ltb_lt. unfold py_len. cbn [length]. lia. }
  rewrite Hlen.
  destruct (5 <? py_len (x :: y :: arr));
    [destruct ((0 <? py_len (x :: y :: arr) / 2)
               && (py_len (x :: y :: arr) / 2 <? py_len (x :: y :: arr)))|];
    repeat split; try reflexivity; assumption.
Qed.
End NumericValues.

Lemma sorted_insert_perm (x : pyobj) (l : list pyobj) :
  Permutation (sorted_insert x l) (x :: l).
Proof.
  induction l as [|y l IH]; cbn [sorted_insert]; [reflexivity|].
  destruct (num_lt y x); [|reflexivity].
  rewrite IH. apply perm_swap.
Qed.

Lemma py_sorted_perm (l : list pyobj) : Permutation (py_sorted l) l.
Proof.
  unfold py_sorted. induction l as [|x l IH]; cbn [fold_right]; [reflexivity|].
  rewrite sorted_insert_perm. now constructor.
Qed.

Lemma num_lt_true (a b : pyobj) : num_lt a b = true -> (num_val a <= num_val b)%Q.
Proof.
  unfold num_lt. intros H%negb_true_iff.
  apply Qlt_le_weak, Qnot_le_lt. intros Hle. apply Qle_bool_iff in Hle. congruence.
Qed.

Lemma num_lt_false (a b : pyobj) : num_lt a b = false -> (num_val b <= num_val a)%Q.
Proof. unfold num_lt. intros H%negb_false_iff. now apply Qle_bool_iff. Qed.

Lemma sorted_insert_sorted (x : pyobj) (l : list pyobj) :
  StronglySorted (fun a b => (num_val a <= num_val b)%Q) l ->
  StronglySorted (fun a b => (num_val a <= num_val b)%Q) (sorted_insert x l).
Proof.
  induction 1 as [|y l Hl IH Hy]; cbn [sorted_insert].
  - repeat constructor.
  - destruct (num_lt y x) eqn:Hlt.
    + constructor; [exact IH|].
      apply (sorted_insert_Forall (fun b => (num_val y <= num_val b)%Q));
        [now apply num_lt_true|exact Hy].
    + apply num_lt_false in Hlt. constructor; [now constructor|].
      constructor; [exact Hlt|].
      eapply List.Forall_impl; [|exact Hy]. intros b Hb. cbv beta in *.
      eapply Qle_trans; eassumption.
Qed.

Lemma py_sorted_sorted (l : list pyobj) :
  StronglySorted (fun a b => (num_val a <= num_val b)%Q) (py_sorted l).
Proof.
  unfold py_sorted. induction l as [|x l IH]; cbn [fold_right]; [constructor|].
  now apply sorted_insert_sorted.
Qed.

(** X11.  For an array of two or more uniformly numeric elements of
    magnitude at most 2^500: the recorded median is taken from the array
    sorted in ascending order, for an odd number of elements the middle
    element itself (an element of the array, between the recorded minimum
    and maximum), for an even number the value of [(a + b) / 2] for the two
    middle elements; a mean that is recorded as an integer is the exact
    mean and lies between the recorded minimum and maximum; and the standard
    deviation is the square root of the sample variance. *)
Theorem numeric_median_and_mean (rs : list Z -> Z -> list Z) (arr : list pyobj) :
  uniform_numeric arr = true ->
  forallb bounded_num arr = true ->
  1 < py_len arr ->
  let stats := _compute_array_stats rs arr in
  let n := length arr in
  exists sorted,
    Permutation sorted arr /\
    StronglySorted (fun a b => (num_val a <= num_val b)%Q) sorted /\
    (Nat.odd n = true ->
     let middle := nth (n / 2) sorted PNone in
     dict_get stats "median" = Some middle /\ In middle arr /\
     (num_val (py_min arr) <= num_val middle <= num_val (py_max arr))%Q) /\
    (Nat.odd n = false ->
     exists median,
       py_midpoint (nth (n / 2 - 1) sorted PNone) (nth (n / 2) sorted PNone) = Some median /\
       dict_get stats "median" = Some median) /\
    (forall z, dict_get stats "mean" = Some (PInt z) ->
       (inject_Z z == exact_mean arr)%Q /\
       (num_val (py_min arr) <= inject_Z z <= num_val (py_max arr))%Q) /\
    dict_get stats "stdev" = Some (PFloat (py_sqrt (exact_variance arr))) /\
    (0 <= exact_variance arr)%Q.
Proof.
  intros Hu Hb Hlen. cbv zeta.
  destruct arr as [|x [|y arr]]; [discriminate| |].
  { unfold py_len in Hlen. cbn [length] in Hlen. lia. }
  pose proof (bounded_num_range _ Hb) as Hr.
  destruct (compute_array_stats_numeric_values (inject_Z stat_bound) stat_bound_nonneg
              stat_bound_small stat_bound_square_small rs x y arr Hu Hr)
    as (m & md & sd & Hm & Hmv & Hmd & Hsd & Hgm & Hgmd & Hgsd).
  destruct (py_min_spec x (y :: arr)) as [_ Hmin].
  destruct (py_max_spec x (y :: arr)) as [_ Hmax].
  assert (Hbetween : Forall (fun z => (num_val (py_min (x :: y :: arr)) <= num_val z
                                       <= num_val (py_max (x :: y :: arr)))%Q)
                            (x :: y :: arr)).
  { apply List.Forall_forall. intros z Hz. split; [now apply Hmin|now apply Hmax]. }
  destruct (exact_variance_bounds (inject_Z stat_bound) x y arr Hr) as [Hvar _].
  set (l := x :: y :: arr) in *.
  exists (py_sorted l).
  split; [apply py_sorted_perm|]. split; [apply py_sorted_sorted|].
  unfold statistics_median in Hmd. cbv zeta in Hmd. rewrite py_sorted_length in Hmd.
  assert (Hn : length l = S (S (length arr))) by reflexivity.
  assert (Hhalf : (length l / 2 < length l)%nat) by (apply Nat.div_lt; lia).
  split; [|split; [|split; [|split]]].
  - intros Hodd. cbv zeta. rewrite Hn in Hmd. rewrite <- Hn in Hmd. rewrite Hodd in Hmd.
    injection Hmd as <-. split; [exact Hgmd|].
    assert (Hin : In (nth (length l / 2) (py_sorted l) PNone) l).
    { apply (Permutation_in _ (py_sorted_perm l)). apply nth_In.
      now rewrite py_sorted_length. }
    split; [exact Hin|].
    rewrite List.Forall_forall in Hbetween. now apply Hbetween.
  - intros Heven. rewrite Hn in Hmd. rewrite <- Hn in Hmd. rewrite Heven in Hmd.
    exists md. split; [exact Hmd|exact Hgmd].
  - intros z Hz. rewrite Hgm in Hz. injection Hz as ->. cbn [num_val] in Hmv.
    split; [exact Hmv|]. rewrite Hmv. now apply exact_mean_between.
  - unfold statistics_stdev in Hsd. cbn [length Nat.ltb Nat.leb] in Hsd.
    destruct (float_of_Q (exact_variance l)); [|discriminate].
    injection Hsd as <-. exact Hgsd.
  - exact Hvar.
Qed.

Lemma numeric_median_and_mean_witness :
  let arr := [PInt 2; PInt 9; PInt 4] in
  let stats := _compute_array_stats sample_first arr in
  exists sorted,
    Permutation sorted arr /\
    StronglySorted (fun a b => (num_val a <= num_val b)%Q) sorted /\
    (Nat.odd 3 = true ->
     let middle := nth (3 / 2) sorted PNone in
     dict_get stats "median" = Some middle /\ In middle arr /\
     (num_val (py_min arr) <= num_val middle <= num_val (py_max arr))%Q) /\
    (Nat.odd 3 = false ->
     exists median,
       py_midpoint (nth (3 / 2 - 1) sorted PNone) (nth (3 / 2) sorted PNone) = Some median /\
       dict_get stats "median" = Some median) /\
    (forall z, dict_get stats "mean" = Some (PInt z) ->
       (inject_Z z == exact_mean arr)%Q /\
       (num_val (py_min arr) <= inject_Z z <= num_val (py_max arr))%Q) /\
    dict_get stats "stdev" = Some (PFloat (py_sqrt (exact_variance arr))) /\
    (0 <= exact_variance arr)%Q.
Proof.
  cbv zeta.
  refine (numeric_median_and_mean sample_first [PInt 2; PInt 9; PInt 4] _ _ _).
  - reflexivity.
  - vm_compute. reflexivity.
  - reflexivity.
Defined.

(** ** The schema tree of an object *)

Lemma analyze_entry_type (rs : list Z -> Z -> list Z) (obj : dict) (key : string) (v : pyobj) :
  exists node, analyze_entry rs obj key v = PDict node /\
               dict_has node "type" = true /\
               dict_at node "type" = PStr (node_type v).
Proof.
  destruct v as [| | | | |l| |d]; try (eexists; split; [reflexivity|split; reflexivity]).
  cbn [analyze_entry]. cbv zeta.
  destruct l as [|x l]; [eexists; split; [reflexivity|split; reflexivity]|].
  destruct x; eexists; (split; [reflexivity|split; reflexivity]).
Qed.

(** X12.  The schema tree of a non-empty object whose keys are distinct and
    do not include __array_stats has the root item [Root] of type object,
    and below it one item per key of the object, in the order of the
    object, each showing the key and the type of its value: object, array,
    or the name of the Python type of a scalar. *)
Theorem object_tree_lists_keys (rs : list Z -> Z -> list Z) (d : dict) :
  NoDup (dict_keys d) ->
  d <> [] ->
  dict_has d "__array_stats" = false ->
  exists children,
    update_schema_tree (analyze_json rs (PDict d))
    = Some (TreeItem "[Root]" (PStr "object") None children) /\
    map (fun item => (item_text0 item, item_text1 item)) children
    = map (fun kv => (fst kv, PStr (node_type (snd kv)))) d.
Proof.
  intros Hnd Hne Hstats.
  change (analyze_json rs (PDict d)) with (analyze_items (analyze_entry rs) d).
  assert (Hhas : dict_has (analyze_items (analyze_entry rs) d) "__array_stats" = false).
  { unfold analyze_items. rewrite analyze_items_has. now rewrite Hstats. }
  rewrite (analyze_items_map (analyze_entry rs) d Hnd) in *.
  set (schema := map (fun kv => (fst kv, analyze_entry rs d (fst kv) (snd kv))) d) in *.
  exists (map (fun kv => _add_schema_item (fst kv) (snd kv)) schema). split.
  - unfold update_schema_tree. rewrite Hhas.
    destruct schema eqn:E; [|reflexivity].
    apply map_eq_nil in E. contradiction.
  - unfold schema. rewrite !map_map. apply map_ext. intros [k v]. cbn [fst snd].
    destruct (analyze_entry_type rs d k v) as (node & -> & Hty & Hat).
    rewrite _add_schema_item_eq. cbv zeta. rewrite Hty. cbn [item_text0 item_text1].
    now rewrite Hat.
Qed.

Lemma object_tree_lists_keys_witness :
  let d := [("name", PStr "n"); ("tags", PList [PInt 1]); ("pos", PDict [("x", PFloat (FRat 1))]);
            ("ok", PBool true); ("none", PNone)] in
  exists children,
    update_schema_tree (analyze_json sample_first (PDict d))
    = Some (TreeItem "[Root]" (PStr "object") None children) /\
    map (fun item => (item_text0 item, item_text1 item)) children
    = [("name", PStr "str"); ("tags", PStr "array"); ("pos", PStr "object");
       ("ok", PStr "bool"); ("none", PStr "NoneType")].
Proof.
  cbv zeta.
  refine (object_tree_lists_keys sample_first
            [("name", PStr "n"); ("tags", PList [PInt 1]); ("pos", PDict [("x", PFloat (FRat 1))]);
             ("ok", PBool true); ("none", PNone)] _ _ _).
  - apply distinct_NoDup. reflexivity.
  - discriminate.
  - reflexivity.
Defined.

(** ** The preview of the document *)

Lemma py_split_nonempty (sep : ascii) (s : string) : py_split sep s <> [].
Proof.
  destruct s as [|c s]; cbn [py_split]; [discriminate|].
  destruct (Ascii.eqb c sep); [discriminate|].
  destruct (py_split sep s); discriminate.
Qed.

(** Joining the pieces of a split with the separator gives the text back. *)
Lemma py_join_split (sep : ascii) (s : string) :
  py_join (String sep EmptyString) (py_split sep s) = s.
Proof.
  induction s as [|c s IH]; [reflexivity|].
  cbn [py_split]. destruct (Ascii.eqb_spec c sep) as [->|Hne].
  - pose proof (py_split_nonempty sep s) as Hs.
    destruct (py_split sep s) as [|x l]; [contradiction|].
    cbn [py_join String.append] in *. now rewrite IH.
  - pose proof (py_split_nonempty sep s) as Hs.
    destruct (py_split sep s) as [|x l]; [contradiction|].
    destruct l as [|y l]; cbn [py_join String.append] in *; now rewrite IH.
Qed.

Lemma append_assoc (a b c : string) :
  String.append (String.append a b) c = String.append a (String.append b c).
Proof. induction a as [|x a IH]; cbn [String.append]; [reflexivity|now rewrite IH]. Qed.

Lemma py_join_firstn_skipn (sep : string) (n : nat) (l : list string) :
  (0 < n < length l)%nat ->
  py_join sep l
  = String.append (py_join sep (firstn n l)) (String.append sep (py_join sep (skipn n l))).
Proof.
  revert l. induction n as [|n IH]; intros l Hn; [lia|].
  destruct l as [|x l]; [cbn [length] in Hn; lia|].
  destruct l as [|y l]; [cbn [length] in Hn; lia|].
  destruct n as [|n].
  - reflexivity.
  - cbn [firstn skipn]. cbn [firstn skipn] in IH.
    change (py_join sep (x :: y :: l))
      with (String.append x (String.append sep (py_join sep (y :: l)))).
    rewrite (IH (y :: l)) by (cbn [length] in *; lia).
    destruct l as [|z l]; [cbn [length] in Hn; lia|].
    cbn [firstn py_join]. destruct n; cbn [firstn]; now rewrite !append_assoc.
Qed.

(** X13.  The preview of the document that goes into the prompt: a
    document of at most 50 lines is passed whole; of a longer one the first
    50 lines are passed, followed by a line saying that the text was
    truncated, and what is left out is exactly the rest of the document
    after the fiftieth line break. *)
Theorem json_content_limited_spec (json_content : string) :
  let lines := py_split LF json_content in
  ((length lines <= 50)%nat -> json_content_limited json_content = json_content) /\
  ((50 < length lines)%nat ->
   exists first50 rest,
     first50 = py_join (String LF EmptyString) (firstn 50 lines) /\
     rest = py_join (String LF EmptyString) (skipn 50 lines) /\
     json_content = String.append first50 (String LF rest) /\
     json_content_limited json_content
     = String.append first50 (String LF "... (truncated for brevity)")).
Proof.
  cbv zeta. unfold json_content_limited. split.
  - intros Hle. destruct (Nat.ltb_spec 50 (length (py_split LF json_content))); [lia|].
    rewrite firstn_all2 by assumption. apply py_join_split.
  - intros Hlt. destruct (Nat.ltb_spec 50 (length (py_split LF json_content))); [|lia].
    eexists. eexists. split; [reflexivity|]. split; [reflexivity|]. split; [|reflexivity].
    rewrite <- (py_join_split LF json_content) at 1.
    rewrite (py_join_firstn_skipn _ 50) by lia. reflexivity.
Qed.

Lemma json_content_limited_spec_witness :
  let short := String.append "{" (String LF "}") in
  let long := py_join (String LF EmptyString) (repeat "1," 60) in
  json_content_limited short = short /\
  exists first50 rest,
    first50 = py_join (String LF EmptyString) (firstn 50 (py_split LF long)) /\
    rest = py_join (String LF EmptyString) (skipn 50 (py_split LF long)) /\
    long = String.append first50 (String LF rest) /\
    json_content_limited long
    = String.append first50 (String LF "... (truncated for brevity)").
Proof.
  cbv zeta. split.
  - refine (proj1 (json_content_limited_spec (String.append "{" (String LF "}"))) _).
    vm_compute. lia.
  - refine (proj2 (json_content_limited_spec
                     (py_join (String LF EmptyString) (repeat "1," 60))) _).
    vm_compute. lia.
Defined.

(** ** Cleaning the answer of the model *)

(** *** [strip], seen on the list of characters *)

Lemma string_rev_list (acc s : string) :
  list_ascii_of_string (string_rev acc s)
  = rev (list_ascii_of_string s) ++ list_ascii_of_string acc.
Proof.
  revert acc. induction s as [|c s IH]; intros acc; [reflexivity|].
  cbn [string_rev list_ascii_of_string rev]. rewrite IH, <- app_assoc. reflexivity.
Qed.

Lemma lstrip_list (s : string) :
  list_ascii_of_string (lstrip s) = drop_while is_space (list_ascii_of_string s).
Proof.
  induction s as [|c s IH]; [reflexivity|].
  cbn [lstrip list_ascii_of_string drop_while]. now destruct (is_space c).
Qed.

Lemma py_strip_list (s : string) :
  list_ascii_of_string (py_strip s)
  = rev (drop_while is_space (rev (drop_while is_space (list_ascii_of_string s)))).
Proof.
  unfold py_strip.
  now rewrite string_rev_list, lstrip_list, string_rev_list, lstrip_list, !app_nil_r.
Qed.

Lemma drop_while_suffix {A : Type} (cls : A -> bool) (l : list A) :
  exists pre, l = pre ++ drop_while cls l /\ forallb cls pre = true.
Proof.
  induction l as [|x l (pre & IH & Hpre)]; [now exists []|].
  cbn [drop_while]. destruct (cls x) eqn:Hx.
  - exists (x :: pre). cbn [app forallb]. rewrite Hx, Hpre. now rewrite <- IH.
  - now exists [].
Qed.

Lemma drop_while_head {A : Type} (cls : A -> bool) (l : list A) :
  match drop_while cls l with x :: _ => cls x = false | [] => True end.
Proof.
  induction l as [|x l IH]; [exact I|].
  cbn [drop_while]. destruct (cls x) eqn:Hx; assumption.
Qed.

Lemma drop_while_id {A : Type} (cls : A -> bool) (l : list A) :
  match l with x :: _ => cls x = false | [] => True end -> drop_while cls l = l.
Proof. destruct l as [|x l]; [reflexivity|]. cbn [drop_while]. now intros ->. Qed.

(** What [strip] leaves neither begins nor ends with a character of the
    class, so stripping again changes nothing. *)
Lemma strip_list_idem {A : Type} (cls : A -> bool) (l : list A) :
  let strip l := rev (drop_while cls (rev (drop_while cls l))) in
  strip (strip l) = strip l.
Proof.
  cbv beta zeta.
  pose proof (drop_while_head cls l) as Hhead.
  set (t := drop_while cls l) in *.
  destruct (drop_while_suffix cls (rev t)) as (pre & Hsplit & _).
  pose proof (drop_while_head cls (rev t)) as Hu.
  set (u := drop_while cls (rev t)) in *. clearbody u. clearbody t.
  assert (Hru : drop_while cls (rev u) = rev u).
  { apply drop_while_id.
    destruct u as [|x u' _] using rev_ind; [exact I|].
    rewrite rev_app_distr. cbn [rev app].
    destruct t as [|c t'].
    - cbn [rev] in Hsplit. symmetry in Hsplit.
      apply app_eq_nil in Hsplit as [_ Hsplit].
      apply app_eq_nil in Hsplit as [_ Hsplit]. discriminate Hsplit.
    - cbn [rev] in Hsplit. rewrite app_assoc in Hsplit.
      apply app_inj_tail in Hsplit as [_ ->]. exact Hhead. }
  rewrite Hru, rev_involutive.
  now rewrite (drop_while_id cls u Hu).
Qed.

Lemma list_ascii_inj (a b : string) :
  list_ascii_of_string a = list_ascii_of_string b -> a = b.
Proof.
  intros H. rewrite <- (string_of_list_ascii_of_string a), H.
  apply string_of_list_ascii_of_string.
Qed.

Lemma py_strip_idem (s : string) : py_strip (py_strip s) = py_strip s.
Proof.
  apply list_ascii_inj. rewrite py_strip_list, py_strip_list.
  apply (strip_list_idem is_space).
Qed.

Lemma list_ascii_length (s : string) :
  length (list_ascii_of_string s) = String.length s.
Proof. induction s as [|c s IH]; cbn; [reflexivity|now rewrite IH]. Qed.

Lemma drop_while_length {A : Type} (cls : A -> bool) (l : list A) :
  (length (drop_while cls l) <= length l)%nat.
Proof.
  induction l as [|x l IH]; [reflexivity|].
  cbn [drop_while]. destruct (cls x); cbn [length]; lia.
Qed.

Lemma py_strip_length (s : string) : (String.length (py_strip s) <= String.length s)%nat.
Proof.
  rewrite <- !list_ascii_length, py_strip_list, length_rev.
  etransitivity; [apply drop_while_length|]. rewrite length_rev.
  apply drop_while_length.
Qed.

Lemma string_forall_list (cls : ascii -> bool) (s : string) :
  string_forall cls s = forallb cls (list_ascii_of_string s).
Proof. induction s as [|c s IH]; cbn; [reflexivity|now rewrite IH]. Qed.

Lemma forallb_drop_while {A : Type} (P cls : A -> bool) (l : list A) :
  forallb P l = true -> forallb P (drop_while cls l) = true.
Proof.
  induction l as [|x l IH]; [reflexivity|].
  cbn [drop_while]. destruct (cls x); [|trivial].
  cbn [forallb]. intros [_ Hl]%andb_prop. now apply IH.
Qed.

Lemma forallb_rev {A : Type} (P : A -> bool) (l : list A) :
  forallb P l = true -> forallb P (rev l) = true.
Proof.
  rewrite !forallb_forall. intros Hl x Hx. apply Hl. now apply in_rev.
Qed.

Lemma py_strip_forall (cls : ascii -> bool) (s : string) :
  string_forall cls s = true -> string_forall cls (py_strip s) = true.
Proof.
  rewrite !string_forall_list, py_strip_list. intros Hs.
  now apply forallb_rev, forallb_drop_while, forallb_rev, forallb_drop_while.
Qed.

(** *** [replace] *)

Lemma replace_from_forall (cls : ascii -> bool) (old new : string) (s : string) :
  string_forall cls new = true ->
  string_forall cls s = true ->
  forall skip, string_forall cls (replace_from old new skip s) = true.
Proof.
  intros Hnew. induction s as [|c s IH]; [reflexivity|].
  cbn [string_forall]. intros [Hc Hs]%andb_prop skip.
  cbn [replace_from]. destruct skip as [|k]; [|now apply IH].
  destruct (starts_with old (String c s)).
  - rewrite string_forall_app, Hnew. now apply IH.
  - cbn [string_forall]. rewrite Hc. now apply IH.
Qed.

(** Replacing one character by nothing removes every occurrence of it. *)
Lemma replace_char_gone (c : ascii) (s : string) :
  string_forall (fun x => negb (Ascii.eqb x c)) (py_replace s (String c EmptyString) EmptyString)
  = true.
Proof.
  unfold py_replace. induction s as [|x s IH]; [reflexivity|].
  cbn [replace_from starts_with String.length Nat.sub].
  destruct (Ascii.eqb_spec c x) as [->|Hne]; cbn [andb].
  - cbn [String.append]. exact IH.
  - cbn [string_forall]. rewrite IH.
    destruct (Ascii.eqb_spec x c); [congruence|reflexivity].
Qed.

Lemma char_absent (c : ascii) (s : string) :
  string_forall (fun x => negb (Ascii.eqb x c)) s = true ->
  is_substring (String c EmptyString) s = false.
Proof.
  induction s as [|x s IH]; [reflexivity|].
  cbn [string_forall is_substring starts_with]. intros [Hx Hs]%andb_prop.
  destruct (Ascii.eqb_spec c x) as [->|_].
  - rewrite Ascii.eqb_refl in Hx. discriminate Hx.
  - cbn [andb]. now apply IH.
Qed.

Lemma replace_from_length (old : string) (s : string) :
  forall skip,
    (String.length (replace_from old EmptyString skip s) + Nat.min skip (String.length s)
     <= String.length s)%nat.
Proof.
  induction s as [|c s IH]; intros skip; [cbn; lia|].
  cbn [replace_from String.length]. destruct skip as [|k].
  - destruct (starts_with old (String c s)).
    + cbn [String.append]. specialize (IH (String.length old - 1)%nat). lia.
    + cbn [String.length]. specialize (IH 0%nat). lia.
  - specialize (IH k). lia.
Qed.

Lemma starts_with_length (p s : string) :
  starts_with p s = true -> (String.length p <= String.length s)%nat.
Proof.
  revert s. induction p as [|a p IH]; intros s; [cbn; lia|].
  destruct s as [|b s]; [discriminate|]. cbn [starts_with String.length].
  intros [_ Hp]%andb_prop. specialize (IH s Hp). lia.
Qed.

(** Removing a text that occurs shortens the string by at least its length. *)
Lemma replace_present_length (old s : string) :
  is_substring old s = true ->
  (String.length (py_replace s old EmptyString) + String.length old <= String.length s)%nat.
Proof.
  unfold py_replace. induction s as [|c s IH].
  - cbn [is_substring]. destruct (starts_with old "") eqn:Hp; [|discriminate].
    intros _. apply starts_with_length in Hp. cbn in *. lia.
  - cbn [is_substring replace_from].
    destruct (starts_with old (String c s)) eqn:Hp.
    + intros _. apply starts_with_length in Hp. cbn [String.length String.append] in *.
      pose proof (replace_from_length old s (String.length old - 1)). lia.
    + intros Hs. specialize (IH Hs). cbn [String.length]. lia.
Qed.

(** X14.  What [ask_ollama] returns for the text the model printed: the
    filter never contains a backtick; removing the text of three backticks
    after removing every single backtick never has anything left to remove;
    an answer that (once stripped) contains neither a backtick nor the
    letters jq is returned as it is, stripped; and an answer that mentions
    jq anywhere, also inside a field name, comes back at least two
    characters shorter. *)
Theorem clean_result_spec (stdout : string) :
  let raw_result := py_strip stdout in
  string_forall (fun c => negb (Ascii.eqb c "`")) (clean_result stdout) = true /\
  clean_result stdout = py_strip (py_replace (py_replace raw_result "`" "") "jq" "") /\
  (is_substring "`" raw_result = false -> is_substring "jq" raw_result = false ->
   clean_result stdout = raw_result) /\
  (is_substring "jq" (py_replace raw_result "`" "") = true ->
   (String.length (clean_result stdout) + 2 <= String.length raw_result)%nat).
Proof.
  cbv zeta. unfold clean_result. set (raw := py_strip stdout).
  pose proof (replace_char_gone "`" raw) as Hgone.
  assert (Hdead : py_replace (py_replace raw "`" "") "```" "" = py_replace raw "`" "").
  { apply py_replace_absent.
    apply (is_substring_absent_app "`" "``"). now apply char_absent. }
  rewrite Hdead. split; [|split; [reflexivity|split]].
  - apply py_strip_forall. unfold py_replace at 1. now apply replace_from_forall.
  - intros Hb Hj. rewrite (py_replace_absent raw "`" "" Hb).
    rewrite (py_replace_absent raw "jq" "" Hj). apply py_strip_idem.
  - intros Hj. apply replace_present_length in Hj. cbn [String.length] in Hj.
    pose proof (py_strip_length (py_replace (py_replace raw "`" "") "jq" "")).
    pose proof (replace_from_length "`" raw 0). unfold py_replace in *. lia.
Qed.

Lemma clean_result_spec_witness :
  clean_result " .[] | .name " = ".[] | .name" /\
  (String.length (clean_result "`.jquery`") + 2 <= String.length (py_strip "`.jquery`"))%nat.
Proof.
  split.
  - refine (proj1 (proj2 (proj2 (clean_result_spec " .[] | .name "))) _ _); reflexivity.
  - refine (proj2 (proj2 (proj2 (clean_result_spec "`.jquery`"))) _). reflexivity.
Defined.

(** ** The query found in the answer of the model *)









(** ** The paths of the schema tree are paths of the document *)

Section TreePaths.

Variable rs : list Z -> Z -> list Z.

(** The entries the schema of a root array is combined from. *)
Let from_element (l : list pyobj) (kv : string * pyobj) : Prop :=
  exists d v, In (PDict d) l /\ In (fst kv, v) d /\ plain_keys (PDict d) = true /\
              snd kv = analyze_entry rs d (fst kv) v.

Lemma merge_item_Forall (P : string * pyobj -> Prop) (item_schema combined : dict) :
  Forall P combined -> Forall P item_schema ->
  Forall P (fold_left (fun combined kv =>
                         if dict_has combined (fst kv) then combined
                         else dict_set combined (fst kv) (snd kv))
                      item_schema combined).
Proof.
  intros Hc Hi. revert combined Hc.
  induction Hi as [|[k v] item_schema Hkv _ IH]; intros combined Hc; [assumption|].
  cbn [fold_left fst snd]. apply IH.
  destruct (dict_has combined k); [assumption|]. now apply dict_set_Forall.
Qed.

Lemma combine_schemas_from (l items : list pyobj) :
  (forall x, In x items -> In x l) ->
  forallb plain_keys l = true ->
  Forall (from_element l) (combine_schemas rs items).
Proof.
  intros Hsub Hplain. unfold combine_schemas.
  assert (Hgen : forall acc, Forall (from_element l) acc ->
            Forall (from_element l)
              (fold_left
                 (fun combined_schema item =>
                    match item with
                    | PDict d =>
                        fold_left (fun combined kv =>
                                     if dict_has combined (fst kv) then combined
                                     else dict_set combined (fst kv) (snd kv))
                                  (_analyze_object rs d) combined_schema
                    | _ => combined_schema
                    end) items acc)).
  { induction items as [|x items IH]; intros acc Hacc; [assumption|].
    cbn [fold_left]. apply IH; [intros y Hy; apply Hsub; now right|].
    destruct x as [| | | | | | |d]; try assumption.
    apply merge_item_Forall; [assumption|].
    assert (Hd : In (PDict d) l) by (apply Hsub; now left).
    assert (Hpd : plain_keys (PDict d) = true)
      by (apply (proj1 (forallb_forall _ _) Hplain); assumption).
    pose proof Hpd as Hpd'. cbn [plain_keys] in Hpd'. apply andb_prop in Hpd' as [Hnd _].
    unfold _analyze_object. rewrite (analyze_items_map _ d (distinct_NoDup _ Hnd)).
    apply List.Forall_forall. intros kv Hkv.
    apply in_map_iff in Hkv as ([k v] & <- & Hkv). cbn [fst snd].
    exists d, v. cbn [fst snd]. repeat split; assumption. }
  apply Hgen. constructor.
Qed.

End TreePaths.

(** X16.  In a document whose objects have distinct, unreserved keys, every
    item of the schema tree that stands for a schema node (below an object
    root and below an array root alike) has a path that can be followed in
    the document: the keys [_get_item_path] gives lead, passing through
    arrays element by element, to a value of the document. *)
Theorem tree_paths_in_document (rs : list Z -> Z -> list Z) (doc : pyobj)
    (root : tree_item) (chain : list string) (n : pyobj) :
  plain_keys doc = true ->
  update_schema_tree (analyze_json rs doc) = Some root ->
  In (chain, Some n) (tree_items [] root) ->
  has_path doc (_get_item_path chain) = true.
Proof.
  intros Hplain Hroot Hin.
  destruct doc as [| | | | |l| |d]; try discriminate Hroot.
  - (* an array at the root *)
    destruct l as [|x0 l0]; [discriminate Hroot|].
    remember (x0 :: l0) as l eqn:Hl.
    assert (Hschema : analyze_json rs (PList l)
                      = dict_set (combine_schemas rs (firstn 10 l)) "__array_stats"
                                 (PDict (_compute_array_stats rs l)))
      by (rewrite Hl; reflexivity).
    rewrite Hschema in Hroot. clear Hschema.
    cbn [plain_keys] in Hplain.
    assert (Hsub : forall x, In x (firstn 10 l) -> In x l).
    { intros x Hx. rewrite <- (firstn_skipn 10 l). apply in_or_app. now left. }
    pose proof (combine_schemas_from rs l (firstn 10 l) Hsub Hplain) as Hfrom.
    assert (Hfrom' : Forall
              (fun kv => fst kv = "__array_stats"
                         \/ exists d v, In (PDict d) l /\ In (fst kv, v) d
                                        /\ plain_keys (PDict d) = true
                                        /\ snd kv = analyze_entry rs d (fst kv) v)
              (dict_set (combine_schemas rs (firstn 10 l)) "__array_stats"
                        (PDict (_compute_array_stats rs l)))).
    { apply dict_set_Forall; [|now left].
      eapply List.Forall_impl; [|exact Hfrom]. intros kv Hkv. right. exact Hkv. }
    clear Hfrom. rename Hfrom' into Hfrom.
    set (schema := dict_set (combine_schemas rs (firstn 10 l)) "__array_stats"
                            (PDict (_compute_array_stats rs l))) in *.
    assert (Hstats : dict_has schema "__array_stats" = true)
      by (unfold schema; rewrite dict_has_set; reflexivity).
    unfold update_schema_tree in Hroot. rewrite Hstats in Hroot.
    destruct schema as [|e schema'] eqn:Hs; [discriminate|]. rewrite <- Hs in *.
    injection Hroot as <-. cbn [tree_items app flat_map] in Hin.
    destruct Hin as [[=]|[[=]|Hin]].
    apply in_flat_map in Hin as (item & Hitem & Hin).
    apply in_map_iff in Hitem as ([k node] & <- & Hkv). cbn [fst snd] in Hin.
    apply filter_In in Hkv as [Hkv Hk]. cbn [fst] in Hk.
    rewrite List.Forall_forall in Hfrom.
    destruct (Hfrom _ Hkv) as [E|(d & v & Hd & Hv & Hpd & Hnode)]; cbn [fst snd] in *.
    { subst k. discriminate Hk. }
    cbn [plain_keys] in Hpd. apply andb_prop in Hpd as [_ Hall].
    pose proof (proj1 (forallb_forall _ _) Hall _ Hv) as Hkv'. cbn [fst snd] in Hkv'.
    apply andb_prop in Hkv' as [Hpk Hpv].
    destruct (entries_resolve rs v Hpv) as [Hentry _].
    subst node.
    destruct (Hentry d k ["[Root]"] chain n Hpk Hin) as (q & Hpath & _ & Hhas).
    rewrite Hpath. change (_get_item_path ["[Root]"]) with (@nil string). cbn [app].
    cbn [has_path]. apply existsb_exists. exists (PDict d). split; [assumption|].
    cbn [has_path]. apply existsb_exists. exists (k, v). split; [assumption|].
    cbn [fst snd]. now rewrite String.eqb_refl, Hhas.
  - (* an object at the root *)
    destruct (entries_resolve rs (PDict d) Hplain) as [_ Hd].
    cbn [plain_keys] in Hplain. apply andb_prop in Hplain as [Hnd Hall].
    change (analyze_json rs (PDict d)) with (analyze_items (analyze_entry rs) d) in *.
    remember (analyze_items (analyze_entry rs) d) as props eqn:Hprops.
    assert (Hstats : dict_has props "__array_stats" = false).
    { rewrite Hprops. unfold analyze_items. rewrite analyze_items_has. cbn [dict_has orb].
      destruct (dict_has d "__array_stats") eqn:Hh; [|reflexivity].
      apply dict_has_In, list_elem_of_In, in_map_iff in Hh as (kv & Hk & Hkv).
      rewrite forallb_forall in Hall. specialize (Hall kv Hkv).
      apply andb_prop in Hall as [Hpk _]. rewrite Hk in Hpk. discriminate Hpk. }
    unfold update_schema_tree in Hroot. rewrite Hstats in Hroot.
    destruct props as [|e props'] eqn:Hp; [discriminate|]. rewrite <- Hp in *.
    injection Hroot as <-. cbn [tree_items app] in Hin.
    destruct Hin as [[=]|Hin].
    destruct (Hd _ _ _ Hin) as (k & q & node & Hk & Hget & Hpath & _ & Hhas).
    rewrite Hpath. change (_get_item_path ["[Root]"]) with (@nil string). exact Hhas.
Qed.

Lemma tree_paths_in_document_witness :
  let doc := PList [PDict [("a", PInt 1)];
                    PDict [("b", PList [PDict [("c", PStr "s")]])]] in
  has_path doc (_get_item_path ["[Root]"; "b"; "elements"; "c"]) = true.
Proof.
  cbv zeta.
  refine (tree_paths_in_document sample_first
            (PList [PDict [("a", PInt 1)]; PDict [("b", PList [PDict [("c", PStr "s")]])]])
            _ ["[Root]"; "b"; "elements"; "c"] _ _ _ _).
  - reflexivity.
  - vm_compute. reflexivity.
  - vm_compute. do 5 right. left. reflexivity.
Defined.

(** ** The examples and the length statistics of an array *)




Lemma py_last_index (x : pyobj) (arr : list pyobj) :
  py_last (x :: arr) = py_index (x :: arr) (py_len (x :: arr) - 1).
Proof.
  unfold py_last, py_index, py_len.
  replace (Z.to_nat (Z.of_nat (length (x :: arr)) - 1)) with (length arr)
    by (cbn [length]; lia).
  revert x. induction arr as [|y arr IH]; intros x; [reflexivity|].
  change (nth (length (y :: arr)) (x :: y :: arr) PNone)
    with (nth (length arr) (y :: arr) PNone).
  rewrite <- (IH y). reflexivity.
Qed.

Section NumericExamples.
Variable B : Q.
Hypothesis B_nonneg : (0 <= B)%Q.
Hypothesis B_small : (B < inject_Z float_overflow_bound)%Q.
Hypothesis B_square_small : (8 * B * B < inject_Z float_overflow_bound)%Q.

End NumericExamples.



Lemma Qsum_lengths (l : list Z) :
  (Qsum (map num_val (map PInt l)) == inject_Z (fold_right Z.add 0%Z l))%Q.
Proof.
  induction l as [|z l IH]; [reflexivity|].
  cbn [map Qsum fold_right num_val]. fold (Qsum (map num_val (map PInt l))).
  now rewrite IH, inject_Z_plus.
Qed.

(** X18.  For every non-empty array of strings the statistics record the
    length of a shortest string, the length of a longest string, and the
    average length, which is the sum of the lengths over the number of
    strings and lies between the two. *)
Theorem string_length_stats (rs : list Z -> Z -> list Z) (s : string) (ss : list string) :
  let strs := s :: ss in
  let stats := _compute_array_stats rs (map PStr strs) in
  let len x := Z.of_nat (String.length x) in
  exists lo hi avg,
    dict_get stats "min_length" = Some (PInt lo) /\
    dict_get stats "max_length" = Some (PInt hi) /\
    dict_get stats "avg_length" = Some (PFloat (FRat avg)) /\
    (exists a, In a strs /\ lo = len a) /\
    (exists b, In b strs /\ hi = len b) /\
    (forall x, In x strs -> lo <= len x <= hi) /\
    (avg == inject_Z (fold_right Z.add 0%Z (map len strs)) / inject_Z (py_len strs))%Q /\
    (inject_Z lo <= avg <= inject_Z hi)%Q.
Proof.
  cbv zeta. rewrite compute_array_stats_strings. unfold string_stats.
  set (len := fun x => Z.of_nat (String.length x)).
  set (arr := map PStr (s :: ss)).
  assert (Hlengths : map (fun o => PInt (Z.of_nat (String.length (str_val o)))) arr
                     = map PInt (map len (s :: ss))).
  { unfold arr. rewrite !map_map. reflexivity. }
  rewrite Hlengths.
  set (L := map PInt (map len (s :: ss))).
  assert (HL : L = PInt (len s) :: map PInt (map len ss)) by reflexivity.
  assert (Hmem : forall o, In o L -> exists a, In a (s :: ss) /\ o = PInt (len a)).
  { intros o Ho. unfold L in Ho. rewrite map_map in Ho.
    apply in_map_iff in Ho as (a & <- & Ha). now exists a. }
  destruct (py_min_spec (PInt (len s)) (map PInt (map len ss))) as [Hmin_in Hmin_le].
  destruct (py_max_spec (PInt (len s)) (map PInt (map len ss))) as [Hmax_in Hmax_le].
  rewrite <- HL in *.
  destruct (Hmem _ Hmin_in) as (a & Ha & Hlo).
  destruct (Hmem _ Hmax_in) as (b & Hb & Hhi).
  assert (Hbetween : Forall (fun y => (inject_Z (len a) <= num_val y <= inject_Z (len b))%Q) L).
  { apply List.Forall_forall. intros y Hy.
    specialize (Hmin_le y Hy). specialize (Hmax_le y Hy).
    rewrite Hlo in Hmin_le. rewrite Hhi in Hmax_le. now split. }
  exists (len a), (len b),
    (Qred (Qsum (map num_val L) / inject_Z (py_len L))).
  assert (Hget : forall stats0 k,
             k = "min_length" \/ k = "max_length" \/ k = "avg_length" ->
             dict_get
               (let stats :=
                  if py_len arr <? 1000 then
                    let counter := Counter (map str_val arr) in
                    let most := most_common 5 counter in
                    let stats :=
                      match most with
                      | [] => stats0
                      | _ => dict_set stats0 "most_common" (PList (map count_entry most))
                      end in
                    if (5 <? length counter)%nat then
                      dict_set stats "least_common"
                        (PList (map count_entry
                                  (slice_last5_reversed (most_common_all counter))))
                    else stats
                  else stats0 in
                if 5 <? py_len arr then
                  dict_set stats "examples"
                    (PList (map (py_index arr)
                              (if 3 <? py_len arr
                               then [0; py_len arr - 1]
                                    ++ rs (py_range 1 (py_len arr - 1))
                                          (Z.min 3 (py_len arr - 2))
                               else [0; py_len arr - 1])))
                else stats) k
             = dict_get stats0 k).
  { intros stats0 k Hk. cbv zeta.
    destruct (py_len arr <? 1000);
      [destruct (most_common 5 (Counter (map str_val arr)));
       destruct (5 <? length (Counter (map str_val arr)))%nat|];
      destruct (5 <? py_len arr); rewrite ?dict_get_set;
      destruct Hk as [-> | [-> | ->]]; reflexivity. }
  split; [rewrite Hget by auto; rewrite !dict_get_set;
          cbn [String.eqb Ascii.eqb Bool.eqb dict_get]; now rewrite Hlo|].
  split; [rewrite Hget by auto; rewrite !dict_get_set;
          cbn [String.eqb Ascii.eqb Bool.eqb dict_get]; now rewrite Hhi|].
  split; [rewrite Hget by auto; rewrite !dict_get_set; reflexivity|].
  split; [now exists a|]. split; [now exists b|]. split.
  - intros x Hx.
    assert (Hy : In (PInt (len x)) L) by (unfold L; rewrite map_map; apply (in_map (fun x => PInt (len x))); exact Hx).
    rewrite List.Forall_forall in Hbetween. specialize (Hbetween _ Hy).
    cbn [num_val] in Hbetween. rewrite <- !Zle_Qle in Hbetween. exact Hbetween.
  - rewrite Qred_correct. split.
    + unfold L at 1. rewrite Qsum_lengths. unfold L, py_len. now rewrite !length_map.
    + rewrite HL in Hbetween |- *. apply exact_mean_between in Hbetween. exact Hbetween.
Qed.

(** ** What the visibility filter keeps *)

Lemma has_path_prefix (v : pyobj) :
  forall q r, has_path v (q ++ r) = true -> has_path v q = true.
Proof.
  induction v as [| | | | |l IH|l IH|d IH] using pyobj_ind;
    intros q r; destruct q as [|k q]; try reflexivity; cbn [app has_path]; try discriminate.
  - intros (x & Hx & Hp)%existsb_exists. apply existsb_exists. exists x.
    split; [assumption|]. rewrite List.Forall_forall in IH.
    apply (IH x Hx (k :: q) r Hp).
  - intros ([k' w] & Hkw & Hp)%existsb_exists. apply existsb_exists. exists (k', w).
    split; [assumption|]. cbn [fst snd] in *.
    apply andb_prop in Hp as [Hk Hp]. rewrite Hk. cbn [andb].
    rewrite List.Forall_forall in IH. apply (IH (k', w) Hkw q r Hp).
Qed.

Lemma filter_keeps_visible (H : gset path) (v : pyobj) :
  unique_keys v = true ->
  forall cur p,
    has_path v p = true ->
    (forall q r, p = q ++ r -> q <> [] -> cur ++ q ∉ H) ->
    has_path (_filter_recursive H v cur) p = true.
Proof.
  induction v as [| | | | |l IH|l IH|d IH] using pyobj_ind;
    intros Hu cur p; destruct p as [|k p]; try reflexivity;
    cbn [has_path _filter_recursive]; try discriminate.
  - intros (x & Hx & Hp)%existsb_exists Hvis. apply existsb_exists.
    exists (_filter_recursive H x cur).
    split; [apply (in_map (fun item => _filter_recursive H item cur)); exact Hx|].
    rewrite List.Forall_forall in IH. cbn [unique_keys] in Hu.
    apply (IH x Hx (proj1 (forallb_forall _ _) Hu x Hx) cur (k :: p) Hp Hvis).
  - intros ([k' w] & Hkw & Hp)%existsb_exists Hvis. cbn [fst snd] in Hp.
    apply andb_prop in Hp as [Hk Hp]. apply String.eqb_eq in Hk. subst k'.
    cbn [unique_keys] in Hu. apply andb_prop in Hu as [Hnd Hall].
    pose proof (filter_loop_distinct H cur d [] (distinct_NoDup _ Hnd)) as Hloop.
    cbn [flat_map app] in Hloop. rewrite Hloop. clear Hloop.
    apply existsb_exists.
    exists (k, _filter_recursive H w (cur ++ [k])). split.
    + apply in_flat_map. exists (k, w). split; [assumption|]. cbn [fst snd].
      destruct (decide (cur ++ [k] ∈ H)) as [Hin|_]; [|now left].
      exfalso. apply (Hvis [k] p eq_refl); [discriminate|exact Hin].
    + cbn [fst snd]. rewrite String.eqb_refl. cbn [andb].
      rewrite List.Forall_forall in IH.
      apply (IH (k, w) Hkw (proj1 (forallb_forall _ _) Hall (k, w) Hkw) (cur ++ [k]) p Hp).
      intros q r -> Hq. rewrite <- app_assoc. cbn [app].
      apply (Hvis (k :: q) r eq_refl). discriminate.
Qed.

(** X19.  What the visibility filter keeps, exactly: in a document whose
    objects have distinct keys, a path can be followed in the filtered
    document if and only if it can be followed in the document and neither
    the path nor any non-empty beginning of it is hidden. *)
Theorem filter_json_by_visibility_has_path (H : gset path) (v : pyobj) (p : path) :
  unique_keys v = true ->
  has_path (filter_json_by_visibility H v) p = true
  <-> has_path v p = true /\ forall q r, p = q ++ r -> q <> [] -> q ∉ H.
Proof.
  intros Hu. unfold filter_json_by_visibility.
  destruct (decide (H = ∅)) as [->|Hne].
  - split; [|now intros [Hp _]].
    intros Hp. split; [assumption|]. intros q r _ _. apply not_elem_of_empty.
  - split.
    + intros Hp. split; [now apply (filter_keeps_only_paths H v [] p)|].
      intros q r -> Hq Hin.
      apply has_path_prefix in Hp.
      rewrite (hidden_path_removed H v [] q Hq Hin) in Hp. discriminate Hp.
    + intros [Hp Hvis]. apply filter_keeps_visible; assumption.
Qed.

Lemma filter_json_by_visibility_has_path_witness :
  let v := PDict [("a", PList [PDict [("b", PInt 1); ("c", PInt 2)]]); ("d", PNone)] in
  has_path (filter_json_by_visibility {[ ["a"; "c"] ]} v) ["a"; "b"] = true.
Proof.
  cbv zeta.
  refine (proj2 (filter_json_by_visibility_has_path {[ ["a"; "c"] ]}
                   (PDict [("a", PList [PDict [("b", PInt 1); ("c", PInt 2)]]); ("d", PNone)])
                   ["a"; "b"] _) _).
  - reflexivity.
  - split; [reflexivity|].
    intros q r Hqr Hq Hin%elem_of_singleton. subst q.
    discriminate Hqr.
Defined.

(** ** Paths below an array at the root *)

Lemma pyobj_depth_neq (d : dict) (k : string) :
  dict_has d k = true -> PDict d <> dict_at d k.
Proof.
  intros Hk E. pose proof (dict_at_depth d k Hk) as Hd. rewrite <- E in Hd. lia.
Qed.

(** X20.  With a non-empty array at the root, [_get_schema_at_path] never
    looks at the first segment of a path: the path of a top-level attribute
    resolves to the whole root schema, which is never the schema node of
    that attribute, and a longer path is resolved as if its first segment
    were not there. *)
Theorem root_array_first_segment_ignored (rs : list Z -> Z -> list Z)
    (x : pyobj) (l : list pyobj) (k : string) (rest : path) :
  let schema_info := analyze_json rs (PList (x :: l)) in
  _get_schema_at_path (PDict schema_info) (k :: rest)
  = get_schema_loop (PDict schema_info) 1 rest /\
  _get_schema_at_path (PDict schema_info) [k] = Some (PDict schema_info) /\
  (dict_has schema_info k = true -> PDict schema_info <> dict_at schema_info k).
Proof.
  cbv zeta.
  assert (Hstats : dict_has (analyze_json rs (PList (x :: l))) "__array_stats" = true).
  { cbn [analyze_json]. cbv zeta. rewrite dict_has_set. reflexivity. }
  remember (analyze_json rs (PList (x :: l))) as schema eqn:Hs.
  assert (Hskip : forall rest, _get_schema_at_path (PDict schema) (k :: rest)
                               = get_schema_loop (PDict schema) 1 rest).
  { intros rest'. unfold _get_schema_at_path.
    cbn [get_schema_loop py_in mbind option_bind]. rewrite Hstats. reflexivity. }
  split; [apply Hskip|]. split; [apply Hskip|]. apply pyobj_depth_neq.
Qed.

Lemma root_array_first_segment_ignored_witness :
  let schema_info := analyze_json sample_first (PList [PDict [("x", PInt 1)]]) in
  PDict schema_info <> dict_at schema_info "x".
Proof.
  cbv zeta.
  exact (proj2 (proj2 (root_array_first_segment_ignored sample_first
                         (PDict [("x", PInt 1)]) [] "x" [])) eq_refl).
Defined.
